(** * Verification of skyportal/handlers/api/archive.py (Fritz)

    A shallow embedding of the archive handlers: the IAU name synthesiser
    [radec_to_iau_name], the photometry normaliser [make_photometry], and
    the request handlers [CrossMatchHandler.get], [ScopeFeaturesHandler.post],
    [ArchiveHandler.get] and [ArchiveHandler.post]. *)

From Stdlib Require Import ZArith List String Ascii Bool Lia.
From Stdlib Require Import SpecFloat.
From Stdlib Require Import Reals Lra.
From stdpp Require Import gmap strings list.

Local Open Scope string_scope.
Local Open Scope list_scope.
Local Open Scope Z_scope.

(** ** Python floats: IEEE 754 binary64

    A Python [float] (and a [numpy.float64]) is a binary64 number.  The
    Standard Library's [SpecFloat] gives the arithmetic of the format as
    functions on sign, mantissa and exponent, rounding to nearest even. *)

Module F64.

Definition prec : Z := 53.
Definition emax : Z := 1024.

Abbreviation float := spec_float.

Definition mul : float -> float -> float := SFmul prec emax.
Definition div : float -> float -> float := SFdiv prec emax.
Definition sub : float -> float -> float := SFsub prec emax.
Definition add : float -> float -> float := SFadd prec emax.
Definition abs : float -> float := SFabs.
Definition leb : float -> float -> bool := SFleb.
Definition ltb : float -> float -> bool := SFltb.
Definition eqb : float -> float -> bool := SFeqb.

(** The float nearest to the integer [z], and to the fraction [n/d]
    (how a decimal literal such as [23.9 = 239/10] is read). *)
Definition of_Z (z : Z) : float := binary_normalize prec emax z 0 false.
Definition of_frac (n d : Z) : float := div (of_Z n) (of_Z d).

Definition valid (x : float) : bool := valid_binary prec emax x.

(** [numpy.floor]: the largest integral float not above [x]; zeros,
    infinities and NaN are returned unchanged. *)
Definition floor (x : float) : float :=
  match x with
  | S754_finite s m e =>
      if 0 <=? e then x
      else
        let d := 2 ^ (- e) in
        let q := Z.pos m / d in
        let r := Z.pos m mod d in
        if s then
          (if r =? 0 then binary_normalize prec emax (- q) 0 true
           else binary_normalize prec emax (- (q + 1)) 0 true)
        else binary_normalize prec emax q 0 false
  | _ => x
  end.

(** [numpy.sign]: -1, 0 or 1 as a float (the zero is positive), NaN for NaN. *)
Definition sign (x : float) : float :=
  match x with
  | S754_nan => S754_nan
  | S754_zero _ => S754_zero false
  | S754_infinity s | S754_finite s _ _ => if s then of_Z (-1) else of_Z 1
  end.

End F64.

(** ** Fixed-point formatting: Python's format specification [[+]0w.pf] *)

Definition digit_char (d : Z) : ascii := ascii_of_nat (Z.to_nat (48 + d)).

Fixpoint digits_fuel (fuel : nat) (n : Z) (acc : list ascii) : list ascii :=
  match fuel with
  | O => acc
  | S fuel' =>
      let acc' := digit_char (n mod 10) :: acc in
      if n / 10 =? 0 then acc' else digits_fuel fuel' (n / 10) acc'
  end.

(** Decimal digits of a natural number, most significant first. *)
Definition digits (n : Z) : list ascii :=
  digits_fuel (S (Z.to_nat (Z.log2 n))) n [].

Definition pad_zeros (w : nat) (l : list ascii) : list ascii :=
  (repeat "0"%char (w - length l)%nat ++ l)%list.

(** [|x| * 10^p] rounded to the nearest integer, ties to even, for
    [|x| = m * 2^e]: the decimal conversion is correctly rounded. *)
Definition scaled_round (m : positive) (e : Z) (p : nat) : Z :=
  let num := Z.pos m * 10 ^ Z.of_nat p in
  if 0 <=? e then num * 2 ^ e
  else
    let den := 2 ^ (- e) in
    let q := num / den in
    let r := num mod den in
    match 2 * r ?= den with
    | Lt => q
    | Gt => q + 1
    | Eq => if Z.even q then q else q + 1
    end.

(** The digits of [n / 10^p], a point, and [p] digits of [n mod 10^p]. *)
Definition fixed_body (n : Z) (p : nat) : list ascii :=
  let ip := digits (n / 10 ^ Z.of_nat p) in
  match p with
  | O => ip
  | _ => (ip ++ "."%char :: pad_zeros p (digits (n mod 10 ^ Z.of_nat p)))%list
  end.

Definition sign_chars (plus : bool) (s : bool) : list ascii :=
  if s then ["-"%char] else if plus then ["+"%char] else [].

(** [format(x, "0w.pf")], and [format(x, "+0w.pf")] when [plus] is set:
    the sign comes first and zeros fill the field up to [w] characters. *)
Definition format_f (plus : bool) (w p : nat) (x : F64.float) : list ascii :=
  let '(sg, body) :=
    match x with
    | S754_nan => (sign_chars plus false, list_ascii_of_string "nan")
    | S754_infinity s => (sign_chars plus s, list_ascii_of_string "inf")
    | S754_zero s => (sign_chars plus s, fixed_body 0 p)
    | S754_finite s m e => (sign_chars plus s, fixed_body (scaled_round m e p) p)
    end in
  (sg ++ pad_zeros (w - length sg) body)%list.

(** ** Exceptions and results *)

Inductive exn : Type :=
| ValueError (msg : string)
| KeyError (key : string)
| TypeError (msg : string)
| IntegrityError
| OtherError (msg : string).

Inductive result (A : Type) : Type :=
| Ok (a : A)
| Raise (e : exn).
Arguments Ok {A} a.
Arguments Raise {A} e.

(** ** radec_to_iau_name *)

Definition f0 : F64.float := S754_zero false.
Definition f12 : F64.float := Eval vm_compute in F64.of_Z 12.
Definition f60 : F64.float := Eval vm_compute in F64.of_Z 60.
Definition f90 : F64.float := Eval vm_compute in F64.of_Z 90.
Definition fm90 : F64.float := Eval vm_compute in F64.of_Z (-90).
Definition f180 : F64.float := Eval vm_compute in F64.of_Z 180.
Definition f360 : F64.float := Eval vm_compute in F64.of_Z 360.

Definition radec_to_iau_name (ra dec : F64.float) (prefix : string)
  : result string :=
  if negb (F64.leb f0 ra && F64.ltb ra f360) then
    Raise (ValueError "Bad RA value in degrees")
  else if negb (F64.leb fm90 dec && F64.leb dec f90) then
    Raise (ValueError "Bad Dec value in degrees")
  else
    let rah := F64.div (F64.mul ra f12) f180 in
    let ra_h := F64.floor rah in
    let ra_m := F64.floor (F64.mul (F64.sub rah ra_h) f60) in
    let ra_s := F64.mul (F64.sub (F64.mul (F64.sub rah ra_h) f60) ra_m) f60 in
    let dec_d := F64.mul (F64.floor (F64.abs dec)) (F64.sign dec) in
    let dec_m := F64.floor (F64.mul (F64.abs (F64.sub dec dec_d)) f60) in
    let dec_s :=
      F64.mul (F64.abs (F64.sub (F64.mul (F64.abs (F64.sub dec dec_d)) f60) dec_m))
              f60 in
    let hms := (format_f false 2 0 ra_h ++ format_f false 2 0 ra_m
                ++ format_f false 5 2 ra_s)%list in
    let dms := (format_f true 3 0 dec_d ++ format_f false 2 0 dec_m
                ++ format_f false 4 1 dec_s)%list in
    Ok (prefix ++ string_of_list_ascii (hms ++ dms)%list)%string.

(** ** make_photometry *)

(** One element of a light curve's ["data"] array. *)
Record epoch : Type := Epoch {
  hjd : F64.float;
  mag : F64.float;
  magerr : F64.float;
  catflags : Z;
  programid : Z;
  ra : F64.float;
  dec : F64.float
}.

(** A light-curve document as returned by the aggregation pipeline. *)
Record light_curve : Type := LightCurve {
  lc_id : Z;
  lc_ra : option F64.float;
  lc_dec : option F64.float;
  lc_filter : Z;
  lc_data : list epoch
}.

(** One row of the data frame that [make_photometry] returns. *)
Record phot_row : Type := PhotRow {
  row_hjd : F64.float;
  row_mag : F64.float;
  row_magerr : F64.float;
  row_catflags : Z;
  row_programid : Z;
  row_ra : F64.float;
  row_dec : F64.float;
  row_fid : Z;
  row_ztf_filter : string;
  row_magsys : string;
  row_zp : F64.float;
  row_mjd : F64.float
}.

(** [numpy.float32(x)]: [x] rounded to binary32. *)
Definition to_float32 (x : F64.float) : F64.float :=
  match x with
  | S754_finite s m e => binary_round 24 128 s m e
  | _ => x
  end.

Definition string_of_Z (z : Z) : string :=
  if z <? 0 then String "-" (string_of_list_ascii (digits (- z)))
  else string_of_list_ascii (digits z).

Definition ztf_filters (fid : Z) : option string :=
  if fid =? 1 then Some "ztfg"
  else if fid =? 2 then Some "ztfr"
  else if fid =? 3 then Some "ztfi"
  else None.

Definition hjd_offset : F64.float := Eval vm_compute in F64.of_frac 4800001 2.
Definition zero_point : F64.float := Eval vm_compute in F64.of_frac 239 10.

(** The frame built from one light curve: its epochs tagged with [fid]. *)
Definition tagged (lc : light_curve) : list (epoch * Z) :=
  map (fun e => (e, lc_filter lc)) (lc_data lc).

(** [df["fid"].apply(lambda x: ztf_filters[x])]: the first row whose code
    is not in the table raises [KeyError]. *)
Fixpoint apply_ztf_filters (df : list (epoch * Z))
  : result (list (epoch * Z * string)) :=
  match df with
  | [] => Ok []
  | (e, fid) :: rest =>
      match ztf_filters fid with
      | None => Raise (KeyError (string_of_Z fid))
      | Some name =>
          match apply_ztf_filters rest with
          | Ok rows => Ok ((e, fid, name) :: rows)
          | Raise x => Raise x
          end
      end
  end.

Definition finish_row (r : epoch * Z * string) : phot_row :=
  let '(e, fid, name) := r in
  {| row_hjd := hjd e;
     row_mag := to_float32 (mag e);
     row_magerr := to_float32 (magerr e);
     row_catflags := catflags e;
     row_programid := programid e;
     row_ra := ra e;
     row_dec := dec e;
     row_fid := fid;
     row_ztf_filter := name;
     row_magsys := "ab";
     row_zp := zero_point;
     row_mjd := F64.sub (hjd e) hjd_offset |}.

Definition make_photometry (light_curves : list light_curve)
  (drop_flagged : bool) : result (list phot_row) :=
  let dfs :=
    map tagged
      (List.filter (fun lc => negb (Nat.eqb (length (lc_data lc)) 0)) light_curves) in
  match dfs with
  | [] => Raise (ValueError "No objects to concatenate")
  | _ =>
      let df_light_curve := concat dfs in
      match apply_ztf_filters df_light_curve with
      | Raise x => Raise x
      | Ok named =>
          let df := map finish_row named in
          if drop_flagged then
            Ok (List.filter (fun r => row_catflags r =? 0) df)
          else Ok df
      end
  end.

(** ** Python values and strings *)

(** Values that arrive in a query string or a JSON body: null, booleans,
    numbers, strings and arrays of integers (identifier lists). *)
Inductive pyval : Type :=
| PNone
| PBool (b : bool)
| PInt (z : Z)
| PFloat (f : F64.float)
| PStr (s : string)
| PList (l : list Z).

(** Truth value testing, as [all] and [any] apply it. *)
Definition truthy (v : pyval) : bool :=
  match v with
  | PNone => false
  | PBool b => b
  | PInt z => negb (z =? 0)
  | PFloat f => match f with S754_zero _ => false | _ => true end
  | PStr s => negb (Nat.eqb (String.length s) 0)
  | PList l => negb (Nat.eqb (length l) 0)
  end.

Definition is_none (v : pyval) : bool :=
  match v with PNone => true | _ => false end.

Definition py_all (l : list pyval) : bool := forallb truthy l.
Definition py_any (l : list pyval) : bool := existsb truthy l.

(** [v in names] for a list of strings. *)
Definition in_strings (v : pyval) (names : list string) : bool :=
  match v with
  | PStr s => existsb (String.eqb s) names
  | _ => false
  end.

Definition str_is (v : pyval) (s : string) : bool :=
  match v with PStr t => String.eqb t s | _ => false end.

(** [p in s] for strings: [p] occurs in [s]. *)
Fixpoint contains (p s : string) : bool :=
  String.prefix p s
  || match s with
     | EmptyString => false
     | String _ t => contains p t
     end.

Definition lower_char (c : ascii) : ascii :=
  let n := nat_of_ascii c in
  if (Nat.leb 65 n && Nat.leb n 90)%bool then ascii_of_nat (n + 32) else c.

(** [str.lower] on ASCII text. *)
Fixpoint lower (s : string) : string :=
  match s with
  | EmptyString => EmptyString
  | String c t => String (lower_char c) (lower t)
  end.

(** ** Effects: exceptions over a state that records the external calls *)

(** Queries sent to the catalog service. *)
Inductive query : Type :=
| QCatalogNames
| QNear (max_distance : F64.float) (distance_units : string)
        (q_ra q_dec : F64.float) (catalogs : list string) (id_only : bool)
| QFind (catalog : string) (ids : list Z)
| QAggregate (catalog : pyval) (ids : pyval) (program_id_selector : list Z).

(** A matched source of a cone search. *)
Record hit : Type := Hit {
  hit_id : Z;
  hit_lon : F64.float;
  hit_lat : F64.float
}.

Inductive gloria_data : Type :=
| DNone
| DNames (names : list string)
| DNear (per_catalog : list (string * list hit))
| DDocs (docs : list (list (string * pyval)))
| DLightCurves (lcs : list light_curve).

Record gloria_response : Type := GloriaResponse {
  g_status : option string;
  g_message : pyval;
  g_data : gloria_data
}.

(** The payload handed to [add_external_photometry]. *)
Record photometry : Type := Photometry {
  ph_obj_id : pyval;
  ph_instrument_id : Z;
  ph_mjd : list F64.float;
  ph_mag : list F64.float;
  ph_magerr : list F64.float;
  ph_limiting_mag : list F64.float;
  ph_magsys : list string;
  ph_filter : list string;
  ph_ra : list F64.float;
  ph_dec : list F64.float;
  ph_stream_ids : list Z
}.

Record annotation : Type := Annotation {
  ann_data : list (string * pyval);
  ann_obj_id : string;
  ann_origin : string;
  ann_author : Z;
  ann_groups : list Z
}.

Inductive event : Type :=
| EvQuery (q : query)
| EvCreateToken (name : string) (token_id : Z)
| EvDeleteToken (token_id : Z)
| EvPostSource (obj_id : pyval) (ra dec : F64.float) (group_ids : pyval)
| EvAddPhotometry (p : photometry)
| EvPushAll (obj_key : string)
| EvLog (msg : string).

Record state : Type := State {
  trace : list event;
  annotations : list annotation
}.

Definition M (A : Type) : Type := state -> result A * state.

Definition ret {A} (a : A) : M A := fun st => (Ok a, st).
Definition raise {A} (e : exn) : M A := fun st => (Raise e, st).
Definition bind {A B} (c : M A) (k : A -> M B) : M B :=
  fun st =>
    match c st with
    | (Ok a, st') => k a st'
    | (Raise e, st') => (Raise e, st')
    end.
Definition lift {A} (r : result A) : M A := fun st => (r, st).
Definition emit (ev : event) : M unit :=
  fun st => (Ok tt, {| trace := trace st ++ [ev]; annotations := annotations st |}).

Notation "x <- c ;; k" := (bind c (fun x => k))
  (at level 100, c at next level, right associativity).
Notation "c ;;; k" := (bind c (fun _ => k))
  (at level 100, right associativity).

(** [try: body finally: cleanup]: the cleanup runs whether the body
    finishes or raises; an exception of the cleanup replaces the body's. *)
Definition try_finally {A} (body : M A) (cleanup : M unit) : M A :=
  fun st =>
    match body st with
    | (r, st') =>
        match cleanup st' with
        | (Ok _, st'') => (r, st'')
        | (Raise e, st'') => (Raise e, st'')
        end
    end.

(** [try: body except IntegrityError: handler]. *)
Definition except_integrity {A} (body : M A) (handler : M A) : M A :=
  fun st =>
    match body st with
    | (Raise IntegrityError, st') => handler st'
    | other => other
    end.

(** What a handler hands back: [self.success], [self.error], or nothing
    at all when the method falls off its end without writing either. *)
Inductive message : Type :=
| Msg (s : string)
| MsgCatalogNotAvailable (catalog : pyval)
| MsgNoSource (obj_id : pyval)
| MsgNoGroups (group_ids : list Z)
| MsgRemote (m : pyval).

Inductive payload : Type :=
| NoData
| Names (l : list string)
| Matches (l : list (string * list (string * F64.float * F64.float)))
| LightCurves (l : list light_curve)
| EmptyList
| ObjId (obj_id : pyval).

Inductive response : Type :=
| Success (data : payload)
| Error (msg : message) (status : Z).

Definition error (s : string) : response := Error (Msg s) 400.

(** ** Requests and collaborators *)

Record request : Type := Request {
  query_args : gmap string string;
  json_body : gmap string pyval
}.

(** [self.get_query_argument(name, None)]. *)
Definition get_query_argument (req : request) (name : string) : pyval :=
  match query_args req !! name with
  | Some v => PStr v
  | None => PNone
  end.

(** [data.pop(key)] and [data.pop(key, default)] on the JSON body. *)
Definition pop (data : gmap string pyval) (key : string) : result pyval :=
  match data !! key with
  | Some v => Ok v
  | None => Raise (KeyError key)
  end.

Definition pop_default (data : gmap string pyval) (key : string)
  (default : pyval) : pyval :=
  match data !! key with
  | Some v => v
  | None => default
  end.

(** A row of the [Stream] table; [altdata] may be null, and need not
    have a ["selector"] entry. *)
Record stream : Type := Stream {
  stream_name : string;
  stream_id : Z;
  stream_altdata : option (option (list Z))
}.

(** Outcomes of the calls [ArchiveHandler.post] makes into the store and
    the token service.  The handler opens two sessions: the first around
    the loop over the caller's streams ([streams_session]), before the
    remote query and the token; the second ([session_enter]) after the
    token is minted. *)
Record post_env : Type := PostEnv {
  uuid4 : string;
  create_token : string -> result Z;
  delete_token : Z -> result unit;
  streams_session : result unit;
  session_enter : result unit;
  current_user : result Z;
  select_sources : pyval -> result (list Z);
  post_source : pyval -> F64.float -> F64.float -> pyval -> Z -> result unit;
  select_ztf_instrument : result (option Z);
  select_streams : result (list stream);
  add_external_photometry : photometry -> result unit
}.

Record env : Type := Env {
  gloria : option (query -> result gloria_response);
  parse_float : string -> option F64.float;
  parse_int : string -> option Z;
  np_mean : list F64.float -> F64.float;
  user_streams : list stream;
  find_obj : string -> option string;
  accessible_group_ids : list Z;
  select_groups : list Z -> list Z;
  associated_user : Z;
  penv : post_env
}.

Definition gloria_query (g : query -> result gloria_response) (q : query)
  : M gloria_response :=
  emit (EvQuery q) ;;; lift (g q).

Definition is_success (r : gloria_response) : bool :=
  match g_status r with
  | Some s => String.eqb s "success"
  | None => false
  end.

(** The ["data"] of the catalog-names answer, iterated as a list. *)
Definition names_of (r : gloria_response) : result (list string) :=
  match g_data r with
  | DNames l => Ok l
  | _ => Raise (TypeError "object is not iterable")
  end.

(** [float(v)]. *)
Definition py_float (parse : string -> option F64.float) (v : pyval)
  : result F64.float :=
  match v with
  | PStr s =>
      match parse s with
      | Some f => Ok f
      | None => Raise (ValueError "could not convert string to float")
      end
  | PFloat f => Ok f
  | PInt z =>
      match F64.of_Z z with
      | S754_infinity _ => Raise (OtherError "OverflowError")
      | f => Ok f
      end
  | PBool b => Ok (F64.of_Z (if b then 1 else 0))
  | _ => Raise (TypeError "float() argument must be a string or a real number")
  end.

Definition f1 : F64.float := Eval vm_compute in F64.of_Z 1.
Definition f3600 : F64.float := Eval vm_compute in F64.of_Z 3600.

(** The block every position handler starts its search with: an
    incomplete tuple names the first parameter that is [None]. *)
Definition missing_parameter (ra dec radius radius_units : pyval)
  : option response :=
  let position_tuple := [ra; dec; radius; radius_units] in
  if negb (py_all position_tuple) && py_any position_tuple then
    if is_none ra then Some (error "Missing required parameter: ra")
    else if is_none dec then Some (error "Missing required parameter: dec")
    else if is_none radius then
      Some (error "Missing required parameter: radius")
    else if is_none radius_units then
      Some (error "Missing required parameter: radius_units")
    else None
  else None.

Definition units_list : list string := ["deg"; "arcmin"; "arcsec"].

Definition bad_units_msg : string :=
  "Invalid radius_units value. Must be one of either 'deg', 'arcmin', or 'arcsec'.".

(** [ra = float(ra); dec = float(dec); radius = float(radius)]. *)
Definition to_floats (parse : string -> option F64.float)
  (ra dec radius : pyval) : result (F64.float * F64.float * F64.float) :=
  match py_float parse ra with
  | Raise e => Raise e
  | Ok a =>
      match py_float parse dec with
      | Raise e => Raise e
      | Ok d =>
          match py_float parse radius with
          | Raise e => Raise e
          | Ok r => Ok (a, d, r)
          end
      end
  end.

Definition radius_too_large (radius_units : pyval) (radius : F64.float) : bool :=
  (str_is radius_units "deg" && F64.ltb f1 radius)
  || (str_is radius_units "arcmin" && F64.ltb f60 radius)
  || (str_is radius_units "arcsec" && F64.ltb f3600 radius).

(** The text of a value already known to be a string. *)
Definition str_value (v : pyval) : string :=
  match v with PStr s => s | _ => "" end.

(** ** CrossMatchHandler.get *)

Definition cross_match_catalog (catalog : string) : bool :=
  negb (String.prefix "ZTF" catalog)
  && negb (String.prefix "PTF" catalog)
  && negb (String.prefix "PGIR" catalog)
  && negb (String.prefix "WNTR" catalog).

(** Stringify the identifiers and rebuild (ra, dec) of every match. *)
Definition unpack_matches (d : gloria_data)
  : result (list (string * list (string * F64.float * F64.float))) :=
  match d with
  | DNear per_catalog =>
      Ok (map (fun cs : string * list hit =>
                 (fst cs,
                  map (fun h => (string_of_Z (hit_id h),
                                 F64.add (hit_lon h) f180,
                                 hit_lat h))
                      (snd cs)))
              per_catalog)
  | _ => Raise (TypeError "unexpected near result")
  end.

Definition CrossMatchHandler_get (E : env) (req : request)
  : M (option response) :=
  match gloria E with
  | None => ret (Some (error "Gloria connection unavailable."))
  | Some g =>
      info <- gloria_query g QCatalogNames ;;
      available_catalog_names <- lift (names_of info) ;;
      let catalogs := List.filter cross_match_catalog available_catalog_names in
      if Nat.eqb (length catalogs) 0 then
        ret (Some (error "No catalogs available to run cross-match against."))
      else
        let ra := get_query_argument req "ra" in
        let dec := get_query_argument req "dec" in
        let radius := get_query_argument req "radius" in
        let radius_units := get_query_argument req "radius_units" in
        match missing_parameter ra dec radius radius_units with
        | Some r => ret (Some r)
        | None =>
            if py_all [ra; dec; radius; radius_units] then
              if negb (in_strings radius_units units_list) then
                ret (Some (error bad_units_msg))
              else
                match to_floats (parse_float E) ra dec radius with
                | Raise (ValueError _) =>
                    ret (Some (error "Invalid (non-float) value provided."))
                | Raise e => raise e
                | Ok (ra, dec, radius) =>
                    if negb (F64.leb f0 ra && F64.ltb ra f360) then
                      ret (Some (error
                        "Invalid R.A. value provided: must be 0 <= R.A. [deg] < 360"))
                    else if negb (F64.leb fm90 dec && F64.leb dec f90) then
                      ret (Some (error
                        "Invalid Decl. value provided: must be -90 <= Decl. [deg] <= 90"))
                    else if radius_too_large radius_units radius then
                      ret (Some (error "Radius must be <= 1.0 deg"))
                    else
                      response <- gloria_query g
                        (QNear radius (str_value radius_units) ra dec
                               catalogs false) ;;
                      if is_success response then
                        data <- lift (unpack_matches (g_data response)) ;;
                        ret (Some (Success (Matches data)))
                      else
                        ret (Some (Error (MsgRemote (g_message response)) 400))
                end
            else ret None
        end
  end.

(** ** The caller's accessible program ids *)

(** [stream.altdata.get("selector", [])]. *)
Definition selector_of (s : stream) : result (list Z) :=
  match stream_altdata s with
  | None => Raise (OtherError "AttributeError")
  | Some None => Ok []
  | Some (Some l) => Ok l
  end.

(** The loop over [self.associated_user_object.streams], started from
    the public program id. *)
Fixpoint update_selector (streams : list stream) (acc : gset Z)
  : result (gset Z) :=
  match streams with
  | [] => Ok acc
  | s :: rest =>
      if contains "ztf" (lower (stream_name s)) then
        match selector_of s with
        | Raise e => Raise e
        | Ok l => update_selector rest (acc ∪ list_to_set l)
        end
      else update_selector rest acc
  end.

Definition program_id_selector (streams : list stream) : result (gset Z) :=
  update_selector streams {[ 1 ]}.

(** ** ArchiveHandler.get *)

(** The identifiers of the matches in [catalog]. *)
Definition light_curve_ids_of (d : gloria_data) (catalog : string)
  : result (list Z) :=
  match d with
  | DNear per_catalog =>
      match List.find (fun cs => String.eqb (fst cs) catalog) per_catalog with
      | Some cs => Ok (map hit_id (snd cs))
      | None => Raise (KeyError catalog)
      end
  | _ => Raise (TypeError "unexpected near result")
  end.

Definition light_curves_of (d : gloria_data) : result (list light_curve) :=
  match d with
  | DLightCurves l => Ok l
  | _ => Raise (TypeError "unexpected aggregate result")
  end.

Definition ArchiveHandler_get (E : env) (req : request)
  : M (option response) :=
  match gloria E with
  | None => ret (Some (error "Gloria connection unavailable."))
  | Some g =>
      info <- gloria_query g QCatalogNames ;;
      available_catalog_names <- lift (names_of info) ;;
      let available_catalogs :=
        List.filter (contains "ZTF_sources") available_catalog_names in
      selector <- lift (program_id_selector (user_streams E)) ;;
      let program_ids := elements selector in
      match query_args req !! "catalog" with
      | None => raise (OtherError "MissingArgumentError")
      | Some catalog =>
          if negb (existsb (String.eqb catalog) available_catalogs) then
            ret (Some (Error (MsgCatalogNotAvailable (PStr catalog)) 400))
          else
            let ra := get_query_argument req "ra" in
            let dec := get_query_argument req "dec" in
            let radius := get_query_argument req "radius" in
            let radius_units := get_query_argument req "radius_units" in
            match missing_parameter ra dec radius radius_units with
            | Some r => ret (Some r)
            | None =>
                if py_all [ra; dec; radius; radius_units] then
                  if negb (in_strings radius_units units_list) then
                    ret (Some (error bad_units_msg))
                  else
                    match to_floats (parse_float E) ra dec radius with
                    | Raise (ValueError _) =>
                        ret (Some (error "Invalid (non-float) value provided."))
                    | Raise e => raise e
                    | Ok (ra, dec, radius) =>
                        if radius_too_large radius_units radius then
                          ret (Some (error "Radius must be <= 1.0 deg"))
                        else
                          response <- gloria_query g
                            (QNear radius (str_value radius_units) ra dec
                                   [catalog] true) ;;
                          if is_success response then
                            light_curve_ids <-
                              lift (light_curve_ids_of (g_data response) catalog) ;;
                            if Nat.eqb (length light_curve_ids) 0 then
                              ret (Some (Success EmptyList))
                            else
                              response <- gloria_query g
                                (QAggregate (PStr catalog) (PList light_curve_ids)
                                            program_ids) ;;
                              if is_success response then
                                light_curves <-
                                  lift (light_curves_of (g_data response)) ;;
                                ret (Some (Success (LightCurves light_curves)))
                              else
                                ret (Some (Error (MsgRemote (g_message response)) 400))
                          else
                            ret (Some (Error (MsgRemote (g_message response)) 400))
                    end
                else ret None
            end
      end
  end.

(** ** ScopeFeaturesHandler.post *)

(** [pandas.isnull] on a scalar. *)
Definition isnull (v : pyval) : bool :=
  match v with
  | PNone => true
  | PFloat S754_nan => true
  | _ => false
  end.

(** [int(v)], truncating a float toward zero. *)
Definition py_int (parse : string -> option Z) (v : pyval) : result pyval :=
  match v with
  | PInt z => Ok (PInt z)
  | PBool b => Ok (PInt (if b then 1 else 0))
  | PFloat (S754_zero _) => Ok (PInt 0)
  | PFloat (S754_finite s m e) =>
      let a := if 0 <=? e then Z.pos m * 2 ^ e else Z.pos m / 2 ^ (- e) in
      Ok (PInt (if s then - a else a))
  | PFloat S754_nan => Raise (ValueError "cannot convert float NaN to integer")
  | PFloat (S754_infinity _) => Raise (OtherError "OverflowError")
  | PStr t =>
      match parse t with
      | Some z => Ok (PInt z)
      | None => Raise (ValueError "invalid literal for int()")
      end
  | _ => Raise (TypeError "int() argument must be a string or a real number")
  end.

Definition integer_keys : list string := ["_id"; "field"; "ccd"; "quad"; "n"].

(** The loop that fills [annotation_data] from the feature document. *)
Fixpoint annotation_data_of (parse : string -> option Z)
  (features : list (string * pyval)) : result (list (string * pyval)) :=
  match features with
  | [] => Ok []
  | (key, value) :: rest =>
      if negb (isnull value) then
        match (if existsb (String.eqb key) integer_keys
               then py_int parse value else Ok value) with
        | Raise e => Raise e
        | Ok value' =>
            match annotation_data_of parse rest with
            | Raise e => Raise e
            | Ok tl => Ok ((key, value') :: tl)
            end
        end
      else annotation_data_of parse rest
  end.

Definition same_key (a b : annotation) : bool :=
  String.eqb (ann_obj_id a) (ann_obj_id b)
  && String.eqb (ann_origin a) (ann_origin b)
  && (ann_author a =? ann_author b).

(** Modelled from the spec: the persistent store and its [Annotation]
    table are not part of this file.  Following the spec's uniqueness
    invariant (at most one annotation per object id, origin and author,
    with a uniqueness-violation signal distinguishable from all other
    failures), [session.add_all] followed by [session.commit] stores the
    new rows, or raises [IntegrityError] and stores nothing when a row
    with the same key is already there. *)
Definition add_all_commit (new : list annotation) : M unit :=
  fun st =>
    if existsb (fun a => existsb (same_key a) (annotations st)) new then
      (Raise IntegrityError, st)
    else
      (Ok tt, {| trace := trace st; annotations := annotations st ++ new |}).

Definition first_doc (d : gloria_data) : result (list (string * pyval)) :=
  match d with
  | DDocs (doc :: _) => Ok doc
  | DDocs [] => Raise (OtherError "IndexError")
  | _ => Raise (TypeError "unexpected find result")
  end.

Definition f2_default : pyval := PInt 2.

Definition ScopeFeaturesHandler_post (E : env) (req : request)
  : M (option response) :=
  match gloria E with
  | None => ret (Some (error "Gloria connection unavailable."))
  | Some g =>
      info <- gloria_query g QCatalogNames ;;
      available_catalog_names <- lift (names_of info) ;;
      let available_catalogs :=
        List.filter (contains "ZTF_source_features") available_catalog_names in
      let data := json_body req in
      obj_id <- lift (pop data "id") ;;
      ra <- lift (pop data "ra") ;;
      dec <- lift (pop data "dec") ;;
      let catalog := pop_default data "catalog" (PStr "ZTF_source_features_DR5") in
      let radius := pop_default data "radius" f2_default in
      let radius_units := pop_default data "radius_units" (PStr "arcsec") in
      if negb (in_strings catalog available_catalogs) then
        ret (Some (Error (MsgCatalogNotAvailable catalog) 400))
      else
        let catalog := str_value catalog in
        match missing_parameter ra dec radius radius_units with
        | Some r => ret (Some r)
        | None =>
            if py_all [ra; dec; radius; radius_units] then
              if negb (in_strings radius_units units_list) then
                ret (Some (error bad_units_msg))
              else
                match to_floats (parse_float E) ra dec radius with
                | Raise (ValueError _) =>
                    ret (Some (error "Invalid (non-float) value provided."))
                | Raise e => raise e
                | Ok (ra, dec, radius) =>
                    if radius_too_large radius_units radius then
                      ret (Some (error "Radius must be <= 1.0 deg"))
                    else
                      response <- gloria_query g
                        (QNear radius (str_value radius_units) ra dec
                               [catalog] true) ;;
                      match (match obj_id with
                             | PStr s => find_obj E s
                             | _ => None
                             end) with
                      | None => ret (Some (Error (MsgNoSource obj_id) 403))
                      | Some obj_key =>
                          let group_ids := accessible_group_ids E in
                          let groups := select_groups E group_ids in
                          if negb (bool_decide
                                     ((list_to_set groups : gset Z)
                                      = list_to_set group_ids)) then
                            ret (Some (Error (MsgNoGroups group_ids) 403))
                          else
                            let author := associated_user E in
                            if is_success response then
                              light_curve_ids <-
                                lift (light_curve_ids_of (g_data response) catalog) ;;
                              match light_curve_ids with
                              | [] => ret (Some (Success EmptyList))
                              | first_id :: _ =>
                                  response <- gloria_query g
                                    (QFind catalog [first_id]) ;;
                                  if is_success response then
                                    features <- lift (first_doc (g_data response)) ;;
                                    annotation_data <-
                                      lift (annotation_data_of (parse_int E) features) ;;
                                    match annotation_data with
                                    | [] =>
                                        ret (Some (error "No SCoPe features available."))
                                    | _ =>
                                        let annotation :=
                                          {| ann_data := annotation_data;
                                             ann_obj_id := str_value obj_id;
                                             ann_origin := catalog;
                                             ann_author := author;
                                             ann_groups := groups |} in
                                        conflict <-
                                          except_integrity
                                            (add_all_commit [annotation] ;;; ret None)
                                            (ret (Some (error "Annotation already posted."))) ;;
                                        match conflict with
                                        | Some r => ret (Some r)
                                        | None =>
                                            emit (EvPushAll obj_key) ;;;
                                            ret (Some (Success NoData))
                                        end
                                    end
                                  else
                                    ret (Some (Error (MsgRemote (g_message response)) 400))
                              end
                            else
                              ret (Some (Error (MsgRemote (g_message response)) 400))
                      end
                end
            else ret None
        end
  end.

(** ** ArchiveHandler.post *)

(** [len(v)]. *)
Definition py_len (v : pyval) : result nat :=
  match v with
  | PStr t => Ok (String.length t)
  | PList l => Ok (length l)
  | _ => Raise (TypeError "object has no len()")
  end.

(** [v is None or len(v) == 0]. *)
Definition none_or_empty (v : pyval) : result bool :=
  match v with
  | PNone => Ok true
  | _ =>
      match py_len v with
      | Ok n => Ok (Nat.eqb n 0)
      | Raise e => Raise e
      end
  end.

(** The values of a field over the light curves that have it. *)
Definition present {A} (f : light_curve -> option A) (lcs : list light_curve)
  : list A :=
  omap f lcs.

(** The program-id to stream-id dictionary, filled by the loop over the
    [Stream] rows. *)
Fixpoint fill_stream_ids (streams : list stream) (m : gmap Z Z) : gmap Z Z :=
  match streams with
  | [] => m
  | s :: rest =>
      let m1 :=
        if String.eqb (stream_name s) "ZTF Public"
        then <[ 1 := stream_id s ]> m else m in
      let m2 :=
        if String.eqb (stream_name s) "ZTF Public+Partnership"
        then <[ 2 := stream_id s ]> m1 else m1 in
      let m3 :=
        if String.eqb (stream_name s) "ZTF Public+Partnership+Caltech"
        then <[ 3 := stream_id s ]> (<[ 0 := stream_id s ]> m2) else m2 in
      fill_stream_ids rest m3
  end.

Definition ztf_program_id_to_stream_id (streams : list stream) : gmap Z Z :=
  fill_stream_ids streams ∅.

(** [df["programid"].apply(lambda x: ztf_program_id_to_stream_id[x])]. *)
Fixpoint apply_stream_ids (m : gmap Z Z) (rows : list phot_row)
  : result (list Z) :=
  match rows with
  | [] => Ok []
  | r :: rest =>
      match m !! row_programid r with
      | None => Raise (KeyError (string_of_Z (row_programid r)))
      | Some sid =>
          match apply_stream_ids m rest with
          | Ok tl => Ok (sid :: tl)
          | Raise e => Raise e
          end
      end
  end.

(** The body of the [try] block.  It yields the object id it settled on
    and, when it returns from inside the block, the response. *)
Definition post_try_body (E : env) (obj_id group_ids : pyval)
  (light_curves : list light_curve) (user : Z)
  : M (pyval * option response) :=
  let P := penv E in
  let ra_mean := np_mean E (present lc_ra light_curves) in
  let dec_mean := np_mean E (present lc_dec light_curves) in
  obj_id <- (if is_none obj_id then
               match radec_to_iau_name ra_mean dec_mean "ZTFJ" with
               | Ok name => ret (PStr name)
               | Raise e => raise e
               end
             else ret obj_id) ;;
  sources <- lift (select_sources P obj_id) ;;
  (if Nat.ltb 0 (length sources) then
     emit (EvLog "Source exists... updating photometry.")
   else
     emit (EvPostSource obj_id ra_mean dec_mean group_ids) ;;;
     lift (post_source P obj_id ra_mean dec_mean group_ids user)) ;;;
  df_photometry <- lift (make_photometry light_curves true) ;;
  ztf_instrument <- lift (select_ztf_instrument P) ;;
  match ztf_instrument with
  | None => ret (obj_id, Some (error "ZTF instrument not found in the system"))
  | Some instrument_id =>
      streams <- lift (select_streams P) ;;
      let m := ztf_program_id_to_stream_id streams in
      stream_ids <- lift (apply_stream_ids m df_photometry) ;;
      let photometry :=
        {| ph_obj_id := obj_id;
           ph_instrument_id := instrument_id;
           ph_mjd := map row_mjd df_photometry;
           ph_mag := map row_mag df_photometry;
           ph_magerr := map row_magerr df_photometry;
           ph_limiting_mag := map row_zp df_photometry;
           ph_magsys := map row_magsys df_photometry;
           ph_filter := map row_ztf_filter df_photometry;
           ph_ra := map row_ra df_photometry;
           ph_dec := map row_dec df_photometry;
           ph_stream_ids := stream_ids |} in
      (if Nat.ltb 0 (length (ph_mag photometry)) then
         emit (EvAddPhotometry photometry) ;;;
         lift (add_external_photometry P photometry)
       else ret tt) ;;;
      ret (obj_id, None)
  end.

(** The [finally] block: always attempt deleting the temporary token. *)
Definition release_token (P : post_env) (token_id : Z) : M unit :=
  emit (EvDeleteToken token_id) ;;; lift (delete_token P token_id).

Definition ArchiveHandler_post (E : env) (req : request)
  : M (option response) :=
  let P := penv E in
  let data := json_body req in
  match gloria E with
  | None => ret (Some (error "Gloria connection unavailable."))
  | Some g =>
      let obj_id := pop_default data "obj_id" PNone in
      let catalog := pop_default data "catalog" PNone in
      let light_curve_ids := pop_default data "light_curve_ids" PNone in
      let group_ids := pop_default data "group_ids" PNone in
      no_groups <- (if is_none obj_id then lift (none_or_empty group_ids)
                    else ret false) ;;
      if (no_groups : bool) then
        ret (Some (error "Parameter group_ids is required if obj_id is not set"))
      else if is_none catalog then
        ret (Some (error "Missing required parameter: catalog"))
      else
        no_ids <- lift (none_or_empty light_curve_ids) ;;
        if (no_ids : bool) then
          ret (Some (error "Bad required parameter: light_curve_ids"))
        else
          lift (streams_session P) ;;;
          selector <- lift (program_id_selector (user_streams E)) ;;
          let program_ids := elements selector in
          response <- gloria_query g
            (QAggregate catalog light_curve_ids program_ids) ;;
          if match g_status response with
             | Some st => String.eqb st "error"
             | None => true
             end then
            ret (Some (Error (MsgRemote (g_message response)) 400))
          else
            light_curves <- lift (light_curves_of (g_data response)) ;;
            if Nat.eqb (length light_curves) 0 then
              ret (Some (error "No data found for requested light_curve_ids"))
            else
              let token_name := uuid4 P in
              token_id <- lift (create_token P token_name) ;;
              emit (EvCreateToken token_name token_id) ;;;
              lift (session_enter P) ;;;
              user <- lift (current_user P) ;;
              out <- try_finally
                       (post_try_body E obj_id group_ids light_curves user)
                       (release_token P token_id) ;;
              match snd out with
              | Some r => ret (Some r)
              | None => ret (Some (Success (ObjId (fst out))))
              end
  end.

(** ** Fixed-width patterns

    A regular expression that is a sequence of single-character classes:
    a literal, a digit [\d], or a sign [[+-]]. *)

Inductive char_class : Type :=
| CLit (c : ascii)
| CDigit
| CSign.

Definition is_digit (c : ascii) : bool :=
  let n := nat_of_ascii c in (Nat.leb 48 n && Nat.leb n 57)%bool.

Definition class_matches (k : char_class) (c : ascii) : bool :=
  match k with
  | CLit a => Ascii.eqb a c
  | CDigit => is_digit c
  | CSign => Ascii.eqb c "+" || Ascii.eqb c "-"
  end.

(** The pattern matches at the start of the text; what follows is returned. *)
Fixpoint match_here (p : list char_class) (s : list ascii)
  : option (list ascii) :=
  match p, s with
  | [], _ => Some s
  | _ :: _, [] => None
  | k :: p', c :: s' => if class_matches k c then match_here p' s' else None
  end.

(** [re.fullmatch]: the pattern matches the whole text. *)
Definition fullmatch (p : list char_class) (s : string) : bool :=
  match match_here p (list_ascii_of_string s) with
  | Some [] => true
  | _ => false
  end.

Fixpoint search_list (p : list char_class) (s : list ascii) : bool :=
  match match_here p s with
  | Some _ => true
  | None =>
      match s with
      | [] => false
      | _ :: s' => search_list p s'
      end
  end.

(** [re.search]: the pattern matches somewhere in the text. *)
Definition search (p : list char_class) (s : string) : bool :=
  search_list p (list_ascii_of_string s).

(** [PREFIX\d{6}\.\d{2}[+-]\d{n}\.\d{1}]. *)
Definition iau_pattern (prefix : string) (n : nat) : list char_class :=
  (map CLit (list_ascii_of_string prefix)
   ++ repeat CDigit 6 ++ [CLit "."] ++ repeat CDigit 2
   ++ [CSign] ++ repeat CDigit n ++ [CLit "."] ++ repeat CDigit 1)%list.

(** ** ArchiveCatalogsHandler.get *)

(** What [ArchiveCatalogsHandler.get] hands back: the ["data"] entry of
    the remote answer, whatever it is, or an error text. *)
Inductive catalogs_response : Type :=
| CatalogsSuccess (data : gloria_data)
| CatalogsError (msg : string).

Definition ArchiveCatalogsHandler_get (E : env) : M catalogs_response :=
  match gloria E with
  | None => ret (CatalogsError "Gloria connection unavailable.")
  | Some g =>
      info <- gloria_query g QCatalogNames ;;
      ret (CatalogsSuccess (g_data info))
  end.

(** * Specification-side definitions

    What the properties below are stated with: expected results, the
    predicates over recorded calls, sample deployments and requests, and
    the reading of floats as real numbers. *)

(** What is expected of the rows: the unflagged epochs of each record in
    turn, each with the filter code of its record. *)
Definition unflagged (e : epoch) : bool := catflags e =? 0.

Definition expected_epochs (lcs : list light_curve) : list (epoch * Z) :=
  flat_map (fun lc => map (fun e => (e, lc_filter lc))
                          (List.filter unflagged (lc_data lc))) lcs.

Definition filter_table (fid : Z) (name : string) : Prop :=
  (fid = 1 /\ name = "ztfg") \/ (fid = 2 /\ name = "ztfr")
  \/ (fid = 3 /\ name = "ztfi").

(** The double 2400000.5 of the specification, written out as
    [4800001 * 2^30 * 2^(-31)]. *)
Definition julian_offset : F64.float :=
  S754_finite false (4800001 * 2 ^ 30) (-31).

Definition row_matches (r : phot_row) (ef : epoch * Z) : Prop :=
  row_hjd r = hjd (fst ef)
  /\ row_mjd r = F64.sub (hjd (fst ef)) julian_offset
  /\ row_catflags r = 0
  /\ row_programid r = programid (fst ef)
  /\ row_ra r = ra (fst ef) /\ row_dec r = dec (fst ef)
  /\ row_mag r = to_float32 (mag (fst ef))
  /\ row_magerr r = to_float32 (magerr (fst ef))
  /\ row_fid r = snd ef
  /\ filter_table (snd ef) (row_ztf_filter r).

Definition recognized (lc : light_curve) : Prop :=
  lc_filter lc = 1 \/ lc_filter lc = 2 \/ lc_filter lc = 3.

Definition name_of (fid : Z) : string :=
  match ztf_filters fid with Some n => n | None => "" end.

Definition named_rows (df : list (epoch * Z)) : list (epoch * Z * string) :=
  map (fun ef => (fst ef, snd ef, name_of (snd ef))) df.

Definition sample_epoch (t : Z) (flag : Z) : epoch :=
  {| hjd := F64.of_frac (4916001 + 2 * t) 2; mag := F64.of_frac 185 10;
     magerr := F64.of_frac 1 10; catflags := flag; programid := 1;
     ra := f180; dec := f0 |}.

Definition sample_curves : list light_curve :=
  [ {| lc_id := 10; lc_ra := Some f180; lc_dec := Some f0; lc_filter := 1;
       lc_data := [sample_epoch 0 0; sample_epoch 1 32768; sample_epoch 2 0] |};
    {| lc_id := 11; lc_ra := Some f180; lc_dec := Some f0; lc_filter := 2;
       lc_data := [sample_epoch 3 0; sample_epoch 4 0; sample_epoch 5 0] |} ].

(** A stream that names the survey and declares program id [p]. *)
Definition declares (streams : list stream) (p : Z) : Prop :=
  exists s sel,
    In s streams
    /\ contains "ztf" (lower (stream_name s)) = true
    /\ stream_altdata s = Some (Some sel)
    /\ In p sel.

Definition sample_streams : list stream :=
  [ {| stream_name := "ZTF Public+Partnership"; stream_id := 2;
       stream_altdata := Some (Some [1; 2]) |};
    {| stream_name := "LSST"; stream_id := 9;
       stream_altdata := Some (Some [7]) |} ].

(** Every event a computation records satisfies [P]. *)
Definition emits_only {A} (P : event -> Prop) (c : M A) : Prop :=
  forall st r st',
    c st = (r, st') ->
    exists new, trace st' = trace st ++ new /\ Forall P new.

(** Every aggregation query carries the caller's accessible program ids. *)
Definition aggregate_uses_selector (E : env) (ev : event) : Prop :=
  match ev with
  | EvQuery (QAggregate _ _ ids) =>
      exists S, program_id_selector (user_streams E) = Ok S /\ ids = elements S
  | _ => True
  end.

(** The program ids of every aggregation query are the elements of [S]. *)
Definition aggregate_ids (S : gset Z) (ev : event) : Prop :=
  match ev with
  | EvQuery (QAggregate _ _ ids) => ids = elements S
  | _ => True
  end.

Fixpoint parse_digits (s : string) (acc : Z) : option Z :=
  match s with
  | EmptyString => Some acc
  | String c t =>
      if is_digit c then parse_digits t (10 * acc + Z.of_nat (nat_of_ascii c) - 48)
      else None
  end.

(** Reads plain decimal integers, rejects everything else. *)
Definition parse_decimal (s : string) : option Z :=
  match s with
  | EmptyString => None
  | _ => parse_digits s 0
  end.

Definition ok_response (d : gloria_data) : gloria_response :=
  {| g_status := Some "success"; g_message := PNone; g_data := d |}.

Definition sample_gloria (q : query) : result gloria_response :=
  match q with
  | QCatalogNames =>
      Ok (ok_response (DNames ["ZTF_sources_20210401";
                               "ZTF_source_features_DR5"; "Gaia_EDR3"]))
  | QNear _ _ _ _ catalogs _ =>
      Ok (ok_response
            (DNear (map (fun c => (c, [Hit 10 f0 f0; Hit 11 f0 f0])) catalogs)))
  | QFind _ _ =>
      Ok (ok_response
            (DDocs [[("_id", PInt 10); ("median", PFloat (F64.of_frac 185 10));
                     ("n", PFloat (F64.of_Z 25)); ("skew", PNone)]]))
  | QAggregate _ _ _ => Ok (ok_response (DLightCurves sample_curves))
  end.

Definition all_streams : list stream :=
  [ {| stream_name := "ZTF Public"; stream_id := 1;
       stream_altdata := Some (Some [1]) |};
    {| stream_name := "ZTF Public+Partnership"; stream_id := 2;
       stream_altdata := Some (Some [1; 2]) |};
    {| stream_name := "ZTF Public+Partnership+Caltech"; stream_id := 3;
       stream_altdata := Some (Some [1; 2; 3]) |} ].

Definition sample_penv : post_env :=
  {| uuid4 := "1b4e28ba-2fa1-11d2-883f-0016d3cca427";
     create_token := fun _ => Ok 7;
     delete_token := fun _ => Ok tt;
     streams_session := Ok tt;
     session_enter := Ok tt;
     current_user := Ok 42;
     select_sources := fun _ => Ok [];
     post_source := fun _ _ _ _ _ => Ok tt;
     select_ztf_instrument := Ok (Some 1);
     select_streams := Ok all_streams;
     add_external_photometry := fun _ => Ok tt |}.

Definition sample_env : env :=
  {| gloria := Some sample_gloria;
     parse_float := fun s => option_map F64.of_Z (parse_decimal s);
     parse_int := parse_decimal;
     np_mean := fun l => match l with x :: _ => x | [] => S754_nan end;
     user_streams := sample_streams;
     find_obj := fun s => Some s;
     accessible_group_ids := [1; 5];
     select_groups := fun ids => ids;
     associated_user := 42;
     penv := sample_penv |}.

Definition empty_state : state := {| trace := []; annotations := [] |}.

Definition query_request (args : list (string * string)) : request :=
  {| query_args := list_to_map args; json_body := ∅ |}.

Definition json_request (body : list (string * pyval)) : request :=
  {| query_args := ∅; json_body := list_to_map body |}.

(** The first of the four position values that is [None], in the order
    ra, dec, radius, radius_units. *)
Definition first_none (ra dec radius radius_units : pyval) : option string :=
  if is_none ra then Some "ra"
  else if is_none dec then Some "dec"
  else if is_none radius then Some "radius"
  else if is_none radius_units then Some "radius_units"
  else None.

Definition missing_msg (name : string) : string :=
  ("Missing required parameter: " ++ name)%string.

(** The state after the catalog-names query and nothing else. *)
Definition after_info (st : state) : state :=
  {| trace := trace st ++ [EvQuery QCatalogNames];
     annotations := annotations st |}.

(** The catalog service answers the catalog-names query with [names]. *)
Definition catalog_names (E : env) (names : list string) : Prop :=
  exists g info,
    gloria E = Some g /\ g QCatalogNames = Ok info /\ names_of info = Ok names.

(** The position values each handler reads from a request. *)
Definition query_position (req : request) : list pyval :=
  [get_query_argument req "ra"; get_query_argument req "dec";
   get_query_argument req "radius"; get_query_argument req "radius_units"].

Definition json_position (req : request) : option (list pyval) :=
  match json_body req !! "ra", json_body req !! "dec" with
  | Some ra, Some dec =>
      Some [ra; dec; pop_default (json_body req) "radius" (PInt 2);
            pop_default (json_body req) "radius_units" (PStr "arcsec")]
  | _, _ => None
  end.

Definition first_none_of (l : list pyval) : option string :=
  match l with
  | [ra; dec; radius; radius_units] => first_none ra dec radius radius_units
  | _ => None
  end.

Definition sample_names : list string :=
  ["ZTF_sources_20210401"; "ZTF_source_features_DR5"; "Gaia_EDR3"].

Definition validation_messages : list string :=
  [ "Missing required parameter: ra"; "Missing required parameter: dec";
    "Missing required parameter: radius";
    "Missing required parameter: radius_units";
    bad_units_msg; "Invalid (non-float) value provided.";
    "Invalid R.A. value provided: must be 0 <= R.A. [deg] < 360";
    "Invalid Decl. value provided: must be -90 <= Decl. [deg] <= 90";
    "Radius must be <= 1.0 deg" ].

Definition is_validation_failure (r : response) : bool :=
  match r with
  | Error (Msg m) _ => existsb (String.eqb m) validation_messages
  | _ => false
  end.

Definition radius_61_arcmin : request :=
  query_request [("catalog", "ZTF_sources_20210401"); ("ra", "180");
                 ("dec", "0"); ("radius", "61"); ("radius_units", "arcmin")].

(** The id of the last stream called [name], if there is one. *)
Fixpoint last_named (name : string) (streams : list stream) : option Z :=
  match streams with
  | [] => None
  | s :: rest =>
      match last_named name rest with
      | Some i => Some i
      | None => if String.eqb (stream_name s) name then Some (stream_id s)
                else None
      end
  end.

(** The stream name each program id is mapped from. *)
Definition program_stream_name (k : Z) : option string :=
  if k =? 1 then Some "ZTF Public"
  else if k =? 2 then Some "ZTF Public+Partnership"
  else if (k =? 0) || (k =? 3) then Some "ZTF Public+Partnership+Caltech"
  else None.

(** The object id the [try] block works with: the caller's, or the name
    made from the mean position. *)
Definition resolved_obj_id (E : env) (obj_id : pyval)
  (light_curves : list light_curve) : result pyval :=
  if is_none obj_id then
    match radec_to_iau_name (np_mean E (present lc_ra light_curves))
                            (np_mean E (present lc_dec light_curves)) "ZTFJ" with
    | Ok name => Ok (PStr name)
    | Raise e => Raise e
    end
  else Ok obj_id.

Definition not_add_photometry (ev : event) : Prop :=
  match ev with EvAddPhotometry _ => False | _ => True end.

Definition unmapped_epoch : epoch :=
  {| hjd := F64.of_frac 4916001 2; mag := F64.of_frac 185 10;
     magerr := F64.of_frac 1 10; catflags := 0; programid := 5;
     ra := f180; dec := f0 |}.

Definition unmapped_curves : list light_curve :=
  [ {| lc_id := 12; lc_ra := Some f180; lc_dec := Some f0; lc_filter := 3;
       lc_data := [sample_epoch 0 0; unmapped_epoch] |} ].

Definition is_delete_token (token_id : Z) (ev : event) : bool :=
  match ev with
  | EvDeleteToken t => t =? token_id
  | _ => false
  end.

Definition deletions (token_id : Z) (evs : list event) : nat :=
  length (List.filter (is_delete_token token_id) evs).

Definition not_delete_token (ev : event) : Prop :=
  match ev with EvDeleteToken _ => False | _ => True end.

(** A deployment in which the store opens the first session of a request
    and cannot open the second: the connection is lost while the handler
    waits for the catalog service. *)
Definition session_down_env : env :=
  {| gloria := Some sample_gloria;
     parse_float := parse_float sample_env;
     parse_int := parse_int sample_env;
     np_mean := np_mean sample_env;
     user_streams := sample_streams;
     find_obj := find_obj sample_env;
     accessible_group_ids := [1; 5];
     select_groups := select_groups sample_env;
     associated_user := 42;
     penv := {| uuid4 := uuid4 sample_penv;
                create_token := create_token sample_penv;
                delete_token := delete_token sample_penv;
                streams_session := Ok tt;
                session_enter := Raise (OtherError "OperationalError");
                current_user := current_user sample_penv;
                select_sources := select_sources sample_penv;
                post_source := post_source sample_penv;
                select_ztf_instrument := select_ztf_instrument sample_penv;
                select_streams := select_streams sample_penv;
                add_external_photometry := add_external_photometry sample_penv |} |}.

(** A deployment in which the store cannot open any session. *)
Definition store_down_env : env :=
  {| gloria := Some sample_gloria;
     parse_float := parse_float sample_env;
     parse_int := parse_int sample_env;
     np_mean := np_mean sample_env;
     user_streams := sample_streams;
     find_obj := find_obj sample_env;
     accessible_group_ids := [1; 5];
     select_groups := select_groups sample_env;
     associated_user := 42;
     penv := {| uuid4 := uuid4 sample_penv;
                create_token := create_token sample_penv;
                delete_token := delete_token sample_penv;
                streams_session := Raise (OtherError "OperationalError");
                session_enter := Raise (OtherError "OperationalError");
                current_user := current_user sample_penv;
                select_sources := select_sources sample_penv;
                post_source := post_source sample_penv;
                select_ztf_instrument := select_ztf_instrument sample_penv;
                select_streams := select_streams sample_penv;
                add_external_photometry := add_external_photometry sample_penv |} |}.

Definition ingest_request : request :=
  json_request [("catalog", PStr "ZTF_sources_20210401");
                ("light_curve_ids", PList [10; 11]);
                ("group_ids", PList [1])].

Definition not_create_token (ev : event) : Prop :=
  match ev with EvCreateToken _ _ => False | _ => True end.

(** No two stored annotations share object id, origin and author. *)
Fixpoint keys_unique (l : list annotation) : bool :=
  match l with
  | [] => true
  | a :: rest => negb (existsb (same_key a) rest) && keys_unique rest
  end.

(** The stored rows with the key of [a]. *)
Definition rows_with_key (a : annotation) (l : list annotation) : nat :=
  length (List.filter (same_key a) l).

Definition features_request : request :=
  json_request [("id", PStr "ZTF21aaaaaaa"); ("ra", PInt 180);
                ("dec", PInt 10); ("radius", PInt 5);
                ("radius_units", PStr "arcsec")].

Definition stored_once : state :=
  Eval vm_compute in
    snd (ScopeFeaturesHandler_post sample_env features_request empty_state).

(** The key under which the annotation of a request is stored: the
    object id and the catalog of the body, and the caller.  The data and
    the groups are no part of it. *)
Definition request_key (E : env) (req : request) : annotation :=
  {| ann_data := [];
     ann_obj_id := str_value (pop_default (json_body req) "id" PNone);
     ann_origin :=
       str_value (pop_default (json_body req) "catalog"
                              (PStr "ZTF_source_features_DR5"));
     ann_author := associated_user E;
     ann_groups := [] |}.

(** A store that holds one annotation of that object, origin and
    author, with other data and other groups. *)
Definition other_row_state : state :=
  {| trace := [];
     annotations :=
       [ {| ann_data := [("median", PInt 1)];
            ann_obj_id := "ZTF21aaaaaaa";
            ann_origin := "ZTF_source_features_DR5";
            ann_author := 42;
            ann_groups := [7] |} ] |}.

Definition in_range (ra dec : F64.float) : bool :=
  F64.leb f0 ra && F64.ltb ra f360 && F64.leb fm90 dec && F64.leb dec f90.

Definition bpow (e : Z) : R := powerRZ 2 e.

Abbreviation fexp := (SpecFloat.fexp F64.prec F64.emax).

(** [m * 2^e] as a real number. *)
Definition mval (m e : Z) : R := (IZR m * bpow e)%R.

Definition tiny : R := bpow (-1074).
Definition eps : R := bpow (-52).

(** The value of a float; zero for zeros, infinities and NaN. *)
Definition val (x : F64.float) : R :=
  match x with
  | S754_finite s m e => if s then (- mval (Z.pos m) e)%R else mval (Z.pos m) e
  | _ => 0%R
  end.

(** A zero or a finite number with the sign bit clear. *)
Definition nonneg (x : F64.float) : Prop :=
  match x with
  | S754_zero false | S754_finite false _ _ => True
  | _ => False
  end.

(** Small integers are represented exactly. *)
Definition exact_int (q : Z) : bool :=
  match F64.of_Z q with
  | S754_zero false => q =? 0
  | S754_finite false m e => (e <=? 0) && (Z.pos m =? q * 2 ^ (- e))
  | _ => false
  end.

(** A list of characters fits a fixed-width pattern. *)
Definition fits (p : list char_class) (l : list ascii) : bool :=
  match match_here p l with
  | Some [] => true
  | _ => false
  end.

Definition pat_2 : list char_class := [CDigit; CDigit].
Definition pat_5_2 : list char_class :=
  [CDigit; CDigit; CLit "."; CDigit; CDigit].
Definition pat_4_1 : list char_class := [CDigit; CDigit; CLit "."; CDigit].

(** The two halves of the name. *)
Definition hms_of (ra : F64.float) : list ascii :=
  let rah := F64.div (F64.mul ra f12) f180 in
  let ra_h := F64.floor rah in
  let ra_m := F64.floor (F64.mul (F64.sub rah ra_h) f60) in
  let ra_s := F64.mul (F64.sub (F64.mul (F64.sub rah ra_h) f60) ra_m) f60 in
  format_f false 2 0 ra_h ++ format_f false 2 0 ra_m ++ format_f false 5 2 ra_s.

Definition dms_of (dec : F64.float) : list ascii :=
  let dec_d := F64.mul (F64.floor (F64.abs dec)) (F64.sign dec) in
  let dec_m := F64.floor (F64.mul (F64.abs (F64.sub dec dec_d)) f60) in
  let dec_s :=
    F64.mul (F64.abs (F64.sub (F64.mul (F64.abs (F64.sub dec dec_d)) f60) dec_m))
            f60 in
  format_f true 3 0 dec_d ++ format_f false 2 0 dec_m ++ format_f false 4 1 dec_s.

Definition pat_hms : list char_class := pat_2 ++ pat_2 ++ pat_5_2.
Definition pat_dms : list char_class := (CSign :: pat_2) ++ pat_2 ++ pat_4_1.

(** The degrees field: the floor of the magnitude times the sign, for
    every whole number of degrees. *)
Definition degrees_ok (s : bool) (q : Z) : bool :=
  match F64.mul (F64.of_Z q) (if s then F64.of_Z (-1) else F64.of_Z 1) with
  | S754_zero s' => (q =? 0) && Bool.eqb s s'
  | S754_finite s' m e =>
      Bool.eqb s s' && (e <=? 0) && (Z.pos m =? q * 2 ^ (- e))
  | _ => false
  end.

(** ** Definitions for the properties of the remaining code paths *)

(** The remote calls of [CrossMatchHandler.get]: the catalog-names query
    and cone searches within the caps over the exposed catalogs. *)
Definition cross_match_call (ev : event) : Prop :=
  match ev with
  | EvQuery QCatalogNames => True
  | EvQuery (QNear radius units q_ra q_dec catalogs id_only) =>
      In units units_list
      /\ radius_too_large (PStr units) radius = false
      /\ in_range q_ra q_dec = true
      /\ catalogs <> []
      /\ Forall (fun c => cross_match_catalog c = true) catalogs
      /\ id_only = false
  | _ => False
  end.

(** A cone search for identifiers in one catalog whose name contains
    [family], with a radius that passed the cap check. *)
Definition id_search (family : string) (q : query) : Prop :=
  match q with
  | QNear radius units _ _ catalogs id_only =>
      In units units_list
      /\ radius_too_large (PStr units) radius = false
      /\ (exists c, catalogs = [c] /\ contains family c = true)
      /\ id_only = true
  | _ => False
  end.

(** The largest radius of a cone search, by unit. *)
Definition radius_cap (units : string) : option F64.float :=
  if String.eqb units "deg" then Some f1
  else if String.eqb units "arcmin" then Some f60
  else if String.eqb units "arcsec" then Some f3600
  else None.

(** What the cap check lets through: a radius that is at most the cap
    of its unit, or that is NaN, which compares greater than nothing. *)
Definition within_cap (units : string) (radius : F64.float) : Prop :=
  exists cap,
    radius_cap units = Some cap
    /\ (radius = S754_nan \/ F64.leb radius cap = true).

(** The remote calls of [ArchiveHandler.get]. *)
Definition light_curve_call (ev : event) : Prop :=
  match ev with
  | EvQuery QCatalogNames => True
  | EvQuery (QNear r u a d cs i) =>
      id_search "ZTF_sources" (QNear r u a d cs i) /\ within_cap u r
  | EvQuery (QAggregate (PStr c) (PList ids) _) =>
      contains "ZTF_sources" c = true /\ ids <> []
  | _ => False
  end.

(** The calls of [ScopeFeaturesHandler.post]. *)
Definition features_call (ev : event) : Prop :=
  match ev with
  | EvQuery QCatalogNames => True
  | EvQuery (QNear r u a d cs i) =>
      id_search "ZTF_source_features" (QNear r u a d cs i) /\ within_cap u r
  | EvQuery (QFind c ids) =>
      contains "ZTF_source_features" c = true /\ length ids = 1%nat
  | EvPushAll _ => True
  | _ => False
  end.

(** A computation that leaves the stored annotations as they are. *)
Definition keeps_store {A} (c : M A) : Prop :=
  forall st r st', c st = (r, st') -> annotations st' = annotations st.

(** The state after the catalog-names query and one more query. *)
Definition after_search (st : state) (q : query) : state :=
  {| trace := trace st ++ [EvQuery QCatalogNames; EvQuery q];
     annotations := annotations st |}.

(** The position tuple is neither complete nor reported as incomplete:
    some value is falsy, and either all are or none of them is [None]. *)
Definition unanswered (position_tuple : list pyval) : Prop :=
  py_all position_tuple = false
  /\ (py_any position_tuple = false \/ first_none_of position_tuple = None).

(** A request without any of the four position arguments. *)
Definition no_position (req : request) : Prop :=
  query_args req !! "ra" = None /\ query_args req !! "dec" = None
  /\ query_args req !! "radius" = None
  /\ query_args req !! "radius_units" = None.

(** A cone search answered with success and no identifier in [catalog]. *)
Definition no_match (E : env) (q : query) (catalog : string) : Prop :=
  exists g response,
    gloria E = Some g /\ g q = Ok response /\ is_success response = true
    /\ light_curve_ids_of (g_data response) catalog = Ok [].

(** The first of the keys "id", "ra", "dec" that the JSON body lacks. *)
Definition first_missing_key (req : request) : option string :=
  match json_body req !! "id" with
  | None => Some "id"
  | Some _ =>
      match json_body req !! "ra" with
      | None => Some "ra"
      | Some _ =>
          match json_body req !! "dec" with
          | None => Some "dec"
          | Some _ => None
          end
      end
  end.

(** A catalog service whose every answer carries the status "error". *)
Definition failing_gloria (q : query) : result gloria_response :=
  Ok {| g_status := Some "error"; g_message := PStr "Unauthorized";
        g_data := DNone |}.

Definition failing_env : env :=
  {| gloria := Some failing_gloria;
     parse_float := parse_float sample_env;
     parse_int := parse_int sample_env;
     np_mean := np_mean sample_env;
     user_streams := user_streams sample_env;
     find_obj := find_obj sample_env;
     accessible_group_ids := accessible_group_ids sample_env;
     select_groups := select_groups sample_env;
     associated_user := associated_user sample_env;
     penv := penv sample_env |}.

Definition dec_empty_request : request :=
  query_request [("ra", "180"); ("dec", ""); ("radius", "5");
                 ("radius_units", "arcsec")].

Definition catalog_only_request : request :=
  query_request [("catalog", "ZTF_sources_20210401")].

(** A catalog service that knows the catalogs of [sample_gloria] and
    finds no source in any cone. *)
Definition quiet_gloria (q : query) : result gloria_response :=
  match q with
  | QNear _ _ _ _ catalogs _ =>
      Ok (ok_response (DNear (map (fun c => (c, [])) catalogs)))
  | _ => sample_gloria q
  end.

Definition quiet_env : env :=
  {| gloria := Some quiet_gloria;
     parse_float := parse_float sample_env;
     parse_int := parse_int sample_env;
     np_mean := np_mean sample_env;
     user_streams := user_streams sample_env;
     find_obj := find_obj sample_env;
     accessible_group_ids := accessible_group_ids sample_env;
     select_groups := select_groups sample_env;
     associated_user := associated_user sample_env;
     penv := penv sample_env |}.

Definition cone_request : request :=
  query_request [("catalog", "ZTF_sources_20210401"); ("ra", "180");
                 ("dec", "0"); ("radius", "5"); ("radius_units", "arcsec")].

(** The feature entries that are not null. *)
Definition non_null (features : list (string * pyval))
  : list (string * pyval) :=
  List.filter (fun kv => negb (isnull (snd kv))) features.

Definition is_integer_key (key : string) : bool :=
  existsb (String.eqb key) integer_keys.

(** An annotation entry as the loop leaves it: not null, an integer
    under an integer key, the feature's own value under any other. *)
Definition entry_ok (features : list (string * pyval)) (kv : string * pyval)
  : Prop :=
  isnull (snd kv) = false
  /\ (if is_integer_key (fst kv) then exists z, snd kv = PInt z
      else In kv features).


(** The three answers of [ArchiveHandler.post] to a body that lacks a
    required field. *)
Definition field_messages : list string :=
  [ "Parameter group_ids is required if obj_id is not set";
    "Missing required parameter: catalog";
    "Bad required parameter: light_curve_ids" ].

Definition is_field_error (r : response) : bool :=
  match r with
  | Error (Msg m) _ => existsb (String.eqb m) field_messages
  | _ => false
  end.

(** The answers given when the aggregation fails or finds nothing. *)
Definition is_no_data (r : response) : bool :=
  match r with
  | Error (MsgRemote _) _ => true
  | Error (Msg m) _ =>
      String.eqb m "No data found for requested light_curve_ids"
  | _ => false
  end.

(** The aggregation query that [ArchiveHandler.post] builds from a
    request. *)
Definition post_query (E : env) (req : request) (q : query) : Prop :=
  exists S,
    program_id_selector (user_streams E) = Ok S
    /\ q = QAggregate (pop_default (json_body req) "catalog" PNone)
                      (pop_default (json_body req) "light_curve_ids" PNone)
                      (elements S).

Definition sample_no_catalog : request :=
  json_request [("obj_id", PStr "ZTF21aaaaaaa");
                ("light_curve_ids", PList [10; 11])].

(** A row as [make_photometry] completes it. *)
Definition row_complete (r : phot_row) : Prop :=
  row_magsys r = "ab" /\ row_zp r = zero_point
  /\ ztf_filters (row_fid r) = Some (row_ztf_filter r)
  /\ row_mjd r = F64.sub (row_hjd r) hjd_offset.

(** A photometry payload whose columns all have the same, positive
    length and carry the constants of [make_photometry]. *)
Definition well_formed_batch (p : photometry) : Prop :=
  let n := length (ph_mag p) in
  (0 < n)%nat
  /\ length (ph_mjd p) = n /\ length (ph_magerr p) = n
  /\ length (ph_limiting_mag p) = n /\ length (ph_magsys p) = n
  /\ length (ph_filter p) = n /\ length (ph_ra p) = n
  /\ length (ph_dec p) = n /\ length (ph_stream_ids p) = n
  /\ Forall (fun s => s = "ab") (ph_magsys p)
  /\ Forall (fun z => z = zero_point) (ph_limiting_mag p)
  /\ Forall (fun f => In f ["ztfg"; "ztfr"; "ztfi"]) (ph_filter p).

Definition ingest_call (ev : event) : Prop :=
  match ev with
  | EvAddPhotometry p => well_formed_batch p
  | _ => True
  end.

(** What happens between minting the token and deleting it. *)
Definition ingest_step (ev : event) : Prop :=
  match ev with
  | EvLog _ | EvPostSource _ _ _ _ | EvAddPhotometry _ => True
  | _ => False
  end.

(** The calls of a request to [ArchiveHandler.post]: nothing, the
    aggregation query alone, or the query, the token, the ingestion and
    the deletion of that token. *)
Definition post_calls (new : list event) : Prop :=
  new = []
  \/ (exists q, new = [EvQuery q])
  \/ (exists q name token_id body,
        new = [EvQuery q; EvCreateToken name token_id] ++ body
              ++ [EvDeleteToken token_id]
        /\ Forall ingest_step body).

(** The mean position of the light curves is made of well-formed
    doubles, and its right ascension is not the negative zero. *)
Definition well_formed_mean (E : env) (lcs : list light_curve) : Prop :=
  F64.valid (np_mean E (present lc_ra lcs)) = true
  /\ F64.valid (np_mean E (present lc_dec lcs)) = true
  /\ np_mean E (present lc_ra lcs) <> S754_zero true.

(** Every list of light curves the catalog service hands back has a
    well-formed mean position. *)
Definition well_formed_means (E : env) : Prop :=
  forall g q response lcs,
    gloria E = Some g -> g q = Ok response ->
    light_curves_of (g_data response) = Ok lcs ->
    well_formed_mean E lcs.

(** The records that contribute a frame: those with a non-empty data
    array. *)
Definition with_data (lcs : list light_curve) : list light_curve :=
  List.filter (fun lc => negb (Nat.eqb (length (lc_data lc)) 0)) lcs.

(** An exception that tells the empty sequence apart: [make_photometry]
    raises it on no other input. *)
Definition signals_empty_input (e : exn) : Prop :=
  forall lcs drop_flagged, make_photometry lcs drop_flagged = Raise e -> lcs = [].

(** A record that has no epochs. *)
Definition no_epochs_curve : light_curve :=
  {| lc_id := 10; lc_ra := Some f180; lc_dec := Some f0; lc_filter := 1;
     lc_data := [] |}.

(** [lc] is the first record of [lcs] whose filter code is not in the
    table. *)
Definition first_unrecognized (lcs : list light_curve) (lc : light_curve)
  : Prop :=
  exists before after,
    lcs = before ++ lc :: after
    /\ Forall recognized before /\ ~ recognized lc.

(** How a call of [make_photometry] on [lcs] ends, for records whose
    epochs carry all their fields. *)
Definition photometry_outcome (lcs : list light_curve)
  (r : result (list phot_row)) : Prop :=
  match r with
  | Ok _ => with_data lcs <> [] /\ Forall recognized (with_data lcs)
  | Raise (ValueError _) => with_data lcs = []
  | Raise (KeyError key) =>
      exists lc,
        first_unrecognized (with_data lcs) lc
        /\ key = string_of_Z (lc_filter lc)
  | Raise _ => False
  end.

(** What a row keeps of its epoch unchanged, with the filter code. *)
Definition row_key (r : phot_row)
  : F64.float * Z * Z * F64.float * F64.float * Z :=
  (row_hjd r, row_catflags r, row_programid r, row_ra r, row_dec r,
   row_fid r).

Definition epoch_key (ef : epoch * Z)
  : F64.float * Z * Z * F64.float * F64.float * Z :=
  (hjd (fst ef), catflags (fst ef), programid (fst ef), ra (fst ef),
   dec (fst ef), snd ef).

(** Every epoch of every record, in record order, with the filter code
    of its record. *)
Definition all_epochs (lcs : list light_curve) : list (epoch * Z) :=
  flat_map tagged lcs.

(** The streams that count for the program ids: those whose name
    contains "ztf" in any letter case. *)
Definition survey_streams (streams : list stream) : list stream :=
  List.filter (fun s => contains "ztf" (lower (stream_name s))) streams.

Definition partnership_stream : stream :=
  {| stream_name := "ZTF Public+Partnership"; stream_id := 2;
     stream_altdata := Some (Some [1; 2]) |}.

Definition caltech_stream : stream :=
  {| stream_name := "ztf public+partnership+caltech"; stream_id := 3;
     stream_altdata := Some (Some [1; 2; 3]) |}.

Definition other_stream : stream :=
  {| stream_name := "LSST"; stream_id := 9; stream_altdata := None |}.

(** The sign that opens the declination half of a name: a minus for a
    declination below zero, a plus otherwise (also for both zeros). *)
Definition sign_char (dec : F64.float) : ascii :=
  match dec with
  | S754_finite true _ _ => "-"%char
  | _ => "+"%char
  end.

(** How the derivation of the program ids ends: with a set when every
    survey stream has an [altdata], with the [AttributeError] of
    [None.get] when one has not. *)
Definition selector_outcome (streams : list stream) (r : result (gset Z))
  : Prop :=
  match r with
  | Ok _ =>
      Forall (fun s => stream_altdata s <> None) (survey_streams streams)
  | Raise e =>
      e = OtherError "AttributeError"
      /\ Exists (fun s => stream_altdata s = None) (survey_streams streams)
  end.

(** A source is posted only under an id that was looked up and not
    found, and with the groups of the request. *)
Definition new_source_call (E : env) (req : request) (ev : event) : Prop :=
  match ev with
  | EvPostSource obj_id _ _ group_ids =>
      select_sources (penv E) obj_id = Ok []
      /\ group_ids = pop_default (json_body req) "group_ids" PNone
  | _ => True
  end.

(** * Properties *)

(** ** make_photometry *)

Example f64_one : F64.of_Z 1 = S754_finite false 4503599627370496 (-52).
Proof. vm_compute. reflexivity. Qed.

Example f64_floor_neg : F64.floor (F64.of_frac (-5) 2) = F64.of_Z (-3).
Proof. vm_compute. reflexivity. Qed.

Example f64_floor_small : F64.floor (F64.of_frac 1 3) = S754_zero false.
Proof. vm_compute. reflexivity. Qed.

(** The offset is the binary64 number 2400000.5, represented exactly. *)
Example hjd_offset_value :
  hjd_offset = S754_finite false (4800001 * 2 ^ 30) (-31)
  /\ F64.valid hjd_offset = true.
Proof. vm_compute. split; reflexivity. Qed.

Lemma apply_ztf_filters_named df :
  Forall (fun ef : epoch * Z => ztf_filters (snd ef) <> None) df ->
  apply_ztf_filters df = Ok (named_rows df).
Proof.
  induction 1 as [|[e fid] df Hfid _ IH]; simpl; [reflexivity|].
  unfold name_of. simpl in Hfid.
  destruct (ztf_filters fid) as [n|]; [|congruence].
  rewrite IH. reflexivity.
Qed.

Lemma recognized_table fid :
  fid = 1 \/ fid = 2 \/ fid = 3 ->
  ztf_filters fid <> None /\ filter_table fid (name_of fid).
Proof.
  unfold filter_table, name_of.
  intros [-> | [-> | ->]]; simpl; split; try discriminate; tauto.
Qed.

Lemma nonempty_records_kept lcs :
  Forall (fun lc => lc_data lc <> []) lcs ->
  List.filter (fun lc => negb (Nat.eqb (length (lc_data lc)) 0)) lcs = lcs.
Proof.
  induction 1 as [|lc lcs Hne _ IH]; simpl; [reflexivity|].
  destruct (lc_data lc); [congruence|]. simpl. now rewrite IH.
Qed.

Lemma kept_rows_match (lc : light_curve) (es : list epoch) :
  recognized lc ->
  Forall2 row_matches
    (List.filter (fun r => row_catflags r =? 0)
       (map finish_row (named_rows (map (fun e => (e, lc_filter lc)) es))))
    (map (fun e => (e, lc_filter lc)) (List.filter unflagged es)).
Proof.
  intros Hrec. induction es as [|e es IH]; simpl; [constructor|].
  unfold unflagged at 1. destruct (catflags e =? 0) eqn:Hc; simpl; [|exact IH].
  constructor; [|exact IH].
  apply Z.eqb_eq in Hc.
  unfold row_matches; simpl.
  repeat split; try reflexivity; try assumption.
  now apply recognized_table.
Qed.

Lemma all_rows_match lcs :
  Forall recognized lcs ->
  Forall2 row_matches
    (List.filter (fun r => row_catflags r =? 0)
       (map finish_row (named_rows (concat (map tagged lcs)))))
    (expected_epochs lcs).
Proof.
  induction 1 as [|lc lcs Hrec _ IH]; simpl; [constructor|].
  unfold named_rows in *.
  rewrite !map_app, List.filter_app.
  apply Forall2_app; [|exact IH].
  apply (kept_rows_match lc (lc_data lc) Hrec).
Qed.

Lemma tagged_recognized lcs :
  Forall recognized lcs ->
  Forall (fun ef : epoch * Z => ztf_filters (snd ef) <> None)
         (concat (map tagged lcs)).
Proof.
  induction 1 as [|lc lcs Hrec _ IH]; simpl; [constructor|].
  apply Forall_app; split; [|exact IH].
  unfold tagged. apply Forall_map, Forall_forall. intros e _. simpl.
  now apply recognized_table.
Qed.

Lemma julian_offset_value : (val julian_offset = 4800001 / 2)%R.
Proof.
  unfold julian_offset, val, mval, bpow.
  let p := eval vm_compute in (4800001 * 2 ^ 30)%positive in
  change (4800001 * 2 ^ 30)%positive with p.
  simpl powerRZ. lra.
Qed.

(** C4: on a non-empty list of records with recognized filter codes and
    non-empty data arrays, [make_photometry] with [drop_flagged=True]
    returns exactly the epochs whose [catflags] is 0, in record order and
    epoch order and without deduplication; each row has the filter name
    of the fixed table and [mjd = hjd - 2400000.5], the binary64
    difference of its [hjd] and the double whose value is 2400000.5
    exactly. *)
Theorem make_photometry_drop_flagged (lcs : list light_curve) :
  lcs <> [] ->
  Forall (fun lc => recognized lc /\ lc_data lc <> []) lcs ->
  (val julian_offset = 4800001 / 2)%R
  /\ exists rows,
       make_photometry lcs true = Ok rows
       /\ Forall2 row_matches rows (expected_epochs lcs).
Proof.
  intros Hne Hall. split; [exact julian_offset_value|].
  apply Forall_and_inv in Hall as [Hrec Hdata].
  unfold make_photometry.
  rewrite (nonempty_records_kept lcs Hdata).
  destruct lcs as [|lc lcs']; [congruence|].
  remember (lc :: lcs') as lcs eqn:Hl.
  assert (Hmap : map tagged lcs <> []) by (subst; simpl; discriminate).
  destruct (map tagged lcs) as [|d ds] eqn:Hd; [congruence|].
  rewrite <- Hd.
  rewrite (apply_ztf_filters_named _ (tagged_recognized lcs Hrec)).
  eexists; split; [reflexivity|].
  now apply all_rows_match.
Qed.

Lemma make_photometry_drop_flagged_witness :
  (val julian_offset = 4800001 / 2)%R
  /\ exists rows,
       make_photometry sample_curves true = Ok rows
       /\ Forall2 row_matches rows (expected_epochs sample_curves).
Proof.
  apply make_photometry_drop_flagged.
  - discriminate.
  - repeat constructor; simpl; try discriminate; unfold recognized; simpl; lia.
Defined.

(** The end-to-end scenario of the specification: two records of three
    epochs, one of them flagged, give five rows. *)
Example make_photometry_five_rows :
  match make_photometry sample_curves true with
  | Ok rows => length rows = 5%nat
  | Raise _ => False
  end.
Proof. vm_compute. reflexivity. Qed.

(** C9 as stated fails: [make_photometry] has no check of its input, and
    what an empty sequence raises is the [ValueError] of concatenating no
    frames, the very exception a non-empty sequence of records without
    epochs raises; no exception of [make_photometry] tells the empty
    sequence apart. *)
Lemma empty_input_not_distinguished :
  make_photometry [no_epochs_curve] false = make_photometry [] false
  /\ ~ (exists e,
          make_photometry [] false = Raise e /\ signals_empty_input e).
Proof.
  split; [reflexivity|].
  intros (e & He & Hsig).
  specialize (Hsig [no_epochs_curve] false).
  rewrite <- He in Hsig. discriminate (Hsig eq_refl).
Qed.

Lemma apply_ztf_filters_raise df : forall e,
  apply_ztf_filters df = Raise e -> exists key, e = KeyError key.
Proof.
  induction df as [|[ep fid] rest IH]; simpl; intros e H; [discriminate|].
  destruct (ztf_filters fid); [|inversion H; eauto].
  destruct (apply_ztf_filters rest) as [rows|e'] eqn:Hr; [discriminate|].
  inversion H; subst. now apply IH.
Qed.

(** C9 (amended): on an empty sequence of records, and on any sequence
    in which no record has epochs, [make_photometry] fails with the
    [ValueError] of concatenating no frames, whatever [drop_flagged] is;
    it raises that exception in these cases only. *)
Theorem make_photometry_no_data (lcs : list light_curve)
  (drop_flagged : bool) :
  (make_photometry lcs drop_flagged
   = Raise (ValueError "No objects to concatenate")
   <-> with_data lcs = [])
  /\ make_photometry [] drop_flagged
     = Raise (ValueError "No objects to concatenate").
Proof.
  split; [|reflexivity].
  unfold make_photometry. fold (with_data lcs).
  destruct (with_data lcs) as [|lc kept]; [split; reflexivity|].
  cbn [map]. split; [|discriminate].
  destruct (apply_ztf_filters (concat (tagged lc :: map tagged kept)))
    as [named|e] eqn:Hn.
  - destruct drop_flagged; discriminate.
  - intros H. apply apply_ztf_filters_raise in Hn as [key ->].
    discriminate H.
Qed.

Lemma make_photometry_no_data_witness :
  make_photometry [no_epochs_curve; no_epochs_curve] true
  = Raise (ValueError "No objects to concatenate").
Proof.
  apply (proj1 (make_photometry_no_data [no_epochs_curve; no_epochs_curve]
                  true)).
  reflexivity.
Defined.

(** ** Accessible program ids *)

Lemma update_selector_spec streams : forall (acc S : gset Z),
  update_selector streams acc = Ok S ->
  acc ⊆ S /\ forall p, p ∈ S -> p ∈ acc \/ declares streams p.
Proof.
  induction streams as [|s rest IH]; simpl; intros acc S H.
  - inversion H; subst. split; [reflexivity|]. intros p Hp. now left.
  - destruct (contains "ztf" (lower (stream_name s))) eqn:Hz.
    + unfold selector_of in H.
      destruct (stream_altdata s) as [[sel|]|] eqn:Ha; try discriminate.
      * apply IH in H as [Hsub Hin]. split.
        { etrans; [apply union_subseteq_l | exact Hsub]. }
        intros p Hp. destruct (Hin p Hp) as [Hacc | (s' & sel' & Hs & Hd)].
        -- apply elem_of_union in Hacc as [Hacc | Hsel]; [now left|].
           right. exists s, sel. rewrite elem_of_list_to_set in Hsel.
           apply list_elem_of_In in Hsel. repeat split; auto. now left.
        -- right. exists s', sel'. split; [now right | exact Hd].
      * apply IH in H as [Hsub Hin]. split.
        { etrans; [apply union_subseteq_l | exact Hsub]. }
        intros p Hp. destruct (Hin p Hp) as [Hacc | (s' & sel' & Hs & Hd)].
        -- left. apply elem_of_union in Hacc as [Hacc | Hnil]; [exact Hacc|].
           rewrite elem_of_list_to_set in Hnil. inversion Hnil.
        -- right. exists s', sel'. split; [now right | exact Hd].
    + apply IH in H as [Hsub Hin]. split; [exact Hsub|].
      intros p Hp. destruct (Hin p Hp) as [Hacc | (s' & sel' & Hs & Hd)].
      * now left.
      * right. exists s', sel'. split; [now right | exact Hd].
Qed.

(** The loop fails only on a survey stream whose [altdata] is null. *)
Lemma update_selector_total streams : forall acc : gset Z,
  Forall (fun s => contains "ztf" (lower (stream_name s)) = true ->
                   stream_altdata s <> None) streams ->
  exists S, update_selector streams acc = Ok S.
Proof.
  induction streams as [|s rest IH]; simpl; intros acc H.
  - eauto.
  - inversion H as [|? ? Hs Hrest]; subst.
    destruct (contains "ztf" (lower (stream_name s))); [|now apply IH].
    unfold selector_of.
    destruct (stream_altdata s) as [[sel|]|]; [now apply IH | now apply IH |].
    now destruct Hs.
Qed.

Lemma program_id_selector_invariant (streams : list stream) (S : gset Z) :
  program_id_selector streams = Ok S ->
  1 ∈ S /\ forall p, p ∈ S -> p <> 1 -> declares streams p.
Proof.
  intros H. apply update_selector_spec in H as [Hsub Hin].
  split; [apply Hsub; now apply elem_of_singleton|].
  intros p Hp Hne. destruct (Hin p Hp) as [H1 | Hd]; [|exact Hd].
  apply elem_of_singleton in H1. contradiction.
Qed.

(** ** Reasoning about the recorded calls *)

Section EmitsOnly.
Context (P : event -> Prop).

Lemma emits_ret {A} (a : A) : emits_only P (ret a).
Proof.
  intros st r st' H. inversion H; subst. exists []. now rewrite app_nil_r.
Qed.

Lemma emits_raise {A} (e : exn) : emits_only P (@raise A e).
Proof.
  intros st r st' H. inversion H; subst. exists []. now rewrite app_nil_r.
Qed.

Lemma emits_lift {A} (x : result A) : emits_only P (lift x).
Proof.
  intros st r st' H. inversion H; subst. exists []. now rewrite app_nil_r.
Qed.

Lemma emits_emit (ev : event) : P ev -> emits_only P (emit ev).
Proof.
  intros Hev st r st' H. inversion H; subst. simpl. exists [ev].
  split; [reflexivity | now constructor].
Qed.

Lemma emits_bind {A B} (c : M A) (k : A -> M B) :
  emits_only P c -> (forall a, emits_only P (k a)) -> emits_only P (bind c k).
Proof.
  intros Hc Hk st r st' H. unfold bind in H.
  destruct (c st) as [[a|e] st1] eqn:Hcst.
  - destruct (Hc _ _ _ Hcst) as (n1 & E1 & F1).
    destruct (Hk a _ _ _ H) as (n2 & E2 & F2).
    exists (n1 ++ n2). rewrite E2, E1, <- app_assoc. split; [reflexivity|].
    apply Forall_app; auto.
  - inversion H; subst. eauto.
Qed.

Lemma emits_try_finally {A} (body : M A) (cleanup : M unit) :
  emits_only P body -> emits_only P cleanup ->
  emits_only P (try_finally body cleanup).
Proof.
  intros Hb Hc st r st' H. unfold try_finally in H.
  destruct (body st) as [rb st1] eqn:Hbst.
  destruct (cleanup st1) as [[u|e] st2] eqn:Hcst; inversion H; subst;
    destruct (Hb _ _ _ Hbst) as (n1 & E1 & F1);
    destruct (Hc _ _ _ Hcst) as (n2 & E2 & F2);
    exists (n1 ++ n2); rewrite E2, E1, <- app_assoc;
    (split; [reflexivity | apply Forall_app; auto]).
Qed.

Lemma emits_except_integrity {A} (body handler : M A) :
  emits_only P body -> emits_only P handler ->
  emits_only P (except_integrity body handler).
Proof.
  intros Hb Hh st r st' H. unfold except_integrity in H.
  destruct (body st) as [rb st1] eqn:Hbst.
  destruct (Hb _ _ _ Hbst) as (n1 & E1 & F1).
  destruct rb as [a|e].
  - inversion H; subst. eauto.
  - destruct e; try (inversion H; subst; eauto; fail).
    destruct (Hh _ _ _ H) as (n2 & E2 & F2).
    exists (n1 ++ n2). rewrite E2, E1, <- app_assoc.
    split; [reflexivity | apply Forall_app; auto].
Qed.

Lemma emits_add_all_commit (new : list annotation) :
  emits_only P (add_all_commit new).
Proof.
  intros st r st' H. unfold add_all_commit in H.
  destruct (existsb _ _); inversion H; subst; simpl;
    exists []; now rewrite app_nil_r.
Qed.

Lemma emits_gloria_query g q :
  P (EvQuery q) -> emits_only P (gloria_query g q).
Proof.
  intros Hq. unfold gloria_query. apply emits_bind.
  - now apply emits_emit.
  - intros _. apply emits_lift.
Qed.

End EmitsOnly.

(** Steps through a handler: one combinator lemma per construct, a case
    split at every branch. *)
Ltac emits_step :=
  first
    [ apply emits_ret | apply emits_raise | apply emits_lift
    | apply emits_add_all_commit
    | apply emits_bind; [| intros ?]
    | apply emits_try_finally
    | apply emits_except_integrity
    | apply emits_gloria_query
    | apply emits_emit
    | match goal with
      | |- emits_only _ (match ?x with _ => _ end) => destruct x eqn:?
      | |- emits_only _ (if ?b then _ else _) => destruct b eqn:?
      | |- emits_only _ (let '(_, _) := ?x in _) => destruct x eqn:?
      end ].

Lemma emits_bind_lift {A B} (P : event -> Prop) (x : result A) (k : A -> M B) :
  (forall a, x = Ok a -> emits_only P (k a)) ->
  emits_only P (bind (lift x) k).
Proof.
  intros Hk st r st' H. unfold bind, lift in H.
  destruct x as [a|e].
  - exact (Hk a eq_refl _ _ _ H).
  - inversion H; subst. exists []. now rewrite app_nil_r.
Qed.

Ltac emits_auto :=
  repeat first [ apply emits_bind_lift; intros ? ? | emits_step ].

Lemma ArchiveHandler_get_selector E req :
  emits_only (aggregate_uses_selector E) (ArchiveHandler_get E req).
Proof.
  unfold ArchiveHandler_get. emits_auto; simpl; eauto.
Qed.

Lemma post_try_body_no_query E obj_id group_ids lcs user :
  emits_only (fun ev => match ev with EvQuery _ => False | _ => True end)
             (post_try_body E obj_id group_ids lcs user).
Proof.
  unfold post_try_body. emits_auto; simpl; eauto.
Qed.

Lemma emits_weaken {A} (P Q : event -> Prop) (c : M A) :
  (forall ev, P ev -> Q ev) -> emits_only P c -> emits_only Q c.
Proof.
  intros HPQ Hc st r st' H. destruct (Hc _ _ _ H) as (new & E1 & F).
  exists new. split; [exact E1|]. eapply Forall_impl; eauto.
Qed.

Lemma ArchiveHandler_post_selector E req :
  emits_only (aggregate_uses_selector E) (ArchiveHandler_post E req).
Proof.
  unfold ArchiveHandler_post, release_token. emits_auto; simpl; eauto.
Qed.

(** C2: the derived set of accessible program ids contains the public
    program id 1, and any other id in it is declared in the selector of
    one of the caller's streams whose lower-cased name contains "ztf";
    this is the set whose elements [ArchiveHandler.get] and
    [ArchiveHandler.post] put into every aggregation query they send. *)
Theorem accessible_programs_invariant (E : env) (S : gset Z) :
  program_id_selector (user_streams E) = Ok S ->
  (1 ∈ S /\ forall p, p ∈ S -> p <> 1 -> declares (user_streams E) p)
  /\ (forall req, emits_only (aggregate_ids S) (ArchiveHandler_get E req))
  /\ (forall req, emits_only (aggregate_ids S) (ArchiveHandler_post E req)).
Proof.
  intros HS.
  assert (Hw : forall ev, aggregate_uses_selector E ev -> aggregate_ids S ev).
  { intros [[| | |c ids pids]| | | | | |]; simpl; try tauto.
    intros (S' & HS' & ->). congruence. }
  split; [now apply program_id_selector_invariant|].
  split; intros req.
  - eapply emits_weaken; [exact Hw | apply ArchiveHandler_get_selector].
  - eapply emits_weaken; [exact Hw | apply ArchiveHandler_post_selector].
Qed.

(** ** Examples on a concrete deployment *)

Lemma accessible_programs_invariant_witness :
  (1 ∈ ({[ 1; 2 ]} : gset Z)
   /\ forall p, p ∈ ({[ 1; 2 ]} : gset Z) -> p <> 1 ->
        declares (user_streams sample_env) p)
  /\ (forall req,
        emits_only (aggregate_ids {[ 1; 2 ]}) (ArchiveHandler_get sample_env req))
  /\ (forall req,
        emits_only (aggregate_ids {[ 1; 2 ]}) (ArchiveHandler_post sample_env req)).
Proof.
  apply (accessible_programs_invariant sample_env).
  vm_compute. reflexivity.
Defined.

Example cross_match_sample :
  CrossMatchHandler_get sample_env
    (query_request [("ra", "180"); ("dec", "0"); ("radius", "5");
                    ("radius_units", "arcsec")]) empty_state
  = (Ok (Some (Success (Matches
        [("Gaia_EDR3", [("10", f180, f0); ("11", f180, f0)])]))),
     {| trace := [EvQuery QCatalogNames;
                  EvQuery (QNear (F64.of_Z 5) "arcsec" f180 f0 ["Gaia_EDR3"] false)];
        annotations := [] |}).
Proof. vm_compute. reflexivity. Qed.

(** ** Position arguments *)

(** C10: there are position inputs with all four fields present, none of
    them [None] and one of them falsy (an empty query value, or [dec = 0]
    as a JSON number) on which a position handler takes neither the
    missing-field branch nor the search branch: it issues no cone search
    and returns neither a success nor an error. *)
Theorem falsy_position_no_response :
  exists (q : request) (j : request),
    (forall name, In name ["ra"; "dec"; "radius"; "radius_units"] ->
       is_none (get_query_argument q name) = false)
    /\ truthy (get_query_argument q "dec") = false
    /\ CrossMatchHandler_get sample_env q empty_state
       = (Ok None, {| trace := [EvQuery QCatalogNames]; annotations := [] |})
    /\ ArchiveHandler_get sample_env q empty_state
       = (Ok None, {| trace := [EvQuery QCatalogNames]; annotations := [] |})
    /\ (forall name, In name ["ra"; "dec"; "radius"; "radius_units"] ->
          exists v, json_body j !! name = Some v /\ is_none v = false)
    /\ json_body j !! "dec" = Some (PInt 0)
    /\ ScopeFeaturesHandler_post sample_env j empty_state
       = (Ok None, {| trace := [EvQuery QCatalogNames]; annotations := [] |}).
Proof.
  exists (query_request [("catalog", "ZTF_sources_20210401"); ("ra", "180");
                         ("dec", ""); ("radius", "5");
                         ("radius_units", "arcsec")]).
  exists (json_request [("id", PStr "ZTF21aaaaaaa"); ("ra", PInt 180);
                        ("dec", PInt 0); ("radius", PInt 5);
                        ("radius_units", PStr "arcsec")]).
  split; [|split; [|split; [|split; [|split; [|split]]]]].
  - intros name [<-|[<-|[<-|[<-|[]]]]]; vm_compute; reflexivity.
  - vm_compute; reflexivity.
  - vm_compute; reflexivity.
  - vm_compute; reflexivity.
  - intros name [<-|[<-|[<-|[<-|[]]]]]; eexists; (split; [vm_compute; reflexivity|]);
      reflexivity.
  - vm_compute; reflexivity.
  - vm_compute; reflexivity.
Qed.

Lemma none_is_falsy v : is_none v = true -> truthy v = false.
Proof. destruct v; simpl; congruence. Qed.

Lemma missing_parameter_first_none ra dec radius radius_units name :
  first_none ra dec radius radius_units = Some name ->
  py_any [ra; dec; radius; radius_units] = true ->
  missing_parameter ra dec radius radius_units = Some (error (missing_msg name)).
Proof.
  unfold first_none, missing_parameter. intros Hn Hany. rewrite Hany.
  assert (Hall : py_all [ra; dec; radius; radius_units] = false).
  { unfold py_all. simpl.
    destruct (is_none ra) eqn:H1; [now rewrite (none_is_falsy _ H1)|].
    destruct (is_none dec) eqn:H2;
      [rewrite (none_is_falsy _ H2); now rewrite andb_false_r|].
    destruct (is_none radius) eqn:H3;
      [rewrite (none_is_falsy _ H3); now rewrite !andb_false_r|].
    destruct (is_none radius_units) eqn:H4; [|discriminate].
    rewrite (none_is_falsy _ H4). now rewrite !andb_false_r. }
  rewrite Hall. simpl.
  destruct (is_none ra); [now inversion Hn|].
  destruct (is_none dec); [now inversion Hn|].
  destruct (is_none radius); [now inversion Hn|].
  destruct (is_none radius_units); [now inversion Hn | discriminate].
Qed.

Lemma CrossMatchHandler_get_missing E req st names name :
  catalog_names E names ->
  List.filter cross_match_catalog names <> [] ->
  first_none (get_query_argument req "ra") (get_query_argument req "dec")
             (get_query_argument req "radius")
             (get_query_argument req "radius_units") = Some name ->
  py_any [get_query_argument req "ra"; get_query_argument req "dec";
          get_query_argument req "radius";
          get_query_argument req "radius_units"] = true ->
  CrossMatchHandler_get E req st
  = (Ok (Some (error (missing_msg name))), after_info st).
Proof.
  intros (g & info & Hg & Hinfo & Hnames) Hcat Hfirst Hany.
  unfold CrossMatchHandler_get. rewrite Hg.
  unfold bind, gloria_query, emit, lift, bind. rewrite Hinfo, Hnames.
  destruct (List.filter cross_match_catalog names); [congruence|]. simpl length.
  cbv beta iota. change (Nat.eqb (S (length l)) 0) with false. cbv iota.
  rewrite (missing_parameter_first_none _ _ _ _ _ Hfirst Hany).
  reflexivity.
Qed.

Lemma ArchiveHandler_get_missing E req st names S catalog name :
  catalog_names E names ->
  program_id_selector (user_streams E) = Ok S ->
  query_args req !! "catalog" = Some catalog ->
  existsb (String.eqb catalog) (List.filter (contains "ZTF_sources") names)
  = true ->
  first_none (get_query_argument req "ra") (get_query_argument req "dec")
             (get_query_argument req "radius")
             (get_query_argument req "radius_units") = Some name ->
  py_any [get_query_argument req "ra"; get_query_argument req "dec";
          get_query_argument req "radius";
          get_query_argument req "radius_units"] = true ->
  ArchiveHandler_get E req st
  = (Ok (Some (error (missing_msg name))), after_info st).
Proof.
  intros (g & info & Hg & Hinfo & Hnames) Hsel Hc Havail Hfirst Hany.
  unfold ArchiveHandler_get. rewrite Hg.
  unfold bind, gloria_query, emit, lift, bind. rewrite Hinfo, Hnames, Hsel, Hc.
  rewrite Havail. cbv beta iota. simpl negb. cbv iota.
  rewrite (missing_parameter_first_none _ _ _ _ _ Hfirst Hany).
  reflexivity.
Qed.

Lemma ScopeFeaturesHandler_post_missing E req st names obj_id ra dec name :
  catalog_names E names ->
  json_body req !! "id" = Some obj_id ->
  json_body req !! "ra" = Some ra ->
  json_body req !! "dec" = Some dec ->
  in_strings (pop_default (json_body req) "catalog" (PStr "ZTF_source_features_DR5"))
             (List.filter (contains "ZTF_source_features") names) = true ->
  first_none ra dec (pop_default (json_body req) "radius" (PInt 2))
             (pop_default (json_body req) "radius_units" (PStr "arcsec"))
  = Some name ->
  py_any [ra; dec; pop_default (json_body req) "radius" (PInt 2);
          pop_default (json_body req) "radius_units" (PStr "arcsec")] = true ->
  ScopeFeaturesHandler_post E req st
  = (Ok (Some (error (missing_msg name))), after_info st).
Proof.
  intros (g & info & Hg & Hinfo & Hnames) Hid Hra Hdec Havail Hfirst Hany.
  unfold ScopeFeaturesHandler_post. rewrite Hg.
  unfold bind, gloria_query, emit, lift, bind, pop, f2_default.
  rewrite Hinfo, Hnames, Hid, Hra, Hdec, Havail.
  cbv beta iota. simpl negb. cbv iota.
  rewrite (missing_parameter_first_none _ _ _ _ _ Hfirst Hany).
  reflexivity.
Qed.

(** C7 (amended): once the catalog checks have passed, a position tuple
    with a [None] among ra, dec, radius, radius_units and at least one
    truthy value is answered, by each of the three position handlers, with
    the error naming the first [None] field in that order, after the
    catalog-names query and no other call; in [ScopeFeaturesHandler.post]
    an omitted radius or radius_units counts as its default (2, "arcsec"). *)
Theorem missing_position_field (E : env) (names : list string) (name : string) :
  catalog_names E names ->
  (forall req st,
     List.filter cross_match_catalog names <> [] ->
     first_none_of (query_position req) = Some name ->
     py_any (query_position req) = true ->
     CrossMatchHandler_get E req st
     = (Ok (Some (error (missing_msg name))), after_info st))
  /\ (forall req st S catalog,
        program_id_selector (user_streams E) = Ok S ->
        query_args req !! "catalog" = Some catalog ->
        existsb (String.eqb catalog)
                (List.filter (contains "ZTF_sources") names) = true ->
        first_none_of (query_position req) = Some name ->
        py_any (query_position req) = true ->
        ArchiveHandler_get E req st
        = (Ok (Some (error (missing_msg name))), after_info st))
  /\ (forall req st pos,
        is_Some (json_body req !! "id") ->
        json_position req = Some pos ->
        in_strings (pop_default (json_body req) "catalog"
                                (PStr "ZTF_source_features_DR5"))
                   (List.filter (contains "ZTF_source_features") names) = true ->
        first_none_of pos = Some name ->
        py_any pos = true ->
        ScopeFeaturesHandler_post E req st
        = (Ok (Some (error (missing_msg name))), after_info st)).
Proof.
  intros Hcat. split; [|split].
  - intros req st Hne Hfirst Hany.
    now apply (CrossMatchHandler_get_missing E req st names name).
  - intros req st S catalog Hsel Hc Havail Hfirst Hany.
    now apply (ArchiveHandler_get_missing E req st names S catalog name).
  - intros req st pos [obj_id Hid] Hpos Havail Hfirst Hany.
    unfold json_position in Hpos.
    destruct (json_body req !! "ra") as [ra|] eqn:Hra; [|discriminate].
    destruct (json_body req !! "dec") as [dec|] eqn:Hdec; [|discriminate].
    inversion Hpos; subst pos.
    now apply (ScopeFeaturesHandler_post_missing E req st names obj_id ra dec name).
Qed.

Lemma sample_catalog_names : catalog_names sample_env sample_names.
Proof. exists sample_gloria. eexists. repeat split. Qed.

Lemma missing_position_field_witness :
  CrossMatchHandler_get sample_env
    (query_request [("ra", "180"); ("radius", "5"); ("radius_units", "arcsec")])
    empty_state
  = (Ok (Some (error "Missing required parameter: dec")),
     after_info empty_state)
  /\ ArchiveHandler_get sample_env
       (query_request [("catalog", "ZTF_sources_20210401"); ("ra", "180");
                       ("dec", "0"); ("radius", "5")])
       empty_state
     = (Ok (Some (error "Missing required parameter: radius_units")),
        after_info empty_state)
  /\ ScopeFeaturesHandler_post sample_env
       (json_request [("id", PStr "ZTF21aaaaaaa"); ("ra", PNone);
                      ("dec", PInt 10)])
       empty_state
     = (Ok (Some (error "Missing required parameter: ra")),
        after_info empty_state).
Proof.
  split; [|split].
  - apply (proj1 (missing_position_field sample_env sample_names "dec"
                    sample_catalog_names));
      vm_compute; congruence.
  - apply (proj1 (proj2 (missing_position_field sample_env sample_names
                           "radius_units" sample_catalog_names))
             _ _ {[ 1; 2 ]} "ZTF_sources_20210401");
      vm_compute; congruence.
  - apply (proj2 (proj2 (missing_position_field sample_env sample_names
                           "ra" sample_catalog_names))
             _ _ [PNone; PInt 10; PInt 2; PStr "arcsec"]);
      try (vm_compute; congruence).
    vm_compute. eauto.
Defined.

(** C7 as stated fails: a JSON body that supplies ra, dec and
    radius_units but no radius is not rejected; the default radius is
    used and the search and the annotation go ahead. *)
Lemma three_of_four_not_rejected :
  let req := json_request [("id", PStr "ZTF21aaaaaaa"); ("ra", PInt 180);
                           ("dec", PInt 10); ("radius_units", PStr "arcsec")] in
  json_body req !! "radius" = None
  /\ is_Some (json_body req !! "ra")
  /\ is_Some (json_body req !! "dec")
  /\ is_Some (json_body req !! "radius_units")
  /\ fst (ScopeFeaturesHandler_post sample_env req empty_state)
     = Ok (Some (Success NoData))
  /\ fst (ScopeFeaturesHandler_post sample_env req empty_state)
     <> Ok (Some (error "Missing required parameter: radius")).
Proof.
  cbv zeta.
  split; [vm_compute; reflexivity|].
  split; [vm_compute; eauto|].
  split; [vm_compute; eauto|].
  split; [vm_compute; eauto|].
  split; [vm_compute; reflexivity|].
  vm_compute. discriminate.
Qed.

(** ** Validation failures and remote calls *)

Lemma missing_parameter_is_validation ra dec radius radius_units r :
  missing_parameter ra dec radius radius_units = Some r ->
  is_validation_failure r = true.
Proof.
  unfold missing_parameter.
  destruct (negb _ && _); [|discriminate].
  destruct (is_none ra); [intros H; inversion H; reflexivity|].
  destruct (is_none dec); [intros H; inversion H; reflexivity|].
  destruct (is_none radius); [intros H; inversion H; reflexivity|].
  destruct (is_none radius_units); [intros H; inversion H; reflexivity|].
  discriminate.
Qed.

(** Runs a handler symbolically: a case split at each branch of [H]. *)
Ltac run_handler H :=
  repeat (
    match type of H with
    | (_, _) = (_, _) => fail 1
    | _ =>
        match type of H with
        | context [match ?x with _ => _ end] =>
            lazymatch x with
            | context [match _ with _ => _ end] => fail
            | _ => destruct x eqn:?
            end
        | context [if ?b then _ else _] =>
            lazymatch b with
            | context [match _ with _ => _ end] => fail
            | _ => destruct b eqn:?
            end
        end
    end; cbv beta iota in H).

Lemma CrossMatchHandler_get_validation E req st r st' :
  CrossMatchHandler_get E req st = (Ok (Some r), st') ->
  is_validation_failure r = true ->
  st' = after_info st.
Proof.
  intros H Hv.
  unfold CrossMatchHandler_get, bind, gloria_query, emit, lift, ret, raise, bind in H.
  run_handler H; inversion H; subst; clear H;
    try reflexivity; try discriminate.
Qed.

Lemma ArchiveHandler_get_validation E req st r st' :
  ArchiveHandler_get E req st = (Ok (Some r), st') ->
  is_validation_failure r = true ->
  st' = after_info st.
Proof.
  intros H Hv.
  unfold ArchiveHandler_get, bind, gloria_query, emit, lift, ret, raise, bind in H.
  run_handler H; inversion H; subst; clear H;
    try reflexivity; try discriminate.
Qed.

Lemma ScopeFeaturesHandler_post_validation E req st r st' :
  ScopeFeaturesHandler_post E req st = (Ok (Some r), st') ->
  is_validation_failure r = true ->
  st' = after_info st.
Proof.
  intros H Hv.
  unfold ScopeFeaturesHandler_post, except_integrity, add_all_commit,
    bind, gloria_query, emit, lift, ret, raise, bind in H.
  run_handler H; inversion H; subst; clear H;
    try reflexivity; try discriminate.
Qed.

(** C6 (amended): when a position handler reports a validation failure
    (a missing position parameter, an invalid radius unit, a non-float
    value, a coordinate out of range, or a radius above the cap), the only
    remote call it has made is the catalog-names query it starts with: no
    cone search, lookup or aggregation is issued. *)
Theorem validation_failure_only_after_info (E : env) (req : request)
  (st st' : state) (r : response) :
  is_validation_failure r = true ->
  (CrossMatchHandler_get E req st = (Ok (Some r), st') -> st' = after_info st)
  /\ (ArchiveHandler_get E req st = (Ok (Some r), st') -> st' = after_info st)
  /\ (ScopeFeaturesHandler_post E req st = (Ok (Some r), st') ->
      st' = after_info st).
Proof.
  intros Hv. split; [|split]; intros H.
  - eapply CrossMatchHandler_get_validation; eauto.
  - eapply ArchiveHandler_get_validation; eauto.
  - eapply ScopeFeaturesHandler_post_validation; eauto.
Qed.

Lemma validation_failure_only_after_info_witness :
  fst (CrossMatchHandler_get sample_env radius_61_arcmin empty_state)
  = Ok (Some (error "Radius must be <= 1.0 deg"))
  /\ snd (CrossMatchHandler_get sample_env radius_61_arcmin empty_state)
     = after_info empty_state.
Proof.
  split; [vm_compute; reflexivity|].
  apply (proj1 (validation_failure_only_after_info sample_env radius_61_arcmin
                  empty_state
                  (snd (CrossMatchHandler_get sample_env radius_61_arcmin
                          empty_state))
                  (error "Radius must be <= 1.0 deg") eq_refl)).
  vm_compute. reflexivity.
Defined.

(** C6 as stated fails: the radius-cap failure is reported after a remote
    call, the catalog-names query. *)
Lemma validation_failure_after_remote_call :
  exists st',
    ArchiveHandler_get sample_env radius_61_arcmin empty_state
    = (Ok (Some (error "Radius must be <= 1.0 deg")), st')
    /\ trace st' = [EvQuery QCatalogNames]
    /\ trace st' <> [].
Proof.
  eexists. split; [vm_compute; reflexivity|].
  split; [reflexivity | discriminate].
Qed.

(** ** Program ids and stream ids *)

Lemma program_stream_name_some k name :
  program_stream_name k = Some name ->
  (k = 1 /\ name = "ZTF Public")
  \/ (k = 2 /\ name = "ZTF Public+Partnership")
  \/ ((k = 0 \/ k = 3) /\ name = "ZTF Public+Partnership+Caltech").
Proof.
  unfold program_stream_name.
  destruct (Z.eqb_spec k 1); [intros H; inversion H; auto|].
  destruct (Z.eqb_spec k 2); [intros H; inversion H; auto|].
  destruct (Z.eqb_spec k 0); [intros H; inversion H; auto|].
  destruct (Z.eqb_spec k 3); [intros H; inversion H; auto|].
  discriminate.
Qed.

Lemma program_stream_name_none k :
  program_stream_name k = None -> k <> 0 /\ k <> 1 /\ k <> 2 /\ k <> 3.
Proof.
  unfold program_stream_name.
  destruct (Z.eqb_spec k 1); [discriminate|].
  destruct (Z.eqb_spec k 2); [discriminate|].
  destruct (Z.eqb_spec k 0); [discriminate|].
  destruct (Z.eqb_spec k 3); [discriminate|].
  auto.
Qed.

Ltac split_stream_name s :=
  destruct (String.eqb_spec (stream_name s) "ZTF Public") as [?E1|?N1];
  destruct (String.eqb_spec (stream_name s) "ZTF Public+Partnership")
    as [?E2|?N2];
  destruct (String.eqb_spec (stream_name s) "ZTF Public+Partnership+Caltech")
    as [?E3|?N3];
  try congruence.

Lemma fill_stream_ids_lookup streams : forall (m : gmap Z Z) (k : Z),
  fill_stream_ids streams m !! k
  = match program_stream_name k with
    | Some name =>
        match last_named name streams with
        | Some i => Some i
        | None => m !! k
        end
    | None => m !! k
    end.
Proof.
  induction streams as [|s rest IH]; intros m k.
  - simpl. now destruct (program_stream_name k).
  - cbn [fill_stream_ids last_named]. rewrite IH.
    destruct (program_stream_name k) as [name|] eqn:Hk.
    + destruct (last_named name rest) as [i|]; [reflexivity|].
      apply program_stream_name_some in Hk
        as [[-> ->]|[[-> ->]|[[->| ->] ->]]];
        split_stream_name s; simplify_map_eq; reflexivity.
    + apply program_stream_name_none in Hk as (K0 & K1 & K2 & K3).
      split_stream_name s; simplify_map_eq; reflexivity.
Qed.

Lemma apply_stream_ids_unmapped (m : gmap Z Z) (rows : list phot_row) r :
  In r rows -> m !! row_programid r = None ->
  exists key, apply_stream_ids m rows = Raise (KeyError key).
Proof.
  induction rows as [|r0 rows IH]; intros Hin Hnone; [destruct Hin|].
  simpl. destruct (m !! row_programid r0) as [sid|] eqn:H0; [|eauto].
  destruct Hin as [->|Hin]; [congruence|].
  destruct (IH Hin Hnone) as [key ->]. eauto.
Qed.

Lemma post_try_body_unmapped E obj_id group_ids lcs user st
  oid sources instrument_id rows streams r :
  resolved_obj_id E obj_id lcs = Ok oid ->
  select_sources (penv E) oid = Ok sources ->
  (sources = [] ->
   post_source (penv E) oid (np_mean E (present lc_ra lcs))
               (np_mean E (present lc_dec lcs)) group_ids user = Ok tt) ->
  make_photometry lcs true = Ok rows ->
  select_ztf_instrument (penv E) = Ok (Some instrument_id) ->
  select_streams (penv E) = Ok streams ->
  In r rows ->
  ztf_program_id_to_stream_id streams !! row_programid r = None ->
  exists key st' new,
    post_try_body E obj_id group_ids lcs user st = (Raise (KeyError key), st')
    /\ trace st' = trace st ++ new
    /\ Forall not_add_photometry new.
Proof.
  intros Hoid Hsrc Hpost Hrows Hinst Hstreams Hin Hnone.
  destruct (apply_stream_ids_unmapped _ rows r Hin Hnone) as [key Hkey].
  exists key.
  unfold post_try_body, resolved_obj_id in *.
  unfold bind at 1.
  destruct (is_none obj_id).
  - destruct (radec_to_iau_name _ _ _) as [name|e]; [|discriminate].
    inversion Hoid; subst oid. unfold ret at 1.
    unfold bind, lift, emit, ret. rewrite Hsrc.
    destruct sources as [|s0 sources]; simpl.
    + rewrite (Hpost eq_refl), Hrows, Hinst, Hstreams, Hkey.
      eexists; eexists; split; [reflexivity|]. simpl.
      split; [reflexivity|]. repeat constructor.
    + rewrite Hrows, Hinst, Hstreams, Hkey.
      eexists; eexists; split; [reflexivity|]. simpl.
      split; [reflexivity|]. repeat constructor.
  - inversion Hoid; subst oid. unfold ret at 1.
    unfold bind, lift, emit, ret. rewrite Hsrc.
    destruct sources as [|s0 sources]; simpl.
    + rewrite (Hpost eq_refl), Hrows, Hinst, Hstreams, Hkey.
      eexists; eexists; split; [reflexivity|]. simpl.
      split; [reflexivity|]. repeat constructor.
    + rewrite Hrows, Hinst, Hstreams, Hkey.
      eexists; eexists; split; [reflexivity|]. simpl.
      split; [reflexivity|]. repeat constructor.
Qed.

Lemma ztf_program_id_to_stream_id_lookup streams k :
  ztf_program_id_to_stream_id streams !! k
  = match program_stream_name k with
    | Some name => last_named name streams
    | None => None
    end.
Proof.
  unfold ztf_program_id_to_stream_id. rewrite fill_stream_ids_lookup.
  destruct (program_stream_name k) as [name|]; [|apply lookup_empty].
  destruct (last_named name streams); [reflexivity | apply lookup_empty].
Qed.

(** C3: the program-id to stream-id map has an entry for program id 1
    exactly when a stream is called "ZTF Public", for 2 when one is called
    "ZTF Public+Partnership", and for both 0 and 3 when one is called
    "ZTF Public+Partnership+Caltech" (the id of the last such stream), and
    no other entry; and when a normalised row carries a program id without
    an entry, the ingestion fails with the lookup's [KeyError] and
    [add_external_photometry] is never called. *)
Theorem unmapped_program_id_is_fatal (E : env) (obj_id group_ids : pyval)
  (lcs : list light_curve) (user : Z) (st : state) (oid : pyval)
  (sources : list Z) (instrument_id : Z) (rows : list phot_row)
  (streams : list stream) (r : phot_row) :
  resolved_obj_id E obj_id lcs = Ok oid ->
  select_sources (penv E) oid = Ok sources ->
  (sources = [] ->
   post_source (penv E) oid (np_mean E (present lc_ra lcs))
               (np_mean E (present lc_dec lcs)) group_ids user = Ok tt) ->
  make_photometry lcs true = Ok rows ->
  select_ztf_instrument (penv E) = Ok (Some instrument_id) ->
  select_streams (penv E) = Ok streams ->
  In r rows ->
  ztf_program_id_to_stream_id streams !! row_programid r = None ->
  (forall k,
     ztf_program_id_to_stream_id streams !! k
     = match program_stream_name k with
       | Some name => last_named name streams
       | None => None
       end)
  /\ exists key st' new,
       post_try_body E obj_id group_ids lcs user st
       = (Raise (KeyError key), st')
       /\ trace st' = trace st ++ new
       /\ Forall not_add_photometry new.
Proof.
  intros. split.
  - intros k. apply ztf_program_id_to_stream_id_lookup.
  - eapply post_try_body_unmapped; eauto.
Qed.

Example fill_stream_ids_sample :
  ztf_program_id_to_stream_id all_streams
  = <[ 3 := 3 ]> (<[ 0 := 3 ]> (<[ 2 := 2 ]> (<[ 1 := 1 ]> ∅))).
Proof. vm_compute. reflexivity. Qed.

Lemma unmapped_program_id_is_fatal_witness :
  exists key st' new,
    post_try_body sample_env (PStr "ZTF21aaaaaaa") PNone unmapped_curves 42
                  empty_state
    = (Raise (KeyError key), st')
    /\ trace st' = trace empty_state ++ new
    /\ Forall not_add_photometry new.
Proof.
  refine (proj2 (unmapped_program_id_is_fatal sample_env (PStr "ZTF21aaaaaaa")
                   PNone unmapped_curves 42 empty_state (PStr "ZTF21aaaaaaa")
                   [] 1 _ all_streams (finish_row (unmapped_epoch, 3, "ztfi"))
                   _ _ _ _ _ _ _ _)).
  - reflexivity.
  - reflexivity.
  - reflexivity.
  - vm_compute. reflexivity.
  - reflexivity.
  - reflexivity.
  - simpl. right. left. reflexivity.
  - vm_compute. reflexivity.
Defined.

(** The whole handler on such a row: the [KeyError] leaves the handler
    after the token is deleted, and nothing was ingested. *)
Example ArchiveHandler_post_unmapped :
  let E := {| gloria := Some (fun q =>
                match q with
                | QAggregate _ _ _ => Ok (ok_response (DLightCurves unmapped_curves))
                | _ => sample_gloria q
                end);
              parse_float := parse_float sample_env;
              parse_int := parse_int sample_env;
              np_mean := np_mean sample_env;
              user_streams := sample_streams;
              find_obj := find_obj sample_env;
              accessible_group_ids := [1; 5];
              select_groups := select_groups sample_env;
              associated_user := 42;
              penv := sample_penv |} in
  let req := json_request [("catalog", PStr "ZTF_sources_20210401");
                           ("light_curve_ids", PList [12]);
                           ("group_ids", PList [1])] in
  ArchiveHandler_post E req empty_state
  = (Raise (KeyError "5"),
     {| trace := [EvQuery (QAggregate (PStr "ZTF_sources_20210401") (PList [12])
                                      [2; 1]);
                  EvCreateToken "1b4e28ba-2fa1-11d2-883f-0016d3cca427" 7;
                  EvPostSource (PStr "ZTFJ120000.00+000000.0") f180 f0 (PList [1]);
                  EvDeleteToken 7];
        annotations := [] |}).
Proof. vm_compute. reflexivity. Qed.

(** ** The transient token *)

Lemma post_try_body_no_delete E obj_id group_ids lcs user :
  emits_only not_delete_token (post_try_body E obj_id group_ids lcs user).
Proof.
  unfold post_try_body. emits_auto; simpl; eauto.
Qed.

Lemma no_deletions token_id evs :
  Forall not_delete_token evs -> deletions token_id evs = 0%nat.
Proof.
  unfold deletions. induction 1 as [|ev evs Hev _ IH]; [reflexivity|].
  simpl. destruct ev; simpl in *; try exact IH. contradiction.
Qed.

(** Once the [try] block is entered, the token is deleted exactly once,
    however the block is left: by falling through, by returning from
    inside it, or by an exception. *)
Lemma token_deleted_once_in_try E obj_id group_ids lcs user token_id st r st' :
  try_finally (post_try_body E obj_id group_ids lcs user)
              (release_token (penv E) token_id) st = (r, st') ->
  exists new,
    trace st' = trace st ++ new /\ deletions token_id new = 1%nat.
Proof.
  unfold try_finally. intros H.
  destruct (post_try_body E obj_id group_ids lcs user st) as [rb st1] eqn:Hb.
  destruct (post_try_body_no_delete _ _ _ _ _ _ _ _ Hb) as (n1 & E1 & F1).
  unfold release_token, bind, emit, lift in H.
  exists (n1 ++ [EvDeleteToken token_id]).
  assert (Hst : trace st' = trace st1 ++ [EvDeleteToken token_id]).
  { destruct (delete_token (penv E) token_id); inversion H; reflexivity. }
  rewrite Hst, E1, <- app_assoc. split; [reflexivity|].
  unfold deletions in *. rewrite List.filter_app, length_app.
  fold (deletions token_id n1). rewrite (no_deletions _ _ F1).
  simpl. now rewrite Z.eqb_refl.
Qed.

(** Whatever the deployment and the request: when opening the second
    session raises, a token that was minted is never deleted, and the
    handler is left by that exception. *)
Lemma token_never_deleted_when_session_fails E req st r st' e :
  session_enter (penv E) = Raise e ->
  ArchiveHandler_post E req st = (r, st') ->
  exists new,
    trace st' = trace st ++ new
    /\ Forall not_delete_token new
    /\ forall name token_id,
         In (EvCreateToken name token_id) new -> r = Raise e.
Proof.
  intros Hs H.
  unfold ArchiveHandler_post in H.
  unfold bind, gloria_query, emit, lift, ret, raise, bind in H.
  rewrite Hs in H.
  run_handler H; inversion H; subst; clear H; cbn [trace];
    try (exists []; split; [symmetry; apply app_nil_r|];
         split; [constructor | intros ? ? []]; fail);
    try (eexists [_]; split; [reflexivity|];
         split; [repeat constructor|];
         intros ? ? [Hin|[]]; discriminate Hin).
  all: rewrite <- app_assoc; eexists; (split; [reflexivity|]);
    (split; [repeat constructor | reflexivity]).
Qed.

(** C1: the handler opens a session around the loop over the caller's
    streams, queries the catalog service, mints the token, and only then
    opens the session it works in and reads the current user, both before
    the [try] block whose [finally] deletes the token.  In a deployment
    where the first session opens and opening the second raises, the
    handler is left with the token minted and [delete_token] never
    called. *)
Theorem token_leaks_when_session_fails :
  streams_session (penv session_down_env) = Ok tt
  /\ exists st',
       ArchiveHandler_post session_down_env ingest_request empty_state
       = (Raise (OtherError "OperationalError"), st')
       /\ In (EvCreateToken "1b4e28ba-2fa1-11d2-883f-0016d3cca427" 7)
             (trace st')
       /\ deletions 7 (trace st') = 0%nat.
Proof.
  split; [reflexivity|].
  eexists. split; [vm_compute; reflexivity|].
  split; [simpl; auto | reflexivity].
Qed.

(** When the store cannot open the first session either, the handler is
    left before the remote query: no token is minted, nothing leaks. *)
Example no_token_when_store_is_down :
  ArchiveHandler_post store_down_env ingest_request empty_state
  = (Raise (OtherError "OperationalError"), empty_state).
Proof. vm_compute. reflexivity. Qed.

(** The same request when the session opens: five rows are ingested and
    the token is deleted once. *)
Example ArchiveHandler_post_sample :
  exists p,
    ArchiveHandler_post sample_env ingest_request empty_state
    = (Ok (Some (Success (ObjId (PStr "ZTFJ120000.00+000000.0")))),
       {| trace := [EvQuery (QAggregate (PStr "ZTF_sources_20210401")
                                        (PList [10; 11]) [2; 1]);
                    EvCreateToken "1b4e28ba-2fa1-11d2-883f-0016d3cca427" 7;
                    EvPostSource (PStr "ZTFJ120000.00+000000.0") f180 f0
                                 (PList [1]);
                    EvAddPhotometry p;
                    EvDeleteToken 7];
          annotations := [] |})
    /\ length (ph_mjd p) = 5%nat
    /\ ph_stream_ids p = [1; 1; 1; 1; 1].
Proof. eexists. split; [vm_compute; reflexivity|]. split; reflexivity. Qed.

Lemma try_block_no_create E obj_id group_ids lcs user token_id :
  emits_only not_create_token
    (try_finally (post_try_body E obj_id group_ids lcs user)
                 (release_token (penv E) token_id)).
Proof.
  unfold post_try_body, release_token. emits_auto; simpl; eauto.
Qed.

(** With the session open and the user read, every request that minted a
    token has deleted it exactly once when the handler is left. *)
Lemma token_deleted_once_when_session_opens E req st r st' u :
  session_enter (penv E) = Ok tt ->
  current_user (penv E) = Ok u ->
  ArchiveHandler_post E req st = (r, st') ->
  exists new,
    trace st' = trace st ++ new
    /\ forall name token_id,
         In (EvCreateToken name token_id) new -> deletions token_id new = 1%nat.
Proof.
  intros Hs Hu H.
  unfold ArchiveHandler_post in H.
  unfold bind, gloria_query, emit, lift, ret, raise, bind in H.
  rewrite Hs, Hu in H.
  run_handler H; inversion H; subst; clear H; simpl;
    try (eexists; split;
         [ first [ symmetry; apply app_nil_r | reflexivity ]
         | simpl; intros ? ? Hin;
           repeat (destruct Hin as [Hin|Hin]; [discriminate|]); destruct Hin ];
         fail);
    match goal with
    | Hp : try_finally _ _ _ = _ |- _ =>
        pose proof (try_block_no_create _ _ _ _ _ _ _ _ _ Hp) as (n0 & E0 & F0);
        apply token_deleted_once_in_try in Hp as (n1 & E1 & D1);
        rewrite E1 in E0; apply app_inv_head in E0; subst n0;
        simpl in E1; rewrite E1, <- !app_assoc;
        eexists; split; [reflexivity|];
        simpl; intros ? ? Hin;
        destruct Hin as [Hin|[Hin|Hin]]; [discriminate| |];
        [ injection Hin as <- <-; exact D1
        | exfalso; rewrite List.Forall_forall in F0; exact (F0 _ Hin) ]
    end.
Qed.

(** ** Feature annotations *)

Lemma same_key_refl a : same_key a a = true.
Proof.
  unfold same_key. now rewrite !String.eqb_refl, Z.eqb_refl.
Qed.

Lemma same_key_sym a b : same_key a b = same_key b a.
Proof.
  unfold same_key.
  now rewrite (String.eqb_sym (ann_obj_id a)), (String.eqb_sym (ann_origin a)),
    (Z.eqb_sym (ann_author a)).
Qed.

Lemma no_rows_with_key a l :
  existsb (same_key a) l = false -> rows_with_key a l = 0%nat.
Proof.
  unfold rows_with_key. induction l as [|b l IH]; simpl; [reflexivity|].
  destruct (same_key a b); simpl; [discriminate | exact IH].
Qed.

Lemma keys_unique_snoc l a :
  keys_unique l = true -> existsb (same_key a) l = false ->
  keys_unique (l ++ [a]) = true.
Proof.
  induction l as [|b l IH]; simpl; intros Hu Hn; [reflexivity|].
  apply andb_true_iff in Hu as [Hb Hl].
  apply orb_false_iff in Hn as [Hab Hal].
  rewrite existsb_app. simpl. rewrite same_key_sym, Hab, orb_false_r.
  apply negb_true_iff in Hb. rewrite Hb. simpl. now apply IH.
Qed.

Lemma ScopeFeaturesHandler_post_store E req st r st' :
  ScopeFeaturesHandler_post E req st = (r, st') ->
  keys_unique (annotations st) = true ->
  keys_unique (annotations st') = true.
Proof.
  intros H Hu.
  unfold ScopeFeaturesHandler_post, except_integrity, add_all_commit,
    bind, gloria_query, emit, lift, ret, raise, bind in H.
  run_handler H; inversion H; subst; clear H; simpl in *; try exact Hu.
  all: apply keys_unique_snoc; [exact Hu|].
  all: match goal with
       | Hx : (existsb _ _ || false)%bool = false |- _ =>
           now rewrite orb_false_r in Hx
       end.
Qed.

Lemma key_stored a l : existsb (same_key a) (l ++ [a]) = true.
Proof.
  rewrite existsb_app. simpl. now rewrite same_key_refl, orb_true_r.
Qed.

Ltac replay :=
  repeat match goal with
         | Hq : ?x = _ |- context [?x] => rewrite Hq
         end.

Lemma same_key_fields a b c :
  ann_obj_id a = ann_obj_id b -> ann_origin a = ann_origin b ->
  ann_author a = ann_author b ->
  same_key a c = same_key b c.
Proof. unfold same_key. now intros -> -> ->. Qed.

Lemma same_key_eq a b :
  same_key a b = true ->
  ann_obj_id a = ann_obj_id b /\ ann_origin a = ann_origin b
  /\ ann_author a = ann_author b.
Proof.
  unfold same_key. intros H.
  apply andb_true_iff in H as [H H3]. apply andb_true_iff in H as [H1 H2].
  apply String.eqb_eq in H1, H2. apply Z.eqb_eq in H3. auto.
Qed.

Lemma existsb_pointwise {A} (f g : A -> bool) l :
  (forall c, f c = g c) -> existsb f l = existsb g l.
Proof.
  intros H. induction l as [|c l IH]; simpl; [reflexivity|].
  now rewrite H, IH.
Qed.

Lemma one_row_with_key a l :
  keys_unique l = true -> existsb (same_key a) l = true ->
  rows_with_key a l = 1%nat.
Proof.
  unfold rows_with_key.
  induction l as [|b l IH]; simpl; intros Hu Hk; [discriminate|].
  apply andb_true_iff in Hu as [Hb Hl]. apply negb_true_iff in Hb.
  destruct (same_key a b) eqn:Hab; simpl.
  - f_equal. apply (no_rows_with_key a l).
    destruct (same_key_eq _ _ Hab) as (H1 & H2 & H3).
    rewrite <- Hb. apply existsb_pointwise. intros c.
    now apply same_key_fields.
  - simpl in Hk. now apply IH.
Qed.

Lemma pop_pop_default d k v dflt : pop d k = Ok v -> pop_default d k dflt = v.
Proof.
  unfold pop, pop_default. destruct (d !! k); now inversion 1.
Qed.

Lemma ScopeFeaturesHandler_post_conflict E req st0 st1 st :
  ScopeFeaturesHandler_post E req st0 = (Ok (Some (Success NoData)), st1) ->
  (exists a,
     annotations st1 = annotations st0 ++ [a]
     /\ same_key (request_key E req) a = true
     /\ rows_with_key (request_key E req) (annotations st0) = 0%nat)
  /\ (existsb (same_key (request_key E req)) (annotations st) = true ->
      exists st2,
        ScopeFeaturesHandler_post E req st
        = (Ok (Some (error "Annotation already posted.")), st2)
        /\ annotations st2 = annotations st).
Proof.
  intros H.
  unfold ScopeFeaturesHandler_post, except_integrity, add_all_commit,
    bind, gloria_query, emit, lift, ret, raise, bind in H.
  run_handler H; inversion H; subst; clear H.
  all: try match goal with
           | Hm : missing_parameter _ _ _ _ = Some _ |- _ =>
               apply missing_parameter_is_validation in Hm; discriminate
           end.
  all: cbn [existsb annotations] in *.
  all: match goal with
       | Hx : (existsb (same_key ?a) _ || false)%bool = false |- _ =>
           rewrite orb_false_r in Hx;
           assert (Hkey : forall c, same_key (request_key E req) c = same_key a c)
       end.
  all: try (intros c; apply same_key_fields; cbn [request_key ann_obj_id ann_origin ann_author];
            repeat match goal with
                   | Hp : pop _ _ = Ok _ |- _ =>
                       apply (pop_pop_default _ _ _ PNone) in Hp
                   end; congruence).
  all: split.
  all: try (eexists; split; [reflexivity|]; split;
            [rewrite Hkey; apply same_key_refl
            | apply no_rows_with_key;
              rewrite (existsb_pointwise _ _ _ Hkey); assumption]).
  all: intros Hk; rewrite (existsb_pointwise _ _ _ Hkey) in Hk.
  all: unfold ScopeFeaturesHandler_post, except_integrity, add_all_commit,
         bind, gloria_query, emit, lift, ret, raise, bind.
  all: replay; cbv beta iota; simpl annotations.
  all: cbn [existsb str_value] in Hk |- *; rewrite Hk; cbn [orb].
  all: eexists; split; reflexivity.
Qed.

(** C8: whenever the store holds a row with the object id, origin and
    author of a request, whatever the data and the groups of that row and
    however it got there, a request that would otherwise be stored is
    answered with the "Annotation already posted." report: the store's
    conflict is caught, not raised, nothing is added, and exactly one row
    with that key remains.  On a store without the key the same request
    adds exactly one row, under that key. *)
Theorem duplicate_annotation_is_conflict (E : env) (req : request)
  (st0 st1 st : state) :
  ScopeFeaturesHandler_post E req st0 = (Ok (Some (Success NoData)), st1) ->
  keys_unique (annotations st) = true ->
  existsb (same_key (request_key E req)) (annotations st) = true ->
  (exists a,
     annotations st1 = annotations st0 ++ [a]
     /\ same_key (request_key E req) a = true
     /\ rows_with_key (request_key E req) (annotations st0) = 0%nat)
  /\ exists st2,
       ScopeFeaturesHandler_post E req st
       = (Ok (Some (error "Annotation already posted.")), st2)
       /\ annotations st2 = annotations st
       /\ rows_with_key (request_key E req) (annotations st2) = 1%nat.
Proof.
  intros H Hu Hk.
  destruct (ScopeFeaturesHandler_post_conflict E req st0 st1 st H)
    as [Hfirst Hsecond].
  split; [exact Hfirst|].
  destruct (Hsecond Hk) as (st2 & Hrun & Hsame).
  exists st2. split; [exact Hrun|]. split; [exact Hsame|].
  rewrite Hsame. now apply one_row_with_key.
Qed.

Example features_request_stored :
  annotations stored_once
  = [ {| ann_data := [("_id", PInt 10); ("median", PFloat (F64.of_frac 185 10));
                      ("n", PInt 25)];
         ann_obj_id := "ZTF21aaaaaaa";
         ann_origin := "ZTF_source_features_DR5";
         ann_author := 42;
         ann_groups := [1; 5] |} ].
Proof. vm_compute. reflexivity. Qed.

Lemma duplicate_annotation_is_conflict_witness :
  (exists st2,
     ScopeFeaturesHandler_post sample_env features_request stored_once
     = (Ok (Some (error "Annotation already posted.")), st2)
     /\ annotations st2 = annotations stored_once
     /\ rows_with_key (request_key sample_env features_request)
                      (annotations st2) = 1%nat)
  /\ exists st2,
       ScopeFeaturesHandler_post sample_env features_request other_row_state
       = (Ok (Some (error "Annotation already posted.")), st2)
       /\ annotations st2 = annotations other_row_state
       /\ rows_with_key (request_key sample_env features_request)
                        (annotations st2) = 1%nat.
Proof.
  split.
  - apply (proj2 (duplicate_annotation_is_conflict sample_env
                    features_request empty_state stored_once stored_once
                    ltac:(vm_compute; reflexivity) ltac:(vm_compute; reflexivity)
                    ltac:(vm_compute; reflexivity))).
  - apply (proj2 (duplicate_annotation_is_conflict sample_env
                    features_request empty_state stored_once other_row_state
                    ltac:(vm_compute; reflexivity) ltac:(vm_compute; reflexivity)
                    ltac:(vm_compute; reflexivity))).
Defined.

(** ** radec_to_iau_name *)

Example iau_180_0 :
  radec_to_iau_name f180 f0 "ZTFJ" = Ok "ZTFJ120000.00+000000.0".
Proof. vm_compute. reflexivity. Qed.

Example iau_sample :
  radec_to_iau_name (F64.of_frac 1234567 10000) (F64.of_frac (-456789) 10000) "ZTFJ"
  = Ok "ZTFJ081349.61-454044.0".
Proof. vm_compute. reflexivity. Qed.

(** Seconds that round up are printed as 60. *)
Example iau_rounds_to_sixty :
  radec_to_iau_name (F64.of_frac 3599999999 10000000) (F64.of_frac (-1) 2) "ZTFJ"
  = Ok "ZTFJ235960.00-003000.0".
Proof. vm_compute. reflexivity. Qed.

(** Negative zero passes the range check and is printed with its sign. *)
Example iau_negative_zero :
  in_range (S754_zero true) f0 = true
  /\ radec_to_iau_name (S754_zero true) f0 "ZTFJ" = Ok "ZTFJ-00000.00+000000.0".
Proof. vm_compute. split; reflexivity. Qed.

(** Outside the ranges the function raises [ValueError]. *)
Lemma radec_to_iau_name_out_of_range ra dec prefix :
  in_range ra dec = false ->
  exists msg, radec_to_iau_name ra dec prefix = Raise (ValueError msg).
Proof.
  unfold in_range, radec_to_iau_name. intros H.
  destruct (F64.leb f0 ra && F64.ltb ra f360); simpl in *; [|eauto].
  destruct (F64.leb fm90 dec && F64.leb dec f90); simpl in *;
    [discriminate | eauto].
Qed.

(** C5 as stated fails: the name of (180, 0) has six digits between the
    sign and the point, so the pattern with [\d{5}] there matches neither
    the whole name nor any part of it. *)
Lemma iau_name_not_five_digits :
  in_range f180 f0 = true
  /\ radec_to_iau_name f180 f0 "ZTFJ" = Ok "ZTFJ120000.00+000000.0"
  /\ fullmatch (iau_pattern "ZTFJ" 5) "ZTFJ120000.00+000000.0" = false
  /\ search (iau_pattern "ZTFJ" 5) "ZTFJ120000.00+000000.0" = false.
Proof. vm_compute. repeat split; reflexivity. Qed.

Example iau_name_six_digits :
  fullmatch (iau_pattern "ZTFJ" 6) "ZTFJ120000.00+000000.0" = true.
Proof. vm_compute. reflexivity. Qed.

(** ** Bounds on binary64 arithmetic

    Values are read as real numbers; each rounding is bounded by the
    value rounded plus one unit in the last place. *)

Lemma bpow_pos e : (0 < bpow e)%R.
Proof. apply powerRZ_lt. lra. Qed.

Lemma bpow_plus a b : bpow (a + b) = (bpow a * bpow b)%R.
Proof. apply powerRZ_add. lra. Qed.

Lemma bpow_IZR k : 0 <= k -> bpow k = IZR (2 ^ k).
Proof.
  intros Hk. unfold bpow. destruct k as [|p|p]; [reflexivity| |lia].
  simpl. rewrite <- (positive_nat_Z p), <- pow_IZR. reflexivity.
Qed.

Lemma digits2_size p : digits2_pos p = Pos.size p.
Proof. induction p; simpl; congruence. Qed.

Lemma digits2_bounds p :
  2 ^ (Z.pos (digits2_pos p) - 1) <= Z.pos p < 2 ^ Z.pos (digits2_pos p).
Proof.
  rewrite digits2_size.
  pose proof (Pos.size_gt p) as Hgt. pose proof (Pos.size_le p) as Hle.
  apply Pos2Z.pos_lt_pos in Hgt. apply Pos2Z.pos_le_pos in Hle.
  rewrite Pos2Z.inj_pow in Hgt, Hle.
  replace (Z.pos (Pos.size p)) with (Z.succ (Z.pos (Pos.size p) - 1)) in Hle by lia.
  rewrite Z.pow_succ_r in Hle by lia.
  change (Z.pos p~0) with (2 * Z.pos p) in Hle. lia.
Qed.

Lemma shr_1_m r : 0 <= shr_m r -> shr_m (shr_1 r) = shr_m r / 2.
Proof.
  destruct r as [m r s]; simpl. intros Hm.
  destruct m as [|q|q]; [reflexivity| |lia].
  destruct q as [q|q|]; simpl.
  - change (Z.pos q~1) with (2 * Z.pos q + 1).
    apply (Z.div_unique_pos _ _ _ 1); lia.
  - change (Z.pos q~0) with (2 * Z.pos q).
    apply (Z.div_unique_pos _ _ _ 0); lia.
  - reflexivity.
Qed.

Lemma iter_shr_1_m p : forall r,
  0 <= shr_m r ->
  shr_m (SpecFloat.iter_pos shr_1 p r) = shr_m r / 2 ^ Z.pos p.
Proof.
  assert (Hnn : forall r, 0 <= shr_m r -> 0 <= shr_m (shr_1 r)).
  { intros r Hr. rewrite shr_1_m by assumption. apply Z.div_pos; lia. }
  induction p as [p IH|p IH|]; intros r Hr; cbn [SpecFloat.iter_pos].
  - rewrite IH, IH, shr_1_m; try assumption.
    + change (Z.pos p~1) with (2 * Z.pos p + 1).
      replace (2 * Z.pos p + 1) with (1 + Z.pos p + Z.pos p) by lia.
      rewrite !Z.pow_add_r by lia. rewrite !Z.div_div by lia.
      f_equal. change (2 ^ 1) with 2. lia.
    + now apply Hnn.
    + rewrite IH by now apply Hnn. apply Z.div_pos; [now apply Hnn | lia].
  - rewrite IH, IH; try assumption.
    + change (Z.pos p~0) with (2 * Z.pos p).
      replace (2 * Z.pos p) with (Z.pos p + Z.pos p) by lia.
      rewrite !Z.pow_add_r by lia. rewrite !Z.div_div by lia. reflexivity.
    + rewrite IH by assumption. apply Z.div_pos; [assumption | lia].
  - rewrite shr_1_m by assumption. reflexivity.
Qed.

Lemma fexp_eq e : fexp e = Z.max (e - 53) (-1074).
Proof. reflexivity. Qed.

Lemma Zdigits2_bounds m :
  0 <= m ->
  0 <= Zdigits2 m /\ m < 2 ^ Zdigits2 m
  /\ (0 < m -> 2 ^ (Zdigits2 m - 1) <= m).
Proof.
  intros Hm. destruct m as [|p|p]; simpl; [lia | | lia].
  pose proof (digits2_bounds p). lia.
Qed.

Lemma shr_fexp_spec m e l r' e' :
  0 <= m ->
  shr_fexp F64.prec F64.emax m e l = (r', e') ->
  e' = Z.max e (fexp (Zdigits2 m + e))
  /\ shr_m r' = m / 2 ^ (e' - e).
Proof.
  intros Hm. unfold shr_fexp, shr.
  assert (Hrec : shr_m (shr_record_of_loc m l) = m)
    by (destruct l as [|[]]; reflexivity).
  destruct (fexp (Zdigits2 m + e) - e) as [|p|p] eqn:Hn;
    intros H; injection H as <- <-.
  - split; [lia|]. rewrite Hrec, Z.sub_diag, Z.pow_0_r, Z.div_1_r. reflexivity.
  - split; [lia|]. rewrite iter_shr_1_m by (rewrite Hrec; exact Hm).
    rewrite Hrec. f_equal. f_equal. lia.
  - split; [lia|]. rewrite Hrec, Z.sub_diag, Z.pow_0_r, Z.div_1_r. reflexivity.
Qed.

Lemma round_nearest_even_bounds m l :
  m <= round_nearest_even m l <= m + 1.
Proof.
  unfold round_nearest_even. destruct l as [|[]]; try lia.
  destruct (Z.even m); lia.
Qed.

Lemma bpow_le a b : a <= b -> (bpow a <= bpow b)%R.
Proof.
  intros H. replace b with (a + (b - a)) by lia. rewrite bpow_plus.
  rewrite (bpow_IZR (b - a)) by lia.
  assert (1 <= 2 ^ (b - a)) by (apply Z.lt_pred_le, Z.pow_pos_nonneg; lia).
  apply IZR_le in H0. pose proof (bpow_pos a). nra.
Qed.

Lemma mval_div_le m e k :
  0 <= m -> 0 <= k -> (mval (m / 2 ^ k) (e + k) <= mval m e)%R.
Proof.
  intros Hm Hk. unfold mval. rewrite bpow_plus, (bpow_IZR k) by assumption.
  assert (Hp : 0 < 2 ^ k) by (apply Z.pow_pos_nonneg; lia).
  assert (Hd : m / 2 ^ k * 2 ^ k <= m).
  { pose proof (Z.mul_div_le m (2 ^ k) Hp). lia. }
  apply IZR_le in Hd. rewrite mult_IZR in Hd.
  pose proof (bpow_pos e). 
  replace (IZR (m / 2 ^ k) * (bpow e * IZR (2 ^ k)))%R
    with ((IZR (m / 2 ^ k) * IZR (2 ^ k)) * bpow e)%R by ring.
  nra.
Qed.

Lemma binary_round_aux_bound sx mx ex lx :
  0 <= mx ->
  Z.max ex (fexp (Zdigits2 mx + ex)) + 1 <= 971 ->
  binary_round_aux F64.prec F64.emax sx mx ex lx = S754_zero sx
  \/ exists m2 e2,
       binary_round_aux F64.prec F64.emax sx mx ex lx = S754_finite sx m2 e2
       /\ (mval (Z.pos m2) e2
           <= mval mx ex + bpow (Z.max ex (fexp (Zdigits2 mx + ex))))%R.
Proof.
  intros Hmx Hov. unfold binary_round_aux.
  destruct (shr_fexp F64.prec F64.emax mx ex lx) as [r1 e1] eqn:H1.
  apply shr_fexp_spec in H1 as [He1 Hm1]; [|assumption].
  set (m1' := round_nearest_even (shr_m r1) (loc_of_shr_record r1)).
  pose proof (round_nearest_even_bounds (shr_m r1) (loc_of_shr_record r1))
    as Hrne. fold m1' in Hrne.
  destruct (Zdigits2_bounds mx Hmx) as (HD0 & HDu & HDl).
  assert (Hm1nn : 0 <= shr_m r1).
  { rewrite Hm1. apply Z.div_pos; [assumption|]. apply Z.pow_pos_nonneg; lia. }
  assert (Hm1lt : shr_m r1 < 2 ^ 53).
  { rewrite Hm1. apply Z.div_lt_upper_bound; [apply Z.pow_pos_nonneg; lia|].
    rewrite <- Z.pow_add_r by (rewrite fexp_eq in He1; lia).
    eapply Z.lt_le_trans; [exact HDu|].
    apply Z.pow_le_mono_r; [lia|]. rewrite fexp_eq in He1. lia. }
  destruct (shr_fexp F64.prec F64.emax m1' e1 loc_Exact) as [r2 e2] eqn:H2.
  apply shr_fexp_spec in H2 as [He2 Hm2]; [|lia].
  destruct (Zdigits2_bounds m1' ltac:(lia)) as (HD0' & HDu' & HDl').
  assert (HD' : Zdigits2 m1' <= 54).
  { destruct (Z.eq_dec m1' 0) as [->|Hnz]; [simpl; lia|].
    specialize (HDl' ltac:(lia)).
    assert (2 ^ (Zdigits2 m1' - 1) < 2 ^ 54).
    { eapply Z.le_lt_trans; [exact HDl'|].
      eapply Z.le_lt_trans with (2 ^ 53); [lia|].
      apply Z.pow_lt_mono_r; lia. }
    apply Z.pow_lt_mono_r_iff in H; lia. }
  assert (He2le : e2 <= 971) by (rewrite fexp_eq in He2; lia).
  assert (He12 : e1 <= e2) by lia.
  assert (Hval : (mval (shr_m r2) e2 <= mval mx ex + bpow e1)%R).
  { rewrite Hm2. replace e2 with (e1 + (e2 - e1)) at 2 by lia.
    eapply Rle_trans; [apply mval_div_le; lia|].
    unfold mval.
    assert (Hle1 : (IZR m1' <= IZR (shr_m r1) + 1)%R).
    { destruct Hrne as [_ Hr]. apply IZR_le in Hr. rewrite plus_IZR in Hr.
      exact Hr. }
    assert (Hle2 : (mval (shr_m r1) e1 <= mval mx ex)%R).
    { rewrite Hm1. replace e1 with (ex + (e1 - ex)) at 2 by lia.
      apply mval_div_le; lia. }
    unfold mval in Hle2. pose proof (bpow_pos e1). nra. }
  assert (Hm2nn : 0 <= shr_m r2).
  { rewrite Hm2. apply Z.div_pos; [lia|]. apply Z.pow_pos_nonneg; lia. }
  destruct (shr_m r2) as [|m2|m2] eqn:Hr2; [now left | | lia].
  right. exists m2, e2.
  replace (e2 <=? F64.emax - F64.prec) with true
    by (symmetry; apply Z.leb_le; unfold F64.emax, F64.prec; lia).
  split; [reflexivity|]. subst e1. exact Hval.
Qed.

Lemma bpow_le_inv a b : (bpow a <= bpow b)%R -> a <= b.
Proof.
  intros H. destruct (Z_le_gt_dec a b) as [Hle|Hgt]; [exact Hle|].
  assert (Hb : (bpow (b + 1) <= bpow a)%R) by (apply bpow_le; lia).
  rewrite bpow_plus in Hb.
  replace (bpow 1) with 2%R in Hb by (unfold bpow; simpl; ring).
  pose proof (bpow_pos b). lra.
Qed.

Lemma mval_nonneg m e : 0 <= m -> (0 <= mval m e)%R.
Proof.
  intros Hm. unfold mval. apply IZR_le in Hm. pose proof (bpow_pos e). nra.
Qed.

Lemma mval_digits_le m e :
  0 < m -> (bpow (Zdigits2 m - 1 + e) <= mval m e)%R.
Proof.
  intros Hm. destruct (Zdigits2_bounds m ltac:(lia)) as (HD0 & _ & HDl).
  specialize (HDl Hm). unfold mval. rewrite bpow_plus.
  assert (0 <= Zdigits2 m - 1).
  { destruct m; simpl in *; lia. }
  rewrite (bpow_IZR (Zdigits2 m - 1)) by assumption.
  apply IZR_le in HDl. pose proof (bpow_pos e). nra.
Qed.

(** The error term of a rounding, against the value rounded. *)
Lemma round_error_bound M E :
  0 <= M -> E <= 100 -> (mval M E <= bpow 20)%R ->
  Z.max E (fexp (Zdigits2 M + E)) + 1 <= 971
  /\ (bpow (Z.max E (fexp (Zdigits2 M + E)))
      <= bpow E + mval M E * eps + tiny)%R.
Proof.
  intros HM HE Hv. rewrite fexp_eq.
  pose proof (bpow_pos E) as HbE. pose proof (bpow_pos (-1074)) as Ht.
  pose proof (mval_nonneg M E HM) as Hvn.
  assert (Heps : (0 < eps)%R) by apply bpow_pos.
  destruct (Z.eq_dec M 0) as [->|Hnz].
  - simpl Zdigits2. split; [lia|].
    destruct (Z.max_spec E (Z.max (0 + E - 53) (-1074))) as [[_ ->]|[_ ->]].
    + destruct (Z.max_spec (0 + E - 53) (-1074)) as [[_ ->]|[_ ->]];
        unfold tiny; [nra|].
      assert (bpow (0 + E - 53) <= bpow E)%R by (apply bpow_le; lia).
      unfold tiny. nra.
    + unfold tiny; nra.
  - pose proof (mval_digits_le M E ltac:(lia)) as Hd.
    assert (HDE : Zdigits2 M - 1 + E <= 20).
    { apply bpow_le_inv. lra. }
    split; [lia|].
    assert (Hrel : (bpow (Zdigits2 M + E - 53) <= mval M E * eps)%R).
    { replace (Zdigits2 M + E - 53) with ((Zdigits2 M - 1 + E) + (-52)) by lia.
      rewrite bpow_plus. fold eps. nra. }
    destruct (Z.max_spec E (Z.max (Zdigits2 M + E - 53) (-1074))) as [[_ ->]|[_ ->]].
    + destruct (Z.max_spec (Zdigits2 M + E - 53) (-1074)) as [[_ ->]|[_ ->]];
        unfold tiny; nra.
    + unfold tiny; nra.
Qed.

Lemma nonneg_val x : nonneg x -> (0 <= val x)%R.
Proof.
  destruct x as [[]| | |[] m e]; simpl; try tauto; try lra.
  intros _. apply mval_nonneg. lia.
Qed.

(** Rounding a non-negative value that is not huge: the result is
    non-negative and exceeds the value by the error term at most. *)
Lemma round_nonneg_bound M E l :
  0 <= M -> E <= 100 -> (mval M E <= bpow 20)%R ->
  nonneg (binary_round_aux F64.prec F64.emax false M E l)
  /\ (val (binary_round_aux F64.prec F64.emax false M E l)
      <= mval M E + (bpow E + mval M E * eps + tiny))%R.
Proof.
  intros HM HE Hv.
  destruct (round_error_bound M E HM HE Hv) as [Hov Herr].
  pose proof (mval_nonneg M E HM) as Hvn.
  pose proof (bpow_pos E). assert (0 < eps)%R by apply bpow_pos.
  assert (0 < tiny)%R by apply bpow_pos.
  destruct (binary_round_aux_bound false M E l HM Hov)
    as [-> | (m2 & e2 & -> & Hb)]; simpl.
  - split; [exact I | nra].
  - split; [exact I | lra].
Qed.

Lemma mval_mul m1 e1 m2 e2 :
  mval (m1 * m2) (e1 + e2) = (mval m1 e1 * mval m2 e2)%R.
Proof. unfold mval. rewrite mult_IZR, bpow_plus. ring. Qed.

Lemma mval_ge_bpow m e : 0 < m -> (bpow e <= mval m e)%R.
Proof.
  intros Hm. unfold mval. assert (1 <= m) by lia. apply IZR_le in H.
  pose proof (bpow_pos e). nra.
Qed.

Lemma eps_52 : (eps * IZR (2 ^ 52) = 1)%R.
Proof.
  unfold eps. rewrite <- (bpow_IZR 52) by lia. rewrite <- bpow_plus.
  reflexivity.
Qed.

(** Multiplying a non-negative float by a positive normal constant. *)
Lemma mul_const_bound x mc ec :
  nonneg x -> 2 ^ 52 <= Z.pos mc ->
  (val x * mval (Z.pos mc) ec <= bpow 20)%R ->
  nonneg (F64.mul x (S754_finite false mc ec))
  /\ (val (F64.mul x (S754_finite false mc ec))
      <= val x * mval (Z.pos mc) ec * (1 + 2 * eps) + tiny)%R.
Proof.
  intros Hx Hmc Hv.
  assert (Ht : (0 < tiny)%R) by apply bpow_pos.
  assert (He : (0 < eps)%R) by apply bpow_pos.
  destruct x as [[]| | |[] mx ex]; simpl in Hx; try tauto.
  - simpl. split; [exact I|]. lra.
  - unfold F64.mul. cbn [SFmul xorb]. simpl val in *.
    rewrite Pos2Z.inj_mul.
    assert (Hprod : mval (Z.pos mx * Z.pos mc) (ex + ec)
                    = (mval (Z.pos mx) ex * mval (Z.pos mc) ec)%R)
      by apply mval_mul.
    assert (HE : (bpow (ex + ec) <= mval (Z.pos mx * Z.pos mc) (ex + ec))%R)
      by (apply mval_ge_bpow; lia).
    assert (HE100 : ex + ec <= 100).
    { assert (ex + ec <= 20); [|lia]. apply bpow_le_inv. lra. }
    destruct (round_nonneg_bound (Z.pos mx * Z.pos mc) (ex + ec) loc_Exact)
      as [Hnn Hb]; [lia | exact HE100 | lra |].
    split; [exact Hnn|].
    assert (Hrel : (bpow (ex + ec)
                    <= mval (Z.pos mx * Z.pos mc) (ex + ec) * eps)%R).
    { unfold mval at 1.
      assert (Hbig : (IZR (2 ^ 52) <= IZR (Z.pos mx * Z.pos mc))%R)
        by (apply IZR_le; nia).
      pose proof (bpow_pos (ex + ec)). pose proof eps_52.
      assert (bpow (ex + ec)
              = IZR (2 ^ 52) * bpow (ex + ec) * eps)%R by nra.
      rewrite H1 at 1. nra. }
    rewrite Hprod in *. nra.
Qed.

(** Rounding with any sign: a zero or a finite number of that sign. *)
Lemma round_bound s M E l :
  0 <= M -> E <= 100 -> (mval M E <= bpow 20)%R ->
  binary_round_aux F64.prec F64.emax s M E l = S754_zero s
  \/ exists m2 e2,
       binary_round_aux F64.prec F64.emax s M E l = S754_finite s m2 e2
       /\ (mval (Z.pos m2) e2
           <= mval M E + (bpow E + mval M E * eps + tiny))%R.
Proof.
  intros HM HE Hv.
  destruct (round_error_bound M E HM HE Hv) as [Hov Herr].
  destruct (binary_round_aux_bound s M E l HM Hov)
    as [-> | (m2 & e2 & -> & Hb)]; [now left|].
  right. exists m2, e2. split; [reflexivity | lra].
Qed.

Lemma iter_xO m d : Z.pos (Pos.iter xO m d) = Z.pos m * 2 ^ Z.pos d.
Proof.
  induction d as [|d IH] using Pos.peano_ind.
  - simpl. lia.
  - rewrite Pos.iter_succ, Pos2Z.inj_succ, Z.pow_succ_r by lia.
    change (Z.pos (Pos.iter xO m d)~0) with (2 * Z.pos (Pos.iter xO m d)).
    rewrite IH. ring.
Qed.

Lemma shl_align_spec mx ex ex' m e :
  shl_align mx ex ex' = (m, e) ->
  e = Z.min ex ex' /\ Z.pos m = Z.pos mx * 2 ^ (ex - e).
Proof.
  unfold shl_align. destruct (ex' - ex) as [|d|d] eqn:Hd;
    intros H; injection H as <- <-.
  - split; [lia|]. rewrite Z.sub_diag. simpl. lia.
  - split; [lia|]. rewrite Z.sub_diag. simpl. lia.
  - split; [lia|]. rewrite iter_xO. f_equal. f_equal. lia.
Qed.

Lemma mval_shift m e k : 0 <= k -> mval (m * 2 ^ k) (e - k) = mval m e.
Proof.
  intros Hk. unfold mval. rewrite mult_IZR, <- (bpow_IZR k) by assumption.
  replace e with ((e - k) + k) at 2 by lia. rewrite bpow_plus. ring.
Qed.

Lemma binary_round_bound s m e :
  (mval (Z.pos m) e <= bpow 20)%R ->
  binary_round F64.prec F64.emax s m e = S754_zero s
  \/ exists m2 e2,
       binary_round F64.prec F64.emax s m e = S754_finite s m2 e2
       /\ (mval (Z.pos m2) e2
           <= mval (Z.pos m) e * (1 + 2 * eps) + 2 * tiny)%R.
Proof.
  intros Hv. unfold binary_round.
  destruct (shl_align m e _) as [mz ez] eqn:Ha.
  apply shl_align_spec in Ha as [Hez Hmz].
  change (SpecFloat.fexp F64.prec F64.emax) with fexp in *.
  assert (Hval : mval (Z.pos mz) ez = mval (Z.pos m) e).
  { rewrite Hmz. replace ez with (e - (e - ez)) at 2 by lia.
    apply mval_shift. lia. }
  pose proof (mval_digits_le (Z.pos m) e ltac:(lia)) as Hd.
  assert (HDE : Zdigits2 (Z.pos m) - 1 + e <= 20)
    by (apply bpow_le_inv; lra).
  assert (Ht : (0 < tiny)%R) by apply bpow_pos.
  assert (He : (0 < eps)%R) by apply bpow_pos.
  assert (Hbe : (bpow ez <= mval (Z.pos m) e * eps + tiny)%R).
  { eapply Rle_trans; [apply (bpow_le ez (fexp (Zdigits2 (Z.pos m) + e))); simpl Zdigits2 in *; lia|].
    rewrite fexp_eq.
    destruct (Z.max_spec (Zdigits2 (Z.pos m) + e - 53) (-1074)) as [[_ ->]|[_ ->]].
    - unfold tiny.
      pose proof (mval_nonneg (Z.pos m) e ltac:(lia)). nra.
    - replace (Zdigits2 (Z.pos m) + e - 53)
        with ((Zdigits2 (Z.pos m) - 1 + e) + (-52)) by lia.
      rewrite bpow_plus. fold eps. nra. }
  destruct (round_bound s (Z.pos mz) ez loc_Exact)
    as [-> | (m2 & e2 & -> & Hb)];
    [lia | rewrite fexp_eq in Hez; simpl Zdigits2 in *; lia | lra | now left |].
  right. exists m2, e2. split; [reflexivity|]. rewrite Hval in Hb. lra.
Qed.

Lemma mval_le_inv m1 m2 e : (mval m1 e <= mval m2 e)%R -> m1 <= m2.
Proof.
  unfold mval. intros H. apply le_IZR. pose proof (bpow_pos e). nra.
Qed.

(** Subtracting a float from one of the same sign and of no smaller
    magnitude. *)
Lemma sub_same_sign s mx ex my ey :
  (mval (Z.pos my) ey <= mval (Z.pos mx) ex)%R ->
  (mval (Z.pos mx) ex <= bpow 20)%R ->
  F64.sub (S754_finite s mx ex) (S754_finite s my ey) = S754_zero false
  \/ F64.sub (S754_finite s mx ex) (S754_finite s my ey) = S754_zero s
  \/ exists m2 e2,
       F64.sub (S754_finite s mx ex) (S754_finite s my ey)
       = S754_finite s m2 e2
       /\ (mval (Z.pos m2) e2
           <= (mval (Z.pos mx) ex - mval (Z.pos my) ey) * (1 + 2 * eps)
              + 2 * tiny)%R.
Proof.
  intros Hle Hv. unfold F64.sub. cbn [SFsub].
  destruct (shl_align mx ex (Z.min ex ey)) as [mx' ex'] eqn:Hx.
  destruct (shl_align my ey (Z.min ex ey)) as [my' ey'] eqn:Hy.
  apply shl_align_spec in Hx as [Hex Hmx]. apply shl_align_spec in Hy as [Hey Hmy].
  cbn [fst].
  assert (Hvx : mval (Z.pos mx') (Z.min ex ey) = mval (Z.pos mx) ex).
  { rewrite Hmx. replace (Z.min ex ey) with (ex - (ex - ex')) at 1 by lia.
    apply mval_shift. lia. }
  assert (Hvy : mval (Z.pos my') (Z.min ex ey) = mval (Z.pos my) ey).
  { rewrite Hmy. replace (Z.min ex ey) with (ey - (ey - ey')) at 1 by lia.
    apply mval_shift. lia. }
  assert (HD : Z.pos my' <= Z.pos mx').
  { apply (mval_le_inv _ _ (Z.min ex ey)). lra. }
  assert (Hdiff : forall m, Z.pos m = Z.pos mx' - Z.pos my' ->
            mval (Z.pos m) (Z.min ex ey)
            = (mval (Z.pos mx) ex - mval (Z.pos my) ey)%R).
  { intros m Hm. rewrite <- Hvx, <- Hvy, Hm. unfold mval.
    rewrite minus_IZR. ring. }
  assert (Hcase : Z.pos mx' - Z.pos my' = 0
                  \/ exists m, Z.pos m = Z.pos mx' - Z.pos my').
  { destruct (Z.pos mx' - Z.pos my') as [|m|m] eqn:Hd; [now left| |lia].
    right. now exists m. }
  pose proof (mval_nonneg (Z.pos my) ey ltac:(lia)) as Hyn.
  destruct s; cbn [cond_Zopp].
  - destruct Hcase as [H0 | [m Hm]].
    + replace (- Z.pos mx' - - Z.pos my') with 0 by lia. now left.
    + replace (- Z.pos mx' - - Z.pos my') with (Z.neg m) by lia.
      cbn [binary_normalize].
      destruct (binary_round_bound true m (Z.min ex ey))
        as [-> | (m2 & e2 & -> & Hb)];
        [rewrite (Hdiff m Hm); lra | now right; left |].
      right; right. exists m2, e2. split; [reflexivity|].
      now rewrite (Hdiff m Hm) in Hb.
  - destruct Hcase as [H0 | [m Hm]].
    + rewrite H0. now left.
    + rewrite <- Hm. cbn [binary_normalize].
      destruct (binary_round_bound false m (Z.min ex ey))
        as [-> | (m2 & e2 & -> & Hb)];
        [rewrite (Hdiff m Hm); lra | now left |].
      right; right. exists m2, e2. split; [reflexivity|].
      now rewrite (Hdiff m Hm) in Hb.
Qed.

Lemma mval_int m n k : 0 <= k -> m = n * 2 ^ k -> mval m (- k) = IZR n.
Proof.
  intros Hk ->. replace (- k) with (0 - k) by lia.
  rewrite mval_shift by assumption. unfold mval, bpow. simpl. ring.
Qed.

Lemma val_f180 : mval 6333186975989760 (-45) = 180%R.
Proof. apply (mval_int _ 180 45); [lia | reflexivity]. Qed.

Lemma bpow_m8 : (bpow (-8) * 256 = 1)%R.
Proof.
  replace 256%R with (bpow 8) by (rewrite (bpow_IZR 8) by lia; reflexivity).
  rewrite <- bpow_plus. reflexivity.
Qed.

(** Dividing a non-negative float by 180. *)
Lemma div_180_bound x :
  nonneg x -> (val x <= bpow 20)%R ->
  nonneg (F64.div x f180)
  /\ (val (F64.div x f180) <= val x / 180 * (1 + 2 * eps) + 2 * tiny)%R.
Proof.
  intros Hx Hv.
  assert (Ht : (0 < tiny)%R) by apply bpow_pos.
  assert (He : (0 < eps)%R) by apply bpow_pos.
  destruct x as [[]| | |[] mx ex]; simpl in Hx; try tauto.
  - simpl. split; [exact I|]. lra.
  - unfold F64.div, f180. cbn [SFdiv xorb]. simpl val in *.
    unfold SFdiv_core_binary.
    change (SpecFloat.fexp F64.prec F64.emax) with fexp.
    change (Zdigits2 6333186975989760) with 53.
    set (d1 := Zdigits2 (Z.pos mx)).
    set (e' := Z.min (fexp (d1 + ex - (53 + -45))) (ex - -45)).
    set (s := ex - -45 - e').
    assert (Hs : 0 <= s) by (unfold s, e'; lia).
    set (m' := match s with
               | 0 => Z.pos mx
               | Z.pos _ => Z.shiftl (Z.pos mx) s
               | Z.neg _ => 0
               end).
    assert (Hm' : m' = Z.pos mx * 2 ^ s).
    { unfold m'. destruct s as [|p|p] eqn:Hsp; [simpl; lia | | lia].
      apply Z.shiftl_mul_pow2. lia. }
    destruct (Z.div_eucl m' 6333186975989760) as [q r] eqn:Hqr.
    pose proof (Z_div_mod m' 6333186975989760 ltac:(lia)) as Hdm.
    rewrite Hqr in Hdm. destruct Hdm as [Hdm Hr].
    assert (Hq : 0 <= q) by nia.
    pose proof (mval_digits_le (Z.pos mx) ex ltac:(lia)) as Hd. fold d1 in Hd.
    assert (Hd20 : d1 - 1 + ex <= 20) by (apply bpow_le_inv; lra).
    assert (Hquot : (mval q e' * 180 <= mval (Z.pos mx) ex)%R).
    { rewrite <- val_f180, <- mval_mul.
      replace (mval (Z.pos mx) ex) with (mval m' (e' + -45)).
      - unfold mval. apply Rmult_le_compat_r; [left; apply bpow_pos|].
        apply IZR_le. nia.
      - rewrite Hm'. replace (e' + -45) with (ex - s) by (unfold s; lia).
        now apply mval_shift. }
    assert (Hbe : (bpow e' <= mval (Z.pos mx) ex / 180 * eps + tiny)%R).
    { eapply Rle_trans;
        [apply (bpow_le e' (fexp (d1 + ex - (53 + -45)))); unfold e'; lia|].
      rewrite fexp_eq.
      pose proof (mval_nonneg (Z.pos mx) ex ltac:(lia)).
      destruct (Z.max_spec (d1 + ex - (53 + -45) - 53) (-1074)) as [[_ ->]|[_ ->]].
      - unfold tiny. nra.
      - replace (d1 + ex - (53 + -45) - 53)
          with ((d1 - 1 + ex) + ((-52) + (-8))) by lia.
        rewrite (bpow_plus (d1 - 1 + ex)), (bpow_plus (-52)). fold eps.
        assert (H8 : bpow (-8) = (/ 256)%R)
          by (pose proof bpow_m8; apply Rmult_eq_reg_r with 256%R; lra).
        rewrite H8.
        assert (Hae : (bpow (d1 - 1 + ex) * eps <= mval (Z.pos mx) ex * eps)%R)
          by (apply Rmult_le_compat_r; lra).
        pose proof (bpow_pos (d1 - 1 + ex)).
        assert (0 <= bpow (d1 - 1 + ex) * eps)%R by nra.
        lra. }
    pose proof (mval_nonneg q e' Hq) as Hqn.
    destruct (round_nonneg_bound q e' (new_location 6333186975989760 r))
      as [Hnn Hb]; [exact Hq | | lra |].
    { unfold e'. rewrite fexp_eq. lia. }
    split; [exact Hnn|]. nra.
Qed.

Lemma exact_int_all : forallb exact_int (map Z.of_nat (seq 0 128)) = true.
Proof. vm_compute. reflexivity. Qed.

Lemma in_range_list (P : Z -> bool) (n : nat) :
  forallb P (map Z.of_nat (seq 0 n)) = true ->
  forall q, 0 <= q < Z.of_nat n -> P q = true.
Proof.
  intros Hall q Hq. rewrite forallb_forall in Hall. apply Hall.
  apply in_map_iff. exists (Z.to_nat q). split; [lia|].
  apply in_seq. lia.
Qed.

Lemma of_Z_exact q :
  0 <= q < 128 ->
  nonneg (F64.of_Z q) /\ val (F64.of_Z q) = IZR q.
Proof.
  intros Hq. pose proof (in_range_list exact_int 128 exact_int_all q Hq) as H.
  unfold exact_int in H.
  destruct (F64.of_Z q) as [[]| | |[] m e]; try discriminate.
  - apply Z.eqb_eq in H. subst q. simpl. split; [exact I | reflexivity].
  - apply andb_true_iff in H as [He Hm].
    apply Z.leb_le in He. apply Z.eqb_eq in Hm. simpl. split; [exact I|].
    replace e with (- (- e)) by lia. apply mval_int; [lia | exact Hm].
Qed.

Lemma floor_bound x :
  nonneg x -> (val x < 128)%R ->
  nonneg (F64.floor x)
  /\ exists n : Z,
       0 <= n < 128 /\ val (F64.floor x) = IZR n
       /\ (IZR n <= val x < IZR n + 1)%R.
Proof.
  intros Hx Hv.
  destruct x as [[]| | |[] m e]; simpl in Hx; try tauto.
  - simpl. split; [exact I|]. exists 0. simpl. split; [lia|]. split; [reflexivity | lra].
  - cbn [F64.floor]. simpl val in Hv. destruct (Z.leb_spec 0 e) as [He|He].
    + split; [exact I|]. exists (Z.pos m * 2 ^ e).
      assert (Hval : mval (Z.pos m) e = IZR (Z.pos m * 2 ^ e)).
      { unfold mval. now rewrite mult_IZR, bpow_IZR. }
      simpl val. rewrite Hval in *. split; [|split; [reflexivity | lra]].
      split; [nia|]. apply lt_IZR. exact Hv.
    + set (d := 2 ^ (- e)).
      assert (Hd : 0 < d) by (apply Z.pow_pos_nonneg; lia).
      pose proof (Z.div_mod (Z.pos m) d ltac:(lia)) as Hdm.
      pose proof (Z.mod_pos_bound (Z.pos m) d Hd) as Hr.
      assert (Hq0 : 0 <= Z.pos m / d) by (apply Z.div_pos; lia).
      assert (Hval : (mval (Z.pos m) e * IZR d = IZR (Z.pos m))%R).
      { unfold mval, d. rewrite <- (bpow_IZR (- e)) by lia.
        rewrite Rmult_assoc, <- bpow_plus. replace (e + - e) with 0 by lia.
        unfold bpow. simpl. ring. }
      assert (HdR : (0 < IZR d)%R) by (apply IZR_lt; exact Hd).
      assert (Hlo : (IZR (Z.pos m / d) <= mval (Z.pos m) e)%R).
      { apply Rmult_le_reg_r with (IZR d); [exact HdR|].
        rewrite Hval, <- mult_IZR. apply IZR_le. nia. }
      assert (Hhi : (mval (Z.pos m) e < IZR (Z.pos m / d) + 1)%R).
      { apply Rmult_lt_reg_r with (IZR d); [exact HdR|].
        rewrite Hval. replace 1%R with (IZR 1) by reflexivity.
        rewrite <- plus_IZR, <- mult_IZR. apply IZR_lt. nia. }
      assert (Hq : 0 <= Z.pos m / d < 128).
      { split; [exact Hq0|]. apply lt_IZR. lra. }
      change (binary_normalize F64.prec F64.emax (Z.pos m / d) 0 false)
        with (F64.of_Z (Z.pos m / d)).
      destruct (of_Z_exact _ Hq) as [Hnn Hex].
      split; [exact Hnn|]. exists (Z.pos m / d).
      split; [exact Hq|]. split; [exact Hex|]. simpl val. lra.
Qed.

Lemma mval_pos m e : 0 < m -> (0 < mval m e)%R.
Proof.
  intros Hm. unfold mval. apply IZR_lt in Hm. pose proof (bpow_pos e). nra.
Qed.

Lemma sub_nonneg_bound x y :
  nonneg x -> nonneg y -> (val y <= val x)%R -> (val x <= bpow 20)%R ->
  nonneg (F64.sub x y)
  /\ (val (F64.sub x y) <= (val x - val y) * (1 + 2 * eps) + 2 * tiny)%R.
Proof.
  intros Hx Hy Hle Hv.
  assert (Ht : (0 < tiny)%R) by apply bpow_pos.
  assert (He : (0 < eps)%R) by apply bpow_pos.
  destruct x as [[]| | |[] mx ex]; simpl in Hx; try tauto;
    destruct y as [[]| | |[] my ey]; simpl in Hy; try tauto.
  - unfold F64.sub; cbn [SFsub val nonneg]. split; [exact I | nra].
  - cbn [val] in Hle. pose proof (mval_pos (Z.pos my) ey ltac:(lia)). lra.
  - unfold F64.sub; cbn [SFsub val nonneg]. split; [exact I|].
    pose proof (mval_pos (Z.pos mx) ex ltac:(lia)). nra.
  - cbn [val] in *.
    destruct (sub_same_sign false mx ex my ey Hle Hv)
      as [-> | [-> | (m2 & e2 & -> & Hb)]]; cbn [val nonneg].
    + split; [exact I | nra].
    + split; [exact I | nra].
    + split; [exact I | exact Hb].
Qed.

Lemma eps_small : (0 < eps <= / 1024)%R.
Proof.
  split; [apply bpow_pos|].
  assert (H10 : bpow (-10) = (/ 1024)%R).
  { apply Rmult_eq_reg_r with (bpow 10); [|pose proof (bpow_pos 10); lra].
    rewrite <- bpow_plus. rewrite (bpow_IZR 10) by lia. simpl. lra. }
  rewrite <- H10. apply bpow_le. lia.
Qed.

Lemma tiny_small : (0 < tiny <= / 1024)%R.
Proof.
  split; [apply bpow_pos|].
  assert (H10 : bpow (-10) = (/ 1024)%R).
  { apply Rmult_eq_reg_r with (bpow 10); [|pose proof (bpow_pos 10); lra].
    rewrite <- bpow_plus. rewrite (bpow_IZR 10) by lia. simpl. lra. }
  rewrite <- H10. apply bpow_le. lia.
Qed.

Lemma bpow_20 : bpow 20 = 1048576%R.
Proof. rewrite (bpow_IZR 20) by lia. reflexivity. Qed.

Lemma val_f60 : mval 8444249301319680 (-47) = 60%R.
Proof. apply (mval_int _ 60 47); [lia | reflexivity]. Qed.

Lemma val_f12 : mval 6755399441055744 (-49) = 12%R.
Proof. apply (mval_int _ 12 49); [lia | reflexivity]. Qed.

(** Multiplying by 60 and by 12. *)
Lemma mul_60_bound x :
  nonneg x -> (val x <= 2)%R ->
  nonneg (F64.mul x f60) /\ (val (F64.mul x f60) <= val x * 60 + 1 / 2)%R.
Proof.
  intros Hx Hv. pose proof (nonneg_val x Hx) as H0.
  pose proof eps_small. pose proof tiny_small.
  destruct (mul_const_bound x 8444249301319680 (-47) Hx ltac:(lia)) as [Hn Hb].
  - rewrite val_f60, bpow_20. lra.
  - rewrite val_f60 in Hb. split; [exact Hn|]. fold f60 in Hb. nra.
Qed.

Lemma mul_12_bound x :
  nonneg x -> (val x <= 360)%R ->
  nonneg (F64.mul x f12) /\ (val (F64.mul x f12) <= 4330)%R.
Proof.
  intros Hx Hv. pose proof (nonneg_val x Hx) as H0.
  pose proof eps_small. pose proof tiny_small.
  destruct (mul_const_bound x 6755399441055744 (-49) Hx ltac:(lia)) as [Hn Hb].
  - rewrite val_f12, bpow_20. lra.
  - rewrite val_f12 in Hb. split; [exact Hn|]. fold f12 in Hb. nra.
Qed.

(** The fractional part, in sixtieths: [(t - floor t) * 60]. *)
Lemma frac60_bound t :
  nonneg t -> (val t < 128)%R ->
  nonneg (F64.mul (F64.sub t (F64.floor t)) f60)
  /\ (val (F64.mul (F64.sub t (F64.floor t)) f60) < 61)%R.
Proof.
  intros Ht Hv. pose proof eps_small. pose proof tiny_small.
  destruct (floor_bound t Ht Hv) as (Hfn & n & Hn & Hfv & Hlo & Hhi).
  destruct (sub_nonneg_bound t (F64.floor t) Ht Hfn) as [Hsn Hsv].
  - lra.
  - rewrite bpow_20. lra.
  - rewrite Hfv in Hsv.
    assert (Hs2 : (val (F64.sub t (F64.floor t)) <= 1 + 1 / 256)%R) by nra.
    destruct (mul_60_bound _ Hsn) as [Hmn Hmv]; [lra|].
    split; [exact Hmn | lra].
Qed.

Lemma valid_mantissa s m e :
  F64.valid (S754_finite s m e) = true ->
  Z.pos m < 2 ^ 53 /\ (-1074 < e -> 2 ^ 52 <= Z.pos m).
Proof.
  unfold F64.valid, valid_binary, bounded, canonical_mantissa.
  intros H. apply andb_true_iff in H as [Hc _]. apply Z.eqb_eq in Hc.
  change (SpecFloat.fexp F64.prec F64.emax) with fexp in Hc.
  rewrite fexp_eq in Hc.
  pose proof (digits2_bounds m) as [Hlo Hhi].
  split.
  - eapply Z.lt_le_trans; [exact Hhi|]. apply Z.pow_le_mono_r; lia.
  - intros He. replace (Z.pos (digits2_pos m)) with 53 in Hlo by lia.
    exact Hlo.
Qed.

Lemma mval_lt_exp m e k B :
  Z.pos m < 2 ^ 53 -> e <= k -> (mval (2 ^ 53) k <= B)%R ->
  (mval (Z.pos m) e < B)%R.
Proof.
  intros Hm He HB. unfold mval in *.
  apply IZR_lt in Hm. pose proof (bpow_le e k He). pose proof (bpow_pos e).
  assert (0 < IZR (Z.pos m))%R by (apply IZR_lt; lia).
  nra.
Qed.

Lemma val_f360 : mval 6333186975989760 (-44) = 360%R.
Proof. apply (mval_int _ 360 44); [lia | reflexivity]. Qed.

Lemma val_f90 : mval 6333186975989760 (-46) = 90%R.
Proof. apply (mval_int _ 90 46); [lia | reflexivity]. Qed.

Lemma compare_cont_lt (m c : positive) :
  PosDef.Pos.compare_cont Eq m c = Lt -> Z.pos m < Z.pos c.
Proof. intros H. apply Pos2Z.pos_lt_pos. exact H. Qed.

Lemma compare_cont_eq (m c : positive) :
  PosDef.Pos.compare_cont Eq m c = Eq -> m = c.
Proof. intros H. apply Pos.compare_eq. exact H. Qed.

(** What the range check on [ra] gives. *)
Lemma ra_in_range ra :
  F64.valid ra = true -> ra <> S754_zero true ->
  F64.leb f0 ra = true -> F64.ltb ra f360 = true ->
  nonneg ra /\ (val ra < 360)%R.
Proof.
  intros Hvalid Hnz Hle Hlt.
  destruct ra as [[]| [] | |[] m e]; try discriminate; try congruence.
  - cbn [nonneg val]. split; [exact I | lra].
  - split; [exact I|]. cbn [val].
    apply valid_mantissa in Hvalid as [Hm _].
    unfold F64.ltb, SFltb, f360 in Hlt. cbn [SFcompare] in Hlt.
    destruct (Z.compare_spec e (-44)) as [He|He|He]; try discriminate.
    + subst e. rewrite <- val_f360.
      destruct (PosDef.Pos.compare_cont Eq m _) eqn:Hc; try discriminate.
      apply compare_cont_lt in Hc.
      unfold mval. apply Rmult_lt_compat_r; [apply bpow_pos|].
      apply IZR_lt. exact Hc.
    + apply (mval_lt_exp m e (-45)); [exact Hm | lia |].
      rewrite (mval_int _ 256 45); [lra | lia | reflexivity].
Qed.

(** What the range check on [dec] gives: a zero, or a finite number of
    magnitude at most 90 with a negative exponent. *)
Lemma dec_in_range dec :
  F64.valid dec = true ->
  F64.leb fm90 dec = true -> F64.leb dec f90 = true ->
  (exists s, dec = S754_zero s)
  \/ exists s m e,
       dec = S754_finite s m e /\ (mval (Z.pos m) e <= 90)%R /\ e < 0.
Proof.
  intros Hvalid Hlo Hhi.
  destruct dec as [s| [] | |s m e]; try discriminate; [left; eauto|].
  right. exists s, m, e. split; [reflexivity|].
  apply valid_mantissa in Hvalid as [Hm Hnorm].
  assert (Hcmp : e < -46 \/ (e = -46 /\ Z.pos m <= Z.pos 6333186975989760)).
  { destruct s.
    - unfold F64.leb, SFleb, fm90 in Hlo. cbn [SFcompare] in Hlo.
      destruct (Z.compare_spec (-46) e) as [He|He|He]; try discriminate.
      + right. split; [lia|].
        destruct (PosDef.Pos.compare_cont Eq _ m) eqn:Hc; try discriminate.
        * apply compare_cont_eq in Hc. subst m. reflexivity.
        * apply Pos.compare_gt_iff in Hc. apply Pos2Z.pos_lt_pos in Hc.
          apply Z.lt_le_incl. exact Hc.
      + left. lia.
    - unfold F64.leb, SFleb, f90 in Hhi. cbn [SFcompare] in Hhi.
      destruct (Z.compare_spec e (-46)) as [He|He|He]; try discriminate.
      + right. split; [lia|].
        destruct (PosDef.Pos.compare_cont Eq m _) eqn:Hc; try discriminate.
        * apply compare_cont_eq in Hc. subst m. reflexivity.
        * apply compare_cont_lt in Hc. apply Z.lt_le_incl. exact Hc.
      + left. lia. }
  split; [|lia].
  destruct Hcmp as [He | [-> Hle]].
  - left. apply (mval_lt_exp m e (-47)); [exact Hm | lia |].
    rewrite (mval_int _ 64 47); [lra | lia | reflexivity].
  - rewrite <- val_f90. unfold mval.
    apply Rmult_le_compat_r; [left; apply bpow_pos|]. apply IZR_le. exact Hle.
Qed.

(** The scaled and rounded value stays within one of the scaled value. *)
Lemma scaled_round_bound m e p :
  0 <= scaled_round m e p
  /\ (IZR (scaled_round m e p)
      <= mval (Z.pos m) e * IZR (10 ^ Z.of_nat p) + 1)%R.
Proof.
  unfold scaled_round.
  assert (H10 : 0 < 10 ^ Z.of_nat p) by (apply Z.pow_pos_nonneg; lia).
  set (num := Z.pos m * 10 ^ Z.of_nat p).
  assert (Hnum : 0 < num) by (unfold num; nia).
  destruct (Z.leb_spec 0 e) as [He|He].
  - assert (0 < 2 ^ e) by (apply Z.pow_pos_nonneg; lia).
    split; [nia|]. unfold num, mval. rewrite !mult_IZR, (bpow_IZR e) by lia.
    lra.
  - set (den := 2 ^ (- e)).
    assert (Hden : 0 < den) by (apply Z.pow_pos_nonneg; lia).
    assert (Hq0 : 0 <= num / den) by (apply Z.div_pos; lia).
    assert (Hqle : num / den * den <= num).
    { pose proof (Z.mul_div_le num den Hden). lia. }
    assert (Hv : (IZR (num / den)
                  <= mval (Z.pos m) e * IZR (10 ^ Z.of_nat p))%R).
    { assert (Hvd : (mval (Z.pos m) e * IZR den = IZR (Z.pos m))%R).
      { unfold mval, den. rewrite <- (bpow_IZR (- e)) by lia.
        rewrite Rmult_assoc, <- bpow_plus. replace (e + - e) with 0 by lia.
        unfold bpow. simpl. ring. }
      assert (HdR : (0 < IZR den)%R) by (apply IZR_lt; exact Hden).
      apply Rmult_le_reg_r with (IZR den); [exact HdR|].
      replace (mval (Z.pos m) e * IZR (10 ^ Z.of_nat p) * IZR den)%R
        with (IZR (Z.pos m) * IZR (10 ^ Z.of_nat p))%R
        by (rewrite <- Hvd; ring).
      rewrite <- !mult_IZR. apply IZR_le. exact Hqle. }
    assert (Hcases :
      forall N, N = num / den \/ N = num / den + 1 ->
        0 <= N /\ (IZR N <= mval (Z.pos m) e * IZR (10 ^ Z.of_nat p) + 1)%R).
    { intros N [-> | ->]; (split; [lia|]).
      - lra.
      - rewrite plus_IZR. lra. }
    destruct (2 * (num mod den) ?= den); [destruct (Z.even (num / den))| |];
      apply Hcases; auto.
Qed.

Lemma match_here_app p1 l1 p2 l2 :
  fits p1 l1 = true ->
  match_here (p1 ++ p2) (l1 ++ l2) = match_here p2 l2.
Proof.
  unfold fits. revert l1. induction p1 as [|k p1 IH]; intros l1 H.
  - simpl in H. destruct l1; [reflexivity | discriminate].
  - destruct l1 as [|c l1]; simpl in *; [discriminate|].
    destruct (class_matches k c); [|discriminate]. now apply IH.
Qed.

Lemma fits_app p1 l1 p2 l2 :
  fits p1 l1 = true -> fits p2 l2 = true -> fits (p1 ++ p2) (l1 ++ l2) = true.
Proof.
  intros H1 H2. unfold fits. rewrite (match_here_app _ _ _ _ H1). exact H2.
Qed.

Lemma fits_2_all :
  forallb (fun n => fits pat_2 (pad_zeros 2 (fixed_body n 0)))
          (map Z.of_nat (seq 0 100)) = true.
Proof. vm_compute. reflexivity. Qed.

Lemma fits_5_2_all :
  forallb (fun n => fits pat_5_2 (pad_zeros 5 (fixed_body n 2)))
          (map Z.of_nat (seq 0 (100 * 100))) = true.
Proof. vm_compute. reflexivity. Qed.

Lemma fits_4_1_all :
  forallb (fun n => fits pat_4_1 (pad_zeros 4 (fixed_body n 1)))
          (map Z.of_nat (seq 0 1000)) = true.
Proof. vm_compute. reflexivity. Qed.

(** The format of a non-negative float whose scaled value is below [B],
    when all of [0 .. B-1] have the shape. *)
Lemma format_nonneg_shape pat (w p B : nat) x :
  forallb (fun n => fits pat (pad_zeros w (fixed_body n p)))
          (map Z.of_nat (seq 0 B)) = true ->
  nonneg x ->
  (val x * IZR (10 ^ Z.of_nat p) + 1 < IZR (Z.of_nat B))%R ->
  fits pat (format_f false w p x) = true.
Proof.
  intros Hall Hx Hv.
  pose proof (in_range_list _ B Hall) as Hin. cbv beta in Hin.
  assert (H10 : (0 < IZR (10 ^ Z.of_nat p))%R).
  { apply IZR_lt. apply Z.pow_pos_nonneg; lia. }
  pose proof (nonneg_val x Hx) as Hx0.
  destruct x as [[]| | |[] m e]; simpl in Hx; try tauto.
  - unfold format_f, sign_chars. cbn [length app]. rewrite Nat.sub_0_r.
    apply Hin. split; [lia|]. apply lt_IZR. cbn [val] in Hv. nra.
  - unfold format_f, sign_chars. cbn [length app]. rewrite Nat.sub_0_r.
    apply Hin. destruct (scaled_round_bound m e p) as [H0 Hb].
    split; [exact H0|]. apply lt_IZR. cbn [val] in Hv. lra.
Qed.

(** The signed two-digit field of the degrees. *)
Lemma format_signed_shape s x :
  (x = S754_zero s
   \/ exists m e, x = S754_finite s m e /\ (mval (Z.pos m) e < 98)%R) ->
  fits (CSign :: pat_2) (format_f true 3 0 x) = true.
Proof.
  pose proof (in_range_list _ 100 fits_2_all) as Hin. cbv beta in Hin.
  assert (Hsign : forall l, fits pat_2 l = true ->
            fits (CSign :: pat_2) (sign_chars true s ++ l) = true).
  { intros l Hl. change (CSign :: pat_2) with ([CSign] ++ pat_2).
    apply fits_app; [|exact Hl]. now destruct s. }
  assert (Hlen : (3 - length (sign_chars true s))%nat = 2%nat)
    by now destruct s.
  intros [-> | (m & e & -> & Hv)]; unfold format_f; rewrite Hlen;
    apply Hsign, Hin.
  - lia.
  - destruct (scaled_round_bound m e 0) as [H0 Hb].
    split; [exact H0|]. apply lt_IZR.
    change (10 ^ Z.of_nat 0) with 1 in Hb. change (Z.of_nat 100) with 100.
    lra.
Qed.

Lemma radec_to_iau_name_in_range ra dec prefix :
  in_range ra dec = true ->
  radec_to_iau_name ra dec prefix
  = Ok (prefix ++ string_of_list_ascii (hms_of ra ++ dms_of dec))%string.
Proof.
  unfold in_range, radec_to_iau_name. intros H.
  apply andb_true_iff in H as [H Hd2]. apply andb_true_iff in H as [H Hd1].
  rewrite H, Hd1, Hd2. reflexivity.
Qed.

Lemma floor_value t :
  nonneg t -> (val t < 128)%R ->
  nonneg (F64.floor t) /\ (val (F64.floor t) <= val t)%R.
Proof.
  intros Ht Hv. destruct (floor_bound t Ht Hv) as (Hn & n & _ & Hfv & Hlo & _).
  split; [exact Hn | lra].
Qed.

Lemma fits_2 x :
  nonneg x -> (val x < 98)%R -> fits pat_2 (format_f false 2 0 x) = true.
Proof.
  intros Hx Hv. apply (format_nonneg_shape pat_2 2 0 100 x fits_2_all Hx).
  change (10 ^ Z.of_nat 0) with 1. change (Z.of_nat 100) with 100. lra.
Qed.

Lemma fits_5_2 x :
  nonneg x -> (val x < 98)%R -> fits pat_5_2 (format_f false 5 2 x) = true.
Proof.
  intros Hx Hv.
  apply (format_nonneg_shape pat_5_2 5 2 (100 * 100) x fits_5_2_all Hx).
  change (10 ^ Z.of_nat 2) with 100.
  change (Z.of_nat (100 * 100)) with 10000. lra.
Qed.

Lemma fits_4_1 x :
  nonneg x -> (val x < 98)%R -> fits pat_4_1 (format_f false 4 1 x) = true.
Proof.
  intros Hx Hv.
  apply (format_nonneg_shape pat_4_1 4 1 1000 x fits_4_1_all Hx).
  change (10 ^ Z.of_nat 1) with 10. change (Z.of_nat 1000) with 1000. lra.
Qed.

Lemma hms_shape ra :
  nonneg ra -> (val ra < 360)%R -> fits pat_hms (hms_of ra) = true.
Proof.
  intros Hra Hv. unfold hms_of, pat_hms. cbv zeta.
  pose proof eps_small. pose proof tiny_small.
  destruct (mul_12_bound ra Hra ltac:(lra)) as [Hn1 Hv1].
  destruct (div_180_bound _ Hn1) as [Hn2 Hv2]; [rewrite bpow_20; lra|].
  assert (Hrah : (val (F64.div (F64.mul ra f12) f180) < 25)%R).
  { pose proof (nonneg_val _ Hn1). nra. }
  set (rah := F64.div (F64.mul ra f12) f180) in *.
  destruct (floor_value rah Hn2 ltac:(lra)) as [Hn3 Hv3].
  destruct (frac60_bound rah Hn2 ltac:(lra)) as [Hn4 Hv4].
  set (t2 := F64.mul (F64.sub rah (F64.floor rah)) f60) in *.
  destruct (floor_value t2 Hn4 ltac:(lra)) as [Hn5 Hv5].
  destruct (frac60_bound t2 Hn4 ltac:(lra)) as [Hn6 Hv6].
  apply fits_app; [apply fits_2; [exact Hn3 | lra]|].
  apply fits_app; [apply fits_2; [exact Hn5 | lra]|].
  apply fits_5_2; [exact Hn6 | lra].
Qed.

Lemma div_pow_bounds m e :
  e < 0 ->
  (IZR (Z.pos m / 2 ^ (- e)) <= mval (Z.pos m) e
   < IZR (Z.pos m / 2 ^ (- e)) + 1)%R.
Proof.
  intros He. set (d := 2 ^ (- e)).
  assert (Hd : 0 < d) by (apply Z.pow_pos_nonneg; lia).
  pose proof (Z.div_mod (Z.pos m) d ltac:(lia)) as Hdm.
  pose proof (Z.mod_pos_bound (Z.pos m) d Hd) as Hr.
  assert (Hval : (mval (Z.pos m) e * IZR d = IZR (Z.pos m))%R).
  { unfold mval, d. rewrite <- (bpow_IZR (- e)) by lia.
    rewrite Rmult_assoc, <- bpow_plus. replace (e + - e) with 0 by lia.
    unfold bpow. simpl. ring. }
  assert (HdR : (0 < IZR d)%R) by (apply IZR_lt; exact Hd).
  split.
  - apply Rmult_le_reg_r with (IZR d); [exact HdR|].
    rewrite Hval, <- mult_IZR. apply IZR_le. nia.
  - apply Rmult_lt_reg_r with (IZR d); [exact HdR|].
    rewrite Hval. replace 1%R with (IZR 1) by reflexivity.
    rewrite <- plus_IZR, <- mult_IZR. apply IZR_lt. nia.
Qed.

Lemma degrees_ok_all s :
  forallb (degrees_ok s) (map Z.of_nat (seq 0 91)) = true.
Proof. destruct s; vm_compute; reflexivity. Qed.

Lemma degrees_exact (s : bool) (q : Z) :
  0 <= q < 91 ->
  let d := F64.mul (F64.of_Z q) (if s then F64.of_Z (-1) else F64.of_Z 1) in
  (q = 0 /\ d = S754_zero s)
  \/ exists m e, d = S754_finite s m e /\ mval (Z.pos m) e = IZR q.
Proof.
  intros Hq d.
  pose proof (in_range_list _ 91 (degrees_ok_all s) q Hq) as H.
  unfold degrees_ok in H. fold d in H.
  destruct d as [s'| | |s' m e]; try discriminate.
  - apply andb_true_iff in H as [H1 H2]. apply Z.eqb_eq in H1.
    apply Bool.eqb_prop in H2. subst. now left.
  - apply andb_true_iff in H as [H H3]. apply andb_true_iff in H as [H1 H2].
    apply Bool.eqb_prop in H1. apply Z.leb_le in H2. apply Z.eqb_eq in H3.
    subst s'. right. exists m, e. split; [reflexivity|].
    replace e with (- (- e)) by lia. apply mval_int; [lia | exact H3].
Qed.

Lemma abs_nonneg x : nonneg x -> F64.abs x = x.
Proof. destruct x as [[]| | |[] m e]; simpl; tauto. Qed.

Lemma dms_shape dec :
  ((exists s, dec = S754_zero s)
   \/ exists s m e,
        dec = S754_finite s m e /\ (mval (Z.pos m) e <= 90)%R /\ e < 0) ->
  fits pat_dms (dms_of dec) = true.
Proof.
  intros [[s ->] | (s & m & e & -> & Hv & He)].
  - destruct s; vm_compute; reflexivity.
  - unfold dms_of, pat_dms. cbv zeta.
    pose proof eps_small. pose proof tiny_small.
    destruct (div_pow_bounds m e He) as [Hqlo Hqhi].
    set (q := Z.pos m / 2 ^ (- e)) in *.
    assert (Hq : 0 <= q < 91).
    { split; [apply Z.div_pos; [lia | apply Z.pow_pos_nonneg; lia]|].
      apply lt_IZR. lra. }
    assert (Hfloor : F64.floor (F64.abs (S754_finite s m e)) = F64.of_Z q).
    { cbn [F64.abs SFabs F64.floor].
      destruct (Z.leb_spec 0 e); [lia | reflexivity]. }
    assert (Hsign : F64.sign (S754_finite s m e)
                    = if s then F64.of_Z (-1) else F64.of_Z 1) by reflexivity.
    rewrite Hfloor, Hsign.
    set (dec_d := F64.mul (F64.of_Z q) (if s then F64.of_Z (-1) else F64.of_Z 1)).
    assert (Ha : nonneg (F64.abs (F64.sub (S754_finite s m e) dec_d))
                 /\ (val (F64.abs (F64.sub (S754_finite s m e) dec_d))
                     <= 1 + 1 / 256)%R
                 /\ fits (CSign :: pat_2) (format_f true 3 0 dec_d) = true).
    { destruct (degrees_exact s q Hq) as [[Hq0 Hd] | (m' & e' & Hd & Hv')];
        fold dec_d in Hd; rewrite Hd.
      - split; [exact I|]. split.
        + unfold F64.sub. cbn [SFsub F64.abs SFabs val]. rewrite Hq0 in Hqhi.
          simpl IZR in Hqhi. lra.
        + apply (format_signed_shape s). now left.
      - split; [|split].
        + destruct (sub_same_sign s m e m' e')
            as [-> | [-> | (m2 & e2 & -> & Hb)]];
            [rewrite Hv'; lra | rewrite bpow_20; lra | | |]; exact I.
        + destruct (sub_same_sign s m e m' e')
            as [-> | [-> | (m2 & e2 & -> & Hb)]];
            [rewrite Hv'; lra | rewrite bpow_20; lra | | |];
            cbn [F64.abs SFabs val]; try lra.
          rewrite Hv' in Hb. nra.
        + apply (format_signed_shape s). right. exists m', e'.
          split; [reflexivity|]. rewrite Hv'. lra. }
    destruct Ha as (Hn1 & Hv1 & Hfd).
    set (a := F64.abs (F64.sub (S754_finite s m e) dec_d)) in *.
    destruct (mul_60_bound a Hn1 ltac:(lra)) as [Hn2 Hv2].
    set (t := F64.mul a f60) in *.
    destruct (floor_value t Hn2 ltac:(lra)) as [Hn3 Hv3].
    destruct (floor_bound t Hn2 ltac:(lra)) as (_ & n & _ & Hfv & Hlo & _).
    destruct (sub_nonneg_bound t (F64.floor t) Hn2 Hn3 Hv3) as [Hn4 _];
      [rewrite bpow_20; lra|].
    rewrite (abs_nonneg _ Hn4).
    destruct (frac60_bound t Hn2 ltac:(lra)) as [Hn5 Hv5].
    apply fits_app; [exact Hfd|].
    apply fits_app; [apply fits_2; [exact Hn3 | lra]|].
    apply fits_4_1; [exact Hn5 | lra].
Qed.

Lemma list_ascii_of_string_app (s t : string) :
  list_ascii_of_string (s ++ t)%string
  = list_ascii_of_string s ++ list_ascii_of_string t.
Proof. induction s as [|c s IH]; simpl; [reflexivity | now rewrite IH]. Qed.

Lemma match_here_prefix (l : list ascii) p s :
  match_here (map CLit l ++ p) (l ++ s) = match_here p s.
Proof.
  induction l as [|c l IH]; simpl; [reflexivity|].
  now rewrite Ascii.eqb_refl.
Qed.

Lemma fullmatch_name prefix (hms dms : list ascii) :
  fits pat_hms hms = true -> fits pat_dms dms = true ->
  fullmatch (iau_pattern prefix 6)
            (prefix ++ string_of_list_ascii (hms ++ dms))%string = true.
Proof.
  intros Hh Hd. unfold fullmatch, iau_pattern.
  rewrite list_ascii_of_string_app, list_ascii_of_string_of_list_ascii.
  rewrite match_here_prefix.
  exact (fits_app _ _ _ _ Hh Hd).
Qed.

(** C5 (amended): for every binary64 [ra] in [0, 360) other than the
    negative zero, every [dec] in [-90, 90] and any prefix,
    [radec_to_iau_name] returns a name of the fixed format
    [PREFIX\d{6}\.\d{2}[+-]\d{6}\.\d{1}] (six digits DDMMSS between the sign
    and the point); outside the ranges it raises [ValueError]; and
    [radec_to_iau_name(180.0, 0.0, "ZTFJ")] is ["ZTFJ120000.00+000000.0"]. *)
Theorem iau_name_format (ra dec : F64.float) (prefix : string) :
  F64.valid ra = true -> F64.valid dec = true -> ra <> S754_zero true ->
  (in_range ra dec = true ->
   exists name,
     radec_to_iau_name ra dec prefix = Ok name
     /\ fullmatch (iau_pattern prefix 6) name = true)
  /\ (in_range ra dec = false ->
      exists msg, radec_to_iau_name ra dec prefix = Raise (ValueError msg))
  /\ radec_to_iau_name f180 f0 "ZTFJ" = Ok "ZTFJ120000.00+000000.0".
Proof.
  intros Hvra Hvdec Hnz. split; [|split].
  - intros Hin. rewrite (radec_to_iau_name_in_range _ _ _ Hin).
    eexists. split; [reflexivity|].
    unfold in_range in Hin.
    apply andb_true_iff in Hin as [Hin Hd2].
    apply andb_true_iff in Hin as [Hin Hd1].
    apply andb_true_iff in Hin as [Hr1 Hr2].
    destruct (ra_in_range ra Hvra Hnz Hr1 Hr2) as [Hn Hv].
    apply fullmatch_name.
    + now apply hms_shape.
    + apply dms_shape. now apply dec_in_range.
  - apply radec_to_iau_name_out_of_range.
  - vm_compute. reflexivity.
Qed.

Lemma iau_name_format_witness :
  (in_range (F64.of_frac 1234567 10000) (F64.of_frac (-456789) 10000) = true ->
   exists name,
     radec_to_iau_name (F64.of_frac 1234567 10000) (F64.of_frac (-456789) 10000)
                       "ZTFJ" = Ok name
     /\ fullmatch (iau_pattern "ZTFJ" 6) name = true)
  /\ (in_range (F64.of_frac 1234567 10000) (F64.of_frac (-456789) 10000) = false ->
      exists msg,
        radec_to_iau_name (F64.of_frac 1234567 10000)
                          (F64.of_frac (-456789) 10000) "ZTFJ"
        = Raise (ValueError msg))
  /\ radec_to_iau_name f180 f0 "ZTFJ" = Ok "ZTFJ120000.00+000000.0".
Proof.
  apply (iau_name_format (F64.of_frac 1234567 10000)
                         (F64.of_frac (-456789) 10000) "ZTFJ").
  - vm_compute. reflexivity.
  - vm_compute. reflexivity.
  - vm_compute. discriminate.
Defined.

(** * Further properties of the handlers and helpers *)

Lemma in_strings_In v names :
  in_strings v names = true -> In (str_value v) names /\ v = PStr (str_value v).
Proof.
  destruct v; simpl; try discriminate.
  intros H. apply existsb_exists in H as (x & Hx & He).
  apply String.eqb_eq in He. subst. auto.
Qed.

Lemma existsb_eqb_filter (f : string -> bool) c names :
  existsb (String.eqb c) (List.filter f names) = true -> f c = true.
Proof.
  intros H. apply existsb_exists in H as (x & Hx & He).
  apply String.eqb_eq in He. subst.
  apply filter_In in Hx. tauto.
Qed.

Lemma in_strings_filter (f : string -> bool) v names :
  in_strings v (List.filter f names) = true -> f (str_value v) = true.
Proof.
  destruct v; simpl; try discriminate. apply existsb_eqb_filter.
Qed.

Lemma filter_all (f : string -> bool) names :
  Forall (fun c => f c = true) (List.filter f names).
Proof.
  apply List.Forall_forall. intros x Hx. apply filter_In in Hx. tauto.
Qed.

(** X1: every remote call of [CrossMatchHandler.get] is the
    catalog-names query or a cone search; a cone search is sent only with
    a unit among deg, arcmin and arcsec, a radius the cap check lets
    through, a right ascension in [0, 360) and a declination in
    [-90, 90], over a non-empty list of catalogs none of which starts
    with ZTF, PTF, PGIR or WNTR, and it asks for full documents. *)
Theorem CrossMatchHandler_get_calls (E : env) (req : request) :
  emits_only cross_match_call (CrossMatchHandler_get E req).
Proof.
  unfold CrossMatchHandler_get. emits_auto; simpl; auto.
  match goal with H : negb (in_strings _ _) = false |- _ =>
    apply negb_false_iff, in_strings_In in H; destruct H as [Hu Hv] end.
  repeat match goal with H : negb _ = false |- _ => apply negb_false_iff in H end.
  split; [exact Hu|]. split.
  { rewrite <- Hv. assumption. }
  split.
  { unfold in_range.
    repeat match goal with H : _ && _ = true |- _ => apply andb_prop in H; destruct H end.
    repeat (apply andb_true_intro; split); assumption. }
  split.
  { intros Hnil.
    match goal with H : Nat.eqb (length _) 0 = false |- _ =>
      rewrite Hnil in H; discriminate H end. }
  split; [apply filter_all | reflexivity].
Qed.

Lemma id_search_intro family radius units q_ra q_dec catalog names radius_units :
  in_strings radius_units units_list = true ->
  radius_too_large radius_units radius = false ->
  units = str_value radius_units ->
  existsb (String.eqb catalog) (List.filter (contains family) names) = true ->
  id_search family (QNear radius units q_ra q_dec [catalog] true).
Proof.
  intros Hu Hr -> Hc. apply in_strings_In in Hu as [Hu Hv].
  simpl. split; [exact Hu|]. split; [now rewrite <- Hv|].
  split; [|reflexivity]. exists catalog. split; [reflexivity|].
  now apply existsb_eqb_filter in Hc.
Qed.

(** Comparison of floats: swapping the arguments reverses the answer. *)
Lemma SFcompare_antisym (a b : F64.float) :
  SFcompare b a = option_map CompOpp (SFcompare a b).
Proof.
  destruct a as [sa|sa| |sa ma ea], b as [sb|sb| |sb mb eb]; simpl;
    try reflexivity; try (destruct sa; reflexivity);
    try (destruct sb; reflexivity);
    try (destruct sa, sb; reflexivity).
  destruct sa, sb; try reflexivity; f_equal;
    rewrite (Z.compare_antisym ea eb);
    destruct (ea ?= eb); simpl; try reflexivity.
  all: rewrite (Pos.compare_cont_antisym ma mb Eq); reflexivity.
Qed.

(** A radius that is not above the cap is at most the cap, or is NaN. *)
Lemma not_above_cap (cap radius : F64.float) :
  cap <> S754_nan ->
  F64.ltb cap radius = false ->
  radius = S754_nan \/ F64.leb radius cap = true.
Proof.
  unfold F64.ltb, F64.leb, SFltb, SFleb. intros Hcap.
  rewrite (SFcompare_antisym cap radius).
  destruct (SFcompare cap radius) as [[| |]|] eqn:Hc; simpl; intros H.
  - now right.
  - discriminate H.
  - now right.
  - left. destruct cap, radius; simpl in Hc; try discriminate; congruence.
Qed.

Lemma within_cap_intro (radius_units : pyval) (radius : F64.float) :
  in_strings radius_units units_list = true ->
  radius_too_large radius_units radius = false ->
  within_cap (str_value radius_units) radius.
Proof.
  intros Hu Hr. apply in_strings_In in Hu as [Hu Hv].
  rewrite Hv in Hr. unfold radius_too_large in Hr.
  destruct Hu as [Hd|[Hd|[Hd|[]]]]; rewrite <- Hd in Hr |- *; revert Hr;
    destruct (F64.ltb f1 radius) eqn:H1, (F64.ltb f60 radius) eqn:H2,
      (F64.ltb f3600 radius) eqn:H3;
    intros Hr; vm_compute in Hr; try discriminate Hr;
    eexists; (split; [reflexivity|]);
    apply not_above_cap; try assumption; discriminate.
Qed.

(** A NaN radius is above no cap. *)
Example nan_radius_passes :
  radius_too_large (PStr "deg") S754_nan = false
  /\ within_cap "deg" S754_nan.
Proof.
  split; [reflexivity|]. exists f1. split; [reflexivity | now left].
Qed.

(** X2: every remote call of [ArchiveHandler.get] is the catalog-names
    query, an identifier-only cone search in a single catalog whose name
    contains "ZTF_sources", or an aggregation over such a catalog with a
    non-empty list of identifiers.  A cone search has a unit among deg,
    arcmin and arcsec and a radius that passed the cap check: one that is
    at most the cap of its unit (1 deg, 60 arcmin, 3600 arcsec), or
    NaN, which the check lets through. *)
Theorem ArchiveHandler_get_calls (E : env) (req : request) :
  emits_only light_curve_call (ArchiveHandler_get E req).
Proof.
  unfold ArchiveHandler_get. emits_auto; try exact I;
    repeat match goal with H : negb _ = false |- _ => apply negb_false_iff in H end.
  - match goal with
    | Hu : in_strings _ units_list = true,
      Hr : radius_too_large _ _ = false,
      Hc : existsb (String.eqb _) (List.filter _ _) = true |- _ =>
        split;
        [ exact (id_search_intro "ZTF_sources" _ _ f0 f0 _ _ _ Hu Hr eq_refl Hc)
        | exact (within_cap_intro _ _ Hu Hr) ]
    end.
  - split.
    + eapply existsb_eqb_filter; eauto.
    + intros Hnil.
      match goal with H : Nat.eqb (length _) 0 = false |- _ =>
        rewrite Hnil in H; discriminate H end.
Qed.

(** X3: [ScopeFeaturesHandler.post] records nothing but the
    catalog-names query, an identifier-only cone search in a single
    catalog whose name contains "ZTF_source_features", a lookup of exactly
    one identifier in such a catalog, and the refresh notification.  The
    cone search has a unit among deg, arcmin and arcsec and a radius that
    passed the cap check: one that is at most the cap of its unit (1 deg,
    60 arcmin, 3600 arcsec), or NaN, which the check lets through. *)
Theorem ScopeFeaturesHandler_post_calls (E : env) (req : request) :
  emits_only features_call (ScopeFeaturesHandler_post E req).
Proof.
  unfold ScopeFeaturesHandler_post. emits_auto; try exact I;
    repeat match goal with H : negb _ = false |- _ => apply negb_false_iff in H end.
  - match goal with
    | Hc : in_strings ?c (List.filter _ _) = true,
      Hu : in_strings _ units_list = true,
      Hr : radius_too_large _ _ = false |- _ =>
        split; [|exact (within_cap_intro _ _ Hu Hr)];
        pose proof (in_strings_filter _ _ _ Hc) as Hf;
        apply in_strings_In in Hu as [Hu Hv];
        simpl; split; [exact Hu|]; split; [rewrite <- Hv; exact Hr|];
        split; [|reflexivity]; eexists; split; [reflexivity | exact Hf]
    end.
  - split; [|reflexivity].
    match goal with H : in_strings ?c (List.filter _ _) = true |- _ =>
      exact (in_strings_filter _ _ _ H) end.
Qed.

(** ** Handlers that only read *)

Lemma keeps_ret {A} (a : A) : keeps_store (ret a).
Proof. intros st r st' H. now inversion H. Qed.

Lemma keeps_raise {A} (e : exn) : keeps_store (@raise A e).
Proof. intros st r st' H. now inversion H. Qed.

Lemma keeps_lift {A} (x : result A) : keeps_store (lift x).
Proof. intros st r st' H. now inversion H. Qed.

Lemma keeps_emit (ev : event) : keeps_store (emit ev).
Proof. intros st r st' H. now inversion H. Qed.

Lemma keeps_bind {A B} (c : M A) (k : A -> M B) :
  keeps_store c -> (forall a, keeps_store (k a)) -> keeps_store (bind c k).
Proof.
  intros Hc Hk st r st' H. unfold bind in H.
  destruct (c st) as [[a|e] st1] eqn:Hcst.
  - rewrite (Hk a _ _ _ H). exact (Hc _ _ _ Hcst).
  - inversion H; subst. exact (Hc _ _ _ Hcst).
Qed.

Lemma keeps_try_finally {A} (body : M A) (cleanup : M unit) :
  keeps_store body -> keeps_store cleanup ->
  keeps_store (try_finally body cleanup).
Proof.
  intros Hb Hc st r st' H. unfold try_finally in H.
  destruct (body st) as [rb st1] eqn:Hbst.
  destruct (cleanup st1) as [[u|e] st2] eqn:Hcst; inversion H; subst;
    rewrite (Hc _ _ _ Hcst); exact (Hb _ _ _ Hbst).
Qed.

Lemma keeps_gloria_query g q : keeps_store (gloria_query g q).
Proof.
  unfold gloria_query. apply keeps_bind; [apply keeps_emit|].
  intros _. apply keeps_lift.
Qed.

Ltac keeps_auto :=
  repeat first
    [ apply keeps_ret | apply keeps_raise | apply keeps_lift
    | apply keeps_emit | apply keeps_gloria_query
    | apply keeps_bind; [| intros ?]
    | apply keeps_try_finally
    | match goal with
      | |- keeps_store (match ?x with _ => _ end) => destruct x
      | |- keeps_store (if ?b then _ else _) => destruct b
      | |- keeps_store (let '(_, _) := ?x in _) => destruct x
      end ].

(** X4: the three GET handlers, [ArchiveCatalogsHandler.get],
    [CrossMatchHandler.get] and [ArchiveHandler.get], never change the
    stored annotations, whatever the request and however they end: they
    only query the catalog service and read the caller's streams. *)
Theorem read_only_handlers (E : env) (req : request) :
  keeps_store (ArchiveCatalogsHandler_get E)
  /\ keeps_store (CrossMatchHandler_get E req)
  /\ keeps_store (ArchiveHandler_get E req).
Proof.
  split; [|split].
  - unfold ArchiveCatalogsHandler_get. keeps_auto.
  - unfold CrossMatchHandler_get. keeps_auto.
  - unfold ArchiveHandler_get. keeps_auto.
Qed.

(** X5: with a connection, [ArchiveCatalogsHandler.get] makes the
    catalog-names query and answers success with the ["data"] entry of
    whatever came back; it never looks at the status of the answer. *)
Theorem ArchiveCatalogsHandler_get_ignores_status (E : env)
  (g : query -> result gloria_response) (info : gloria_response) (st : state) :
  gloria E = Some g ->
  g QCatalogNames = Ok info ->
  ArchiveCatalogsHandler_get E st
  = (Ok (CatalogsSuccess (g_data info)), after_info st).
Proof.
  intros Hg Hi. unfold ArchiveCatalogsHandler_get, gloria_query, bind, emit, lift, ret.
  rewrite Hg. cbn. rewrite Hi. reflexivity.
Qed.

Lemma missing_parameter_none a b c d :
  missing_parameter a b c d = None ->
  py_all [a; b; c; d] = false ->
  unanswered [a; b; c; d].
Proof.
  intros Hm Ha. split; [exact Ha|].
  unfold missing_parameter in Hm. rewrite Ha in Hm. cbn [negb andb] in Hm.
  destruct (py_any [a; b; c; d]); [|now left]. right.
  unfold first_none_of, first_none.
  destruct (is_none a); [discriminate|].
  destruct (is_none b); [discriminate|].
  destruct (is_none c); [discriminate|].
  destruct (is_none d); [discriminate|]. reflexivity.
Qed.

(** X6: a position handler falls off its end without writing a
    response only after the catalog-names query and nothing else, and only
    for a position tuple with a falsy value in which either every value is
    falsy or none is [None]. *)
Theorem no_response_only_when_unanswered (E : env) (req : request)
  (st st' : state) :
  (CrossMatchHandler_get E req st = (Ok None, st')
   \/ ArchiveHandler_get E req st = (Ok None, st') ->
   st' = after_info st /\ unanswered (query_position req))
  /\ (ScopeFeaturesHandler_post E req st = (Ok None, st') ->
      st' = after_info st
      /\ exists position_tuple,
           json_position req = Some position_tuple
           /\ unanswered position_tuple).
Proof.
  split.
  - intros [H | H].
    + unfold CrossMatchHandler_get, bind, gloria_query, emit, lift, ret, raise, bind in H.
      run_handler H; inversion H; subst; clear H.
      split; [reflexivity|]. now apply missing_parameter_none.
    + unfold ArchiveHandler_get, bind, gloria_query, emit, lift, ret, raise, bind in H.
      run_handler H; inversion H; subst; clear H.
      split; [reflexivity|]. now apply missing_parameter_none.
  - intros H.
    unfold ScopeFeaturesHandler_post, except_integrity, add_all_commit,
      bind, gloria_query, emit, lift, ret, raise, bind in H.
    run_handler H; inversion H; subst; clear H.
    split; [reflexivity|].
    unfold json_position, pop in *.
    destruct (json_body req !! "ra") as [ra|]; [|discriminate].
    destruct (json_body req !! "dec") as [dec|]; [|discriminate].
    eexists. split; [reflexivity|].
    repeat match goal with H : Ok _ = Ok _ |- _ => injection H as <- end.
    now apply missing_parameter_none.
Qed.

Lemma ArchiveCatalogsHandler_get_ignores_status_witness :
  ArchiveCatalogsHandler_get failing_env empty_state
  = (Ok (CatalogsSuccess DNone), after_info empty_state).
Proof.
  apply (ArchiveCatalogsHandler_get_ignores_status failing_env failing_gloria
           {| g_status := Some "error"; g_message := PStr "Unauthorized";
              g_data := DNone |} empty_state); reflexivity.
Defined.

Lemma no_response_only_when_unanswered_witness :
  snd (CrossMatchHandler_get sample_env dec_empty_request empty_state)
  = after_info empty_state
  /\ unanswered (query_position dec_empty_request).
Proof.
  apply (proj1 (no_response_only_when_unanswered sample_env dec_empty_request
                  empty_state
                  (snd (CrossMatchHandler_get sample_env dec_empty_request
                          empty_state)))).
  left. vm_compute. reflexivity.
Defined.

Lemma no_position_missing_parameter req :
  no_position req ->
  missing_parameter (get_query_argument req "ra") (get_query_argument req "dec")
    (get_query_argument req "radius") (get_query_argument req "radius_units")
  = None
  /\ py_all [get_query_argument req "ra"; get_query_argument req "dec";
             get_query_argument req "radius";
             get_query_argument req "radius_units"] = false.
Proof.
  intros (H1 & H2 & H3 & H4). unfold get_query_argument.
  rewrite H1, H2, H3, H4. split; reflexivity.
Qed.

(** X7: a request with none of ra, dec, radius and radius_units gets
    no response from [CrossMatchHandler.get] and [ArchiveHandler.get] once
    the catalog checks have passed: the handler returns after the
    catalog-names query without writing success or error. *)
Theorem no_position_no_response (E : env) (names : list string)
  (req : request) (st : state) :
  catalog_names E names ->
  no_position req ->
  (List.filter cross_match_catalog names <> [] ->
   CrossMatchHandler_get E req st = (Ok None, after_info st))
  /\ (forall S catalog,
        program_id_selector (user_streams E) = Ok S ->
        query_args req !! "catalog" = Some catalog ->
        existsb (String.eqb catalog)
                (List.filter (contains "ZTF_sources") names) = true ->
        ArchiveHandler_get E req st = (Ok None, after_info st)).
Proof.
  intros (g & info & Hg & Hinfo & Hnames) Hno.
  destruct (no_position_missing_parameter req Hno) as [Hm Ha].
  split.
  - intros Hcat. unfold CrossMatchHandler_get. rewrite Hg.
    unfold bind, gloria_query, emit, lift, bind. rewrite Hinfo, Hnames.
    destruct (List.filter cross_match_catalog names); [congruence|]. simpl length.
    cbv beta iota. change (Nat.eqb (S (length l)) 0) with false. cbv iota.
    rewrite Hm, Ha. reflexivity.
  - intros S catalog Hsel Hc Havail. unfold ArchiveHandler_get. rewrite Hg.
    unfold bind, gloria_query, emit, lift, bind. rewrite Hinfo, Hnames, Hsel, Hc.
    rewrite Havail. cbv beta iota. simpl negb. cbv iota.
    rewrite Hm, Ha. reflexivity.
Qed.

Lemma no_position_no_response_witness :
  CrossMatchHandler_get sample_env catalog_only_request empty_state
  = (Ok None, after_info empty_state)
  /\ ArchiveHandler_get sample_env catalog_only_request empty_state
     = (Ok None, after_info empty_state).
Proof.
  assert (Hno : no_position catalog_only_request).
  { repeat split; vm_compute; reflexivity. }
  split.
  - apply (proj1 (no_position_no_response sample_env sample_names
                    catalog_only_request empty_state sample_catalog_names Hno)).
    vm_compute. congruence.
  - apply (proj2 (no_position_no_response sample_env sample_names
                    catalog_only_request empty_state sample_catalog_names Hno)
             {[ 1; 2 ]} "ZTF_sources_20210401");
      vm_compute; reflexivity.
Defined.

(** X8: a JSON body without "id", "ra" or "dec" makes
    [ScopeFeaturesHandler.post] raise the [KeyError] of the first of these
    keys that is absent, after the catalog-names query: it is not answered
    with an error response. *)
Theorem ScopeFeaturesHandler_post_missing_key (E : env)
  (g : query -> result gloria_response) (info : gloria_response)
  (names : list string) (req : request) (key : string) (st : state) :
  gloria E = Some g ->
  g QCatalogNames = Ok info ->
  names_of info = Ok names ->
  first_missing_key req = Some key ->
  ScopeFeaturesHandler_post E req st = (Raise (KeyError key), after_info st).
Proof.
  intros Hg Hinfo Hnames Hkey.
  unfold ScopeFeaturesHandler_post. rewrite Hg.
  unfold bind, gloria_query, emit, lift, bind, pop.
  rewrite Hinfo, Hnames. unfold first_missing_key in Hkey.
  destruct (json_body req !! "id"); [|now inversion Hkey].
  destruct (json_body req !! "ra"); [|now inversion Hkey].
  destruct (json_body req !! "dec"); [discriminate | now inversion Hkey].
Qed.

Lemma ScopeFeaturesHandler_post_missing_key_witness :
  ScopeFeaturesHandler_post sample_env
    (json_request [("id", PStr "ZTF21aaaaaaa"); ("dec", PInt 10)]) empty_state
  = (Raise (KeyError "ra"), after_info empty_state).
Proof.
  apply (ScopeFeaturesHandler_post_missing_key sample_env sample_gloria
           (ok_response (DNames sample_names)) sample_names);
    vm_compute; reflexivity.
Defined.

Lemma length_zero_nil {A} (l : list A) : Nat.eqb (length l) 0 = true -> l = [].
Proof. destruct l; [reflexivity | discriminate]. Qed.

(** X9: [ArchiveHandler.get] and [ScopeFeaturesHandler.post] answer
    success with an empty list only when the cone search succeeded with no
    identifier in the catalog; the catalog-names query and that cone
    search are then the only calls made, and nothing is stored. *)
Theorem empty_result_after_one_search (E : env) (req : request)
  (st st' : state) :
  (ArchiveHandler_get E req st = (Ok (Some (Success EmptyList)), st') ->
   exists q catalog,
     id_search "ZTF_sources" q /\ no_match E q catalog
     /\ st' = after_search st q)
  /\ (ScopeFeaturesHandler_post E req st
      = (Ok (Some (Success EmptyList)), st') ->
      exists q catalog,
        id_search "ZTF_source_features" q /\ no_match E q catalog
        /\ st' = after_search st q).
Proof.
  split; intros H.
  - unfold ArchiveHandler_get, bind, gloria_query, emit, lift, ret, raise, bind in H.
    run_handler H; inversion H; subst; clear H;
      try (match goal with
           | Hm : missing_parameter _ _ _ _ = Some _ |- _ =>
               apply missing_parameter_is_validation in Hm; discriminate Hm
           end).
    repeat match goal with H : negb _ = false |- _ => apply negb_false_iff in H end.
    match goal with
    | |- context [EvQuery (QNear ?r ?u ?a ?d [?c] ?i)] =>
        exists (QNear r u a d [c] i), c
    end.
    split; [|split].
    + match goal with
      | Hu : in_strings _ units_list = true,
        Hr : radius_too_large _ _ = false,
        Hc : existsb (String.eqb _) (List.filter _ _) = true |- _ =>
          exact (id_search_intro "ZTF_sources" _ _ f0 f0 _ _ _ Hu Hr eq_refl Hc)
      end.
    + match goal with
      | Hg : gloria E = Some ?g, Hq : ?g (QNear _ _ _ _ _ _) = Ok ?resp,
        Hs : is_success ?resp = true,
        Hl : light_curve_ids_of _ _ = Ok ?ids,
        Hn : Nat.eqb (length ?ids) 0 = true |- _ =>
          apply length_zero_nil in Hn; subst ids;
          exists g, resp; repeat split; eassumption
      end.
    + unfold after_search. simpl. rewrite <- app_assoc. reflexivity.
  - unfold ScopeFeaturesHandler_post, except_integrity, add_all_commit,
      bind, gloria_query, emit, lift, ret, raise, bind in H.
    run_handler H; inversion H; subst; clear H;
      try (match goal with
           | Hm : missing_parameter _ _ _ _ = Some _ |- _ =>
               apply missing_parameter_is_validation in Hm; discriminate Hm
           end).
    repeat match goal with H : negb _ = false |- _ => apply negb_false_iff in H end.
    match goal with
    | |- context [EvQuery (QNear ?r ?u ?a ?d [?c] ?i)] =>
        exists (QNear r u a d [c] i), c
    end.
    split; [|split].
    + match goal with
      | Hc : in_strings ?c (List.filter _ _) = true,
        Hu : in_strings _ units_list = true,
        Hr : radius_too_large _ _ = false |- _ =>
          pose proof (in_strings_filter _ _ _ Hc) as Hf;
          apply in_strings_In in Hu as [Hu Hv];
          simpl; split; [exact Hu|]; split; [rewrite <- Hv; exact Hr|];
          split; [|reflexivity]; eexists; split; [reflexivity | exact Hf]
      end.
    + match goal with
      | Hg : gloria E = Some ?g, Hq : ?g (QNear _ _ _ _ _ _) = Ok ?resp,
        Hs : is_success ?resp = true,
        Hl : light_curve_ids_of _ _ = Ok [] |- _ =>
          exists g, resp; repeat split; eassumption
      end.
    + unfold after_search. simpl. rewrite <- app_assoc. reflexivity.
Qed.

Lemma empty_result_after_one_search_witness :
  exists q catalog,
    id_search "ZTF_sources" q /\ no_match quiet_env q catalog
    /\ snd (ArchiveHandler_get quiet_env cone_request empty_state)
       = after_search empty_state q.
Proof.
  apply (proj1 (empty_result_after_one_search quiet_env cone_request
                  empty_state
                  (snd (ArchiveHandler_get quiet_env cone_request
                          empty_state)))).
  vm_compute. reflexivity.
Defined.

Lemma py_int_not_null parse v w : py_int parse v = Ok w -> exists z, w = PInt z.
Proof.
  destruct v as [|b|z|f|s|l]; simpl; try discriminate.
  - intros H; inversion H; eauto.
  - intros H; inversion H; eauto.
  - destruct f; try discriminate; intros H; inversion H; eauto.
  - destruct (parse s); [|discriminate]. intros H; inversion H; eauto.
Qed.

Lemma entry_ok_cons features kv0 kv :
  entry_ok features kv -> entry_ok (kv0 :: features) kv.
Proof.
  intros [H1 H2]. split; [exact H1|].
  revert H2. destruct (is_integer_key (fst kv)); intros H2; [exact H2 | now right].
Qed.

Lemma annotation_data_of_keys (parse : string -> option Z)
  (features : list (string * pyval)) : forall data,
  annotation_data_of parse features = Ok data ->
  map fst data = map fst (non_null features).
Proof.
  induction features as [|[key value] rest IH];
    cbn [annotation_data_of]; intros data H.
  - now inversion H.
  - unfold non_null in *. cbn [List.filter snd].
    destruct (isnull value); cbn [negb] in H |- *; [now apply IH|].
    destruct (if existsb (String.eqb key) integer_keys
              then py_int parse value else Ok value) as [value'|];
      [|discriminate].
    destruct (annotation_data_of parse rest) as [tl|]; [|discriminate].
    inversion H; subst. simpl. now rewrite (IH tl eq_refl).
Qed.

Lemma annotation_data_of_entries_ok (parse : string -> option Z)
  (features : list (string * pyval)) : forall data,
  annotation_data_of parse features = Ok data ->
  Forall (entry_ok features) data.
Proof.
  induction features as [|[key value] rest IH];
    cbn [annotation_data_of]; intros data H.
  - inversion H; subst. constructor.
  - destruct (isnull value) eqn:Hn; cbn [negb] in H.
    + eapply List.Forall_impl; [|exact (IH _ H)].
      intros kv. apply entry_ok_cons.
    + destruct (existsb (String.eqb key) integer_keys) eqn:Hi.
      * destruct (py_int parse value) as [value'|] eqn:Hv; [|discriminate].
        destruct (annotation_data_of parse rest) as [tl|]; [|discriminate].
        inversion H; subst. constructor.
        -- destruct (py_int_not_null _ _ _ Hv) as [z ->].
           split; [reflexivity|]. unfold is_integer_key. simpl fst.
           rewrite Hi. eauto.
        -- eapply List.Forall_impl; [|exact (IH _ eq_refl)].
           intros kv. apply entry_ok_cons.
      * destruct (annotation_data_of parse rest) as [tl|]; [|discriminate].
        inversion H; subst. constructor.
        -- split; [exact Hn|]. unfold is_integer_key. simpl fst.
           rewrite Hi. now left.
        -- eapply List.Forall_impl; [|exact (IH _ eq_refl)].
           intros kv. apply entry_ok_cons.
Qed.

(** X10: the annotation data built from a feature document has the
    keys of the features that are not null, in their order; no value in
    it is null, the value under "_id", "field", "ccd", "quad" or "n" is an
    integer, and every other entry is the feature's own. *)
Theorem annotation_data_of_entries (parse : string -> option Z)
  (features data : list (string * pyval)) :
  annotation_data_of parse features = Ok data ->
  map fst data = map fst (non_null features)
  /\ Forall (entry_ok features) data.
Proof.
  intros H. split.
  - now apply (annotation_data_of_keys parse).
  - now apply (annotation_data_of_entries_ok parse).
Qed.

Lemma annotation_data_of_entries_witness :
  map fst [("_id", PInt 10); ("median", PFloat f12); ("n", PInt 25)]
  = map fst (non_null [("_id", PInt 10); ("median", PFloat f12);
                       ("n", PFloat (F64.of_Z 25)); ("skew", PNone)])
  /\ Forall (entry_ok [("_id", PInt 10); ("median", PFloat f12);
                       ("n", PFloat (F64.of_Z 25)); ("skew", PNone)])
       [("_id", PInt 10); ("median", PFloat f12); ("n", PInt 25)].
Proof.
  apply (annotation_data_of_entries parse_decimal).
  vm_compute. reflexivity.
Defined.




(** ** Rejections of [ArchiveHandler.post] *)

Lemma post_try_body_response E obj_id group_ids lcs user st out st' r :
  post_try_body E obj_id group_ids lcs user st = (Ok out, st') ->
  snd out = Some r ->
  r = error "ZTF instrument not found in the system".
Proof.
  intros Hb Hr.
  unfold post_try_body, bind, emit, lift, ret, raise, bind in Hb.
  run_handler Hb; inversion Hb; subst; simpl in Hr; congruence.
Qed.

Lemma try_finally_ok {A} (body : M A) (cleanup : M unit) st a st' :
  try_finally body cleanup st = (Ok a, st') ->
  exists st1, body st = (Ok a, st1) /\ cleanup st1 = (Ok tt, st').
Proof.
  unfold try_finally. intros H.
  destruct (body st) as [rb st1]. exists st1.
  destruct (cleanup st1) as [[[]|e] st2]; inversion H; subst. auto.
Qed.

Lemma try_block_response E obj_id group_ids lcs user token_id st out st' r :
  try_finally (post_try_body E obj_id group_ids lcs user)
              (release_token (penv E) token_id) st = (Ok out, st') ->
  snd out = Some r ->
  r = error "ZTF instrument not found in the system".
Proof.
  intros H Hr. apply try_finally_ok in H as (st1 & Hb & _).
  eapply post_try_body_response; eauto.
Qed.

(** X12: when [ArchiveHandler.post] answers that group_ids, catalog
    or light_curve_ids is missing, it has made no call at all; when it
    relays the remote error message or answers that no data was found, the
    aggregation query built from the request is the only call it has
    made: no token was minted and nothing was posted. *)
Theorem ArchiveHandler_post_rejections (E : env) (req : request)
  (st st' : state) (r : response) :
  ArchiveHandler_post E req st = (Ok (Some r), st') ->
  (is_field_error r = true -> st' = st)
  /\ (is_no_data r = true ->
      exists q,
        post_query E req q
        /\ st' = {| trace := trace st ++ [EvQuery q];
                    annotations := annotations st |}).
Proof.
  intros H.
  unfold ArchiveHandler_post in H.
  unfold bind, gloria_query, emit, lift, ret, raise, bind in H.
  run_handler H; inversion H; subst; clear H;
    (split; intros Hr; try discriminate Hr);
    try reflexivity;
    try (eexists; split; [eexists; split; [eassumption | reflexivity]
                         | reflexivity]).
  all: match goal with
       | Hp : try_finally _ _ _ = (Ok ?out, _), Ho : snd ?out = Some _ |- _ =>
           rewrite (try_block_response _ _ _ _ _ _ _ _ _ _ Hp Ho) in Hr;
           discriminate Hr
       end.
Qed.

Lemma ArchiveHandler_post_rejections_witness :
  snd (ArchiveHandler_post sample_env sample_no_catalog empty_state)
  = empty_state.
Proof.
  refine (proj1 (ArchiveHandler_post_rejections sample_env sample_no_catalog
                   empty_state _ (error "Missing required parameter: catalog")
                   _) _);
    vm_compute; reflexivity.
Defined.

(** ** The photometry handed to the store *)

Lemma apply_ztf_filters_complete df : forall named,
  apply_ztf_filters df = Ok named ->
  Forall row_complete (map finish_row named).
Proof.
  induction df as [|[e fid] rest IH]; simpl; intros named H.
  - inversion H; subst. constructor.
  - destruct (ztf_filters fid) as [name|] eqn:Hf; [|discriminate].
    destruct (apply_ztf_filters rest) as [rows|]; [|discriminate].
    inversion H; subst. simpl. constructor; [|now apply IH].
    unfold row_complete. simpl. auto.
Qed.

Lemma make_photometry_complete lcs drop_flagged rows :
  make_photometry lcs drop_flagged = Ok rows -> Forall row_complete rows.
Proof.
  unfold make_photometry.
  destruct (map tagged _) as [|d ds]; [discriminate|].
  destruct (apply_ztf_filters _) as [named|] eqn:Hn; [|discriminate].
  apply apply_ztf_filters_complete in Hn.
  destruct drop_flagged; intros H; inversion H; subst; [|exact Hn].
  apply List.Forall_forall. intros r Hr. apply filter_In in Hr as [Hr _].
  rewrite List.Forall_forall in Hn. now apply Hn.
Qed.

Lemma apply_stream_ids_length m rows : forall ids,
  apply_stream_ids m rows = Ok ids -> length ids = length rows.
Proof.
  induction rows as [|r rest IH]; simpl; intros ids H.
  - now inversion H.
  - destruct (m !! row_programid r); [|discriminate].
    destruct (apply_stream_ids m rest) as [tl|]; [|discriminate].
    inversion H; subst. simpl. now rewrite (IH tl eq_refl).
Qed.

Lemma ztf_filters_names fid name :
  ztf_filters fid = Some name -> In name ["ztfg"; "ztfr"; "ztfi"].
Proof.
  unfold ztf_filters.
  destruct (fid =? 1); [intros H; inversion H; simpl; auto|].
  destruct (fid =? 2); [intros H; inversion H; simpl; auto|].
  destruct (fid =? 3); [intros H; inversion H; simpl; auto|].
  discriminate.
Qed.

Lemma post_try_body_batches E obj_id group_ids lcs user :
  emits_only ingest_call (post_try_body E obj_id group_ids lcs user).
Proof.
  unfold post_try_body. emits_auto; try exact I.
  match goal with
  | Hm : make_photometry _ _ = Ok ?rows,
    Hs : apply_stream_ids _ ?rows = Ok ?ids,
    Hl : Nat.ltb 0 _ = true |- _ =>
      apply make_photometry_complete in Hm;
      apply apply_stream_ids_length in Hs;
      apply Nat.ltb_lt in Hl; cbn [ph_mag] in Hl
  end.
  unfold ingest_call, well_formed_batch.
  cbn [ph_mag ph_mjd ph_magerr ph_limiting_mag ph_magsys ph_filter ph_ra
       ph_dec ph_stream_ids].
  rewrite !length_map in *.
  repeat (split; [first [assumption | reflexivity]|]).
  split; [|split]; apply Forall_map;
    (eapply List.Forall_impl; [|eassumption]);
    intros r (R1 & R2 & R3 & R4); try assumption.
  now apply (ztf_filters_names (row_fid r)).
Qed.

(** X13: every photometry payload [ArchiveHandler.post] hands to
    [add_external_photometry] has at least one row, all its columns have
    the same length, its magnitude system is "ab" throughout, its limiting
    magnitude is 23.9 throughout, and its filters are among ztfg, ztfr
    and ztfi. *)
Theorem ArchiveHandler_post_batches (E : env) (req : request) :
  emits_only ingest_call (ArchiveHandler_post E req).
Proof.
  unfold ArchiveHandler_post, release_token.
  repeat first
    [ apply post_try_body_batches
    | apply emits_bind_lift; intros ? ?
    | emits_step ];
    exact I.
Qed.

(** ** The calls of one request to [ArchiveHandler.post] *)

Lemma post_try_body_steps E obj_id group_ids lcs user :
  emits_only ingest_step (post_try_body E obj_id group_ids lcs user).
Proof.
  unfold post_try_body. emits_auto; exact I.
Qed.

Lemma try_block_shape E obj_id group_ids lcs user token_id st r st' :
  try_finally (post_try_body E obj_id group_ids lcs user)
              (release_token (penv E) token_id) st = (r, st') ->
  exists body,
    trace st' = trace st ++ body ++ [EvDeleteToken token_id]
    /\ Forall ingest_step body.
Proof.
  unfold try_finally. intros H.
  destruct (post_try_body E obj_id group_ids lcs user st) as [rb st1] eqn:Hb.
  destruct (post_try_body_steps _ _ _ _ _ _ _ _ Hb) as (body & E1 & F1).
  exists body. split; [|exact F1].
  unfold release_token, bind, emit, lift in H.
  assert (Hst : trace st' = trace st1 ++ [EvDeleteToken token_id]).
  { destruct (delete_token (penv E) token_id); inversion H; reflexivity. }
  rewrite Hst, E1, <- app_assoc. reflexivity.
Qed.

(** X14: when the session opens and the current user is read, the
    calls of one request to [ArchiveHandler.post] are none, the
    aggregation query alone, or the aggregation query, one token, then
    only log lines, source posts and photometry posts, and last the
    deletion of that token. *)
Theorem ArchiveHandler_post_calls (E : env) (req : request)
  (st st' : state) (r : result (option response)) (u : Z) :
  session_enter (penv E) = Ok tt ->
  current_user (penv E) = Ok u ->
  ArchiveHandler_post E req st = (r, st') ->
  exists new, trace st' = trace st ++ new /\ post_calls new.
Proof.
  intros Hs Hu H.
  unfold ArchiveHandler_post in H.
  unfold bind, gloria_query, emit, lift, ret, raise, bind in H.
  rewrite Hs, Hu in H.
  run_handler H; inversion H; subst; clear H; cbn [trace];
    try (exists []; split; [symmetry; apply app_nil_r | now left]; fail);
    try (eexists; split; [reflexivity | right; left; eauto]; fail);
    match goal with
    | Hp : try_finally _ _ _ = _ |- _ =>
        apply try_block_shape in Hp as (body & E1 & F1);
        cbn [trace] in E1; rewrite E1, <- !app_assoc;
        eexists; split; [reflexivity|];
        right; right; eexists _, _, _, body; split; [reflexivity | exact F1]
    end.
Qed.

Lemma ArchiveHandler_post_calls_witness :
  exists new,
    trace (snd (ArchiveHandler_post sample_env ingest_request empty_state))
    = trace empty_state ++ new
    /\ post_calls new.
Proof.
  apply (ArchiveHandler_post_calls sample_env ingest_request empty_state
           (snd (ArchiveHandler_post sample_env ingest_request empty_state))
           (fst (ArchiveHandler_post sample_env ingest_request empty_state))
           42);
    vm_compute; reflexivity.
Defined.

(** ** The object id of an ingestion *)

Lemma radec_to_iau_name_ok_format ra dec prefix name :
  F64.valid ra = true -> F64.valid dec = true -> ra <> S754_zero true ->
  radec_to_iau_name ra dec prefix = Ok name ->
  fullmatch (iau_pattern prefix 6) name = true.
Proof.
  intros Hvra Hvdec Hnz H.
  destruct (in_range ra dec) eqn:Hin.
  - rewrite (radec_to_iau_name_in_range _ _ _ Hin) in H.
    injection H as <-.
    unfold in_range in Hin.
    apply andb_true_iff in Hin as [Hin Hd2].
    apply andb_true_iff in Hin as [Hin Hd1].
    apply andb_true_iff in Hin as [Hr1 Hr2].
    destruct (ra_in_range ra Hvra Hnz Hr1 Hr2) as [Hn Hv].
    apply fullmatch_name.
    + now apply hms_shape.
    + apply dms_shape. now apply dec_in_range.
  - destruct (radec_to_iau_name_out_of_range ra dec prefix Hin) as [msg Hm].
    congruence.
Qed.

Lemma post_try_body_obj_id E obj_id group_ids lcs user st out st' :
  post_try_body E obj_id group_ids lcs user st = (Ok out, st') ->
  resolved_obj_id E obj_id lcs = Ok (fst out).
Proof.
  intros Hb. unfold resolved_obj_id.
  unfold post_try_body, bind, emit, lift, ret, raise, bind in Hb.
  run_handler Hb; inversion Hb; subst; reflexivity.
Qed.

(** X15: when [ArchiveHandler.post] answers success, the object id
    in the answer is the one of the request if it has one; without one,
    and with well-formed mean coordinates, it is a name of the format
    [ZTFJ\d{6}\.\d{2}[+-]\d{6}\.\d{1}] made from the mean position. *)
Theorem ArchiveHandler_post_obj_id (E : env) (req : request)
  (st st' : state) (oid : pyval) :
  well_formed_means E ->
  ArchiveHandler_post E req st = (Ok (Some (Success (ObjId oid))), st') ->
  (is_none (pop_default (json_body req) "obj_id" PNone) = false ->
   oid = pop_default (json_body req) "obj_id" PNone)
  /\ (is_none (pop_default (json_body req) "obj_id" PNone) = true ->
      exists name,
        oid = PStr name /\ fullmatch (iau_pattern "ZTFJ" 6) name = true).
Proof.
  intros Hmean H.
  unfold ArchiveHandler_post in H.
  unfold bind, gloria_query, emit, lift, ret, raise, bind in H.
  run_handler H; inversion H; subst; clear H;
    try (match goal with
         | Hp : try_finally _ _ _ = (Ok ?out, _), Ho : snd ?out = Some _ |- _ =>
             pose proof (try_block_response _ _ _ _ _ _ _ _ _ _ Hp Ho);
             discriminate
         end);
    match goal with
    | Hp : try_finally _ _ _ = (Ok ?out, _),
      Hg : gloria E = Some ?g, Hq : ?g _ = Ok ?resp,
      Hl : light_curves_of (g_data ?resp) = Ok ?lcs |- _ =>
        apply try_finally_ok in Hp as (st1 & Hb & _);
        apply post_try_body_obj_id in Hb;
        destruct (Hmean _ _ _ _ Hg Hq Hl) as (Hv1 & Hv2 & Hnz);
        unfold resolved_obj_id in Hb
    end;
    match goal with
    | Hi : is_none _ = _ |- _ => rewrite Hi in Hb
    end;
    (split; intros Hnone; [try discriminate Hnone | try discriminate Hnone]).
  - match type of Hb with
    | context [radec_to_iau_name ?a ?d ?p] =>
        destruct (radec_to_iau_name a d p) as [name|] eqn:Hname;
        [|discriminate]
    end.
    injection Hb as <-. exists name. split; [reflexivity|].
    exact (radec_to_iau_name_ok_format _ _ _ _ Hv1 Hv2 Hnz Hname).
  - injection Hb as <-. reflexivity.
Qed.

Lemma sample_means : well_formed_means sample_env.
Proof.
  intros g q response lcs Hg Hq Hl. injection Hg as <-.
  destruct q; simpl in Hq; injection Hq as <-; simpl in Hl;
    try discriminate Hl.
  injection Hl as <-. repeat split; vm_compute; congruence.
Qed.

Lemma ArchiveHandler_post_obj_id_witness :
  exists name,
    PStr "ZTFJ120000.00+000000.0" = PStr name
    /\ fullmatch (iau_pattern "ZTFJ" 6) name = true.
Proof.
  refine (proj2 (ArchiveHandler_post_obj_id sample_env ingest_request
                   empty_state
                   (snd (ArchiveHandler_post sample_env ingest_request
                           empty_state))
                   (PStr "ZTFJ120000.00+000000.0") sample_means _) _);
    vm_compute; reflexivity.
Defined.

(** ** Outcomes of [make_photometry] *)

Lemma apply_ztf_filters_app a b :
  apply_ztf_filters (a ++ b)
  = match apply_ztf_filters a with
    | Ok ra =>
        match apply_ztf_filters b with
        | Ok rb => Ok (ra ++ rb)
        | Raise e => Raise e
        end
    | Raise e => Raise e
    end.
Proof.
  induction a as [|[e fid] a IH]; simpl.
  - now destruct (apply_ztf_filters b).
  - destruct (ztf_filters fid); [|reflexivity].
    rewrite IH. destruct (apply_ztf_filters a); [|reflexivity].
    now destruct (apply_ztf_filters b).
Qed.

Lemma ztf_filters_recognized lc :
  ztf_filters (lc_filter lc) <> None <-> recognized lc.
Proof.
  unfold recognized, ztf_filters. split.
  - destruct (lc_filter lc =? 1) eqn:H1; [apply Z.eqb_eq in H1; auto|].
    destruct (lc_filter lc =? 2) eqn:H2; [apply Z.eqb_eq in H2; auto|].
    destruct (lc_filter lc =? 3) eqn:H3; [apply Z.eqb_eq in H3; auto|].
    congruence.
  - intros [-> | [-> | ->]]; discriminate.
Qed.

Lemma apply_ztf_filters_tagged lc :
  lc_data lc <> [] ->
  match apply_ztf_filters (tagged lc) with
  | Ok _ => recognized lc
  | Raise e => ~ recognized lc /\ e = KeyError (string_of_Z (lc_filter lc))
  end.
Proof.
  unfold tagged. intros Hne.
  destruct (ztf_filters (lc_filter lc)) as [name|] eqn:Hf.
  - assert (Hok : forall es,
              apply_ztf_filters (map (fun e => (e, lc_filter lc)) es)
              = Ok (map (fun e => (e, lc_filter lc, name)) es)).
    { induction es as [|e es IH]; simpl; [reflexivity|]. now rewrite Hf, IH. }
    rewrite Hok. apply ztf_filters_recognized. congruence.
  - destruct (lc_data lc) as [|e es]; [congruence|]. simpl. rewrite Hf.
    split; [|reflexivity]. intros Hr. now apply ztf_filters_recognized in Hr.
Qed.

Lemma with_data_nonempty lcs : Forall (fun lc => lc_data lc <> []) (with_data lcs).
Proof.
  apply List.Forall_forall. intros lc Hin. apply filter_In in Hin as [_ Hn].
  intros Hnil. rewrite Hnil in Hn. discriminate.
Qed.

Lemma apply_ztf_filters_records kept :
  Forall (fun lc => lc_data lc <> []) kept ->
  match apply_ztf_filters (concat (map tagged kept)) with
  | Ok _ => Forall recognized kept
  | Raise e =>
      exists lc,
        first_unrecognized kept lc /\ e = KeyError (string_of_Z (lc_filter lc))
  end.
Proof.
  induction 1 as [|lc kept Hne _ IH]; simpl; [constructor|].
  rewrite apply_ztf_filters_app.
  pose proof (apply_ztf_filters_tagged lc Hne) as Hlc.
  destruct (apply_ztf_filters (tagged lc)) as [rows|e].
  - destruct (apply_ztf_filters (concat (map tagged kept))) as [rest|e].
    + now constructor.
    + destruct IH as (bad & (before & after & -> & Hb & Hbad) & ->).
      exists bad. split; [|reflexivity].
      exists (lc :: before), after. split; [reflexivity|].
      split; [now constructor | exact Hbad].
  - destruct Hlc as [Hbad ->]. exists lc. split; [|reflexivity].
    exists [], kept. split; [reflexivity|]. split; [constructor | exact Hbad].
Qed.

(** X16: on records whose epochs all carry hjd, mag, magerr, catflags,
    programid, ra and dec as numbers (the epochs of this model; an epoch
    that lacks one of them is outside it), [make_photometry] succeeds
    exactly when some record has a non-empty data array and every such
    record has a filter code of the table; with no such record it raises
    [ValueError]; otherwise it raises the [KeyError] of the filter code of
    the first record with data whose code is not in the table.  Records
    with an empty data array are skipped, whatever their filter code, and
    on such epochs [drop_flagged] plays no part in the outcome. *)
Theorem make_photometry_outcome (lcs : list light_curve) (drop_flagged : bool) :
  photometry_outcome lcs (make_photometry lcs drop_flagged).
Proof.
  unfold make_photometry. fold (with_data lcs).
  pose proof (apply_ztf_filters_records _ (with_data_nonempty lcs)) as Hrec.
  unfold photometry_outcome.
  destruct (with_data lcs) as [|lc kept]; [reflexivity|].
  cbn [map]. change (tagged lc :: map tagged kept) with (map tagged (lc :: kept)).
  destruct (apply_ztf_filters (concat (map tagged (lc :: kept)))) as [named|e].
  - destruct drop_flagged; (split; [discriminate | exact Hrec]).
  - destruct Hrec as (bad & Hbad & ->). eauto.
Qed.

Lemma finish_row_key named :
  map row_key (map finish_row named)
  = map (fun r : epoch * Z * string => epoch_key (fst r)) named.
Proof.
  rewrite map_map. apply map_ext. now intros [[e fid] name].
Qed.

Lemma apply_ztf_filters_epochs df : forall named,
  apply_ztf_filters df = Ok named ->
  map (fun r : epoch * Z * string => fst r) named = df.
Proof.
  induction df as [|[e fid] rest IH]; simpl; intros named H.
  - now inversion H.
  - destruct (ztf_filters fid); [|discriminate].
    destruct (apply_ztf_filters rest) as [rows|]; [|discriminate].
    inversion H; subst. simpl. now rewrite (IH rows eq_refl).
Qed.

Lemma with_data_epochs lcs :
  concat (map tagged (with_data lcs)) = all_epochs lcs.
Proof.
  unfold all_epochs, with_data.
  induction lcs as [|lc lcs IH]; simpl; [reflexivity|].
  destruct (lc_data lc) as [|e es] eqn:Hd; simpl.
  - replace (tagged lc) with (@nil (epoch * Z)) by (unfold tagged; now rewrite Hd).
    exact IH.
  - now rewrite IH.
Qed.

(** X17: [make_photometry] with [drop_flagged=True] gives the rows of
    [drop_flagged=False] whose catflags is 0, and fails whenever that
    fails, with the same exception; without dropping, the rows are all the
    epochs of all the records, in record order and epoch order, each with
    its hjd, catflags, programid, ra and dec unchanged and the filter code
    of its record. *)
Theorem make_photometry_keeps_all (lcs : list light_curve) :
  make_photometry lcs true
  = match make_photometry lcs false with
    | Ok rows => Ok (List.filter (fun r => row_catflags r =? 0) rows)
    | Raise e => Raise e
    end
  /\ forall rows,
       make_photometry lcs false = Ok rows ->
       map row_key rows = map epoch_key (all_epochs lcs).
Proof.
  unfold make_photometry. fold (with_data lcs).
  rewrite <- with_data_epochs.
  destruct (map tagged (with_data lcs)) as [|d ds] eqn:Hm.
  - split; [reflexivity | discriminate].
  - rewrite <- Hm.
    destruct (apply_ztf_filters (concat (map tagged (with_data lcs))))
      as [named|e] eqn:Hn.
    + split; [reflexivity|]. intros rows H. injection H as <-.
      rewrite finish_row_key.
      rewrite <- (apply_ztf_filters_epochs _ _ Hn) at 1.
      now rewrite map_map.
    + split; [reflexivity | discriminate].
Qed.

Lemma make_photometry_keeps_all_witness :
  exists rows,
    make_photometry sample_curves false = Ok rows
    /\ map row_key rows = map epoch_key (all_epochs sample_curves).
Proof.
  eexists. split; [vm_compute; reflexivity|].
  apply (proj2 (make_photometry_keeps_all sample_curves)).
  vm_compute. reflexivity.
Defined.

(** ** The program ids do not depend on the order of the streams *)

Lemma selector_of_raise s e :
  selector_of s = Raise e -> e = OtherError "AttributeError".
Proof.
  unfold selector_of. destruct (stream_altdata s) as [[l|]|]; congruence.
Qed.

Lemma update_selector_raise streams : forall acc e,
  update_selector streams acc = Raise e -> e = OtherError "AttributeError".
Proof.
  induction streams as [|s rest IH]; simpl; intros acc e H; [discriminate|].
  destruct (contains "ztf" (lower (stream_name s))); [|now apply IH in H].
  destruct (selector_of s) as [l|e'] eqn:Hs; [now apply IH in H|].
  injection H as <-. now apply selector_of_raise in Hs.
Qed.

Lemma update_selector_survey streams : forall acc,
  update_selector (survey_streams streams) acc = update_selector streams acc.
Proof.
  unfold survey_streams.
  induction streams as [|s rest IH]; simpl; intros acc; [reflexivity|].
  destruct (contains "ztf" (lower (stream_name s))) eqn:Hz; simpl.
  - rewrite Hz. destruct (selector_of s); [apply IH | reflexivity].
  - apply IH.
Qed.

Lemma update_selector_permutation streams streams' :
  Permutation streams streams' ->
  forall acc, update_selector streams acc = update_selector streams' acc.
Proof.
  induction 1 as [|s l l' _ IH|s t l|l l' l'' _ IH1 _ IH2]; intros acc.
  - reflexivity.
  - simpl. destruct (contains "ztf" (lower (stream_name s))); [|apply IH].
    destruct (selector_of s); [apply IH | reflexivity].
  - simpl.
    destruct (contains "ztf" (lower (stream_name s)));
      destruct (contains "ztf" (lower (stream_name t))); try reflexivity.
    destruct (selector_of t) as [lt|et] eqn:Ht;
      destruct (selector_of s) as [ls|es] eqn:Hs; try reflexivity.
    + f_equal. rewrite <- !(assoc_L (∪)).
      now rewrite (comm_L (∪) (list_to_set lt) (list_to_set ls)).
    + apply selector_of_raise in Ht. apply selector_of_raise in Hs.
      congruence.
  - now rewrite IH1, IH2.
Qed.

(** X18: the derived program ids depend only on the streams whose
    lower-cased name contains "ztf", not on their order: two stream lists
    whose survey streams are a permutation of each other give the same
    set, or fail alike. *)
Theorem program_id_selector_survey_streams (streams streams' : list stream) :
  Permutation (survey_streams streams) (survey_streams streams') ->
  program_id_selector streams = program_id_selector streams'.
Proof.
  intros Hp. unfold program_id_selector.
  rewrite <- (update_selector_survey streams),
          <- (update_selector_survey streams').
  now apply update_selector_permutation.
Qed.

Lemma program_id_selector_survey_streams_witness :
  program_id_selector [partnership_stream; other_stream; caltech_stream]
  = program_id_selector [caltech_stream; partnership_stream].
Proof.
  apply program_id_selector_survey_streams.
  vm_compute. apply perm_swap.
Defined.

(** ** The sign of the declination in a name *)

Lemma fits_length p : forall l, fits p l = true -> length l = length p.
Proof.
  unfold fits. induction p as [|k p IH]; intros l H.
  - destruct l; [reflexivity | discriminate].
  - destruct l as [|c l]; simpl in *; [discriminate|].
    destruct (class_matches k c); [|discriminate]. now rewrite (IH l H).
Qed.

Lemma format_signed_head s x rest :
  (x = S754_zero s \/ exists m e, x = S754_finite s m e) ->
  exists tl,
    (format_f true 3 0 x ++ rest)%list
    = (if s then "-"%char else "+"%char) :: tl.
Proof.
  intros [-> | (m & e & ->)]; unfold format_f; destruct s;
    cbn [sign_chars app]; eexists; reflexivity.
Qed.

Lemma dms_head dec :
  ((exists s, dec = S754_zero s)
   \/ exists s m e,
        dec = S754_finite s m e /\ (mval (Z.pos m) e <= 90)%R /\ e < 0) ->
  exists tl, dms_of dec = sign_char dec :: tl.
Proof.
  intros [[s ->] | (s & m & e & -> & Hv & He)].
  - destruct s; vm_compute; eexists; reflexivity.
  - unfold dms_of. cbv zeta.
    destruct (div_pow_bounds m e He) as [Hqlo Hqhi].
    set (q := Z.pos m / 2 ^ (- e)) in *.
    assert (Hq : 0 <= q < 91).
    { split; [apply Z.div_pos; [lia | apply Z.pow_pos_nonneg; lia]|].
      apply lt_IZR. lra. }
    assert (Hfloor : F64.floor (F64.abs (S754_finite s m e)) = F64.of_Z q).
    { cbn [F64.abs SFabs F64.floor].
      destruct (Z.leb_spec 0 e); [lia | reflexivity]. }
    assert (Hsign : F64.sign (S754_finite s m e)
                    = if s then F64.of_Z (-1) else F64.of_Z 1) by reflexivity.
    rewrite Hfloor, Hsign.
    set (dec_d := F64.mul (F64.of_Z q) (if s then F64.of_Z (-1) else F64.of_Z 1)).
    assert (Hd : dec_d = S754_zero s \/ exists m' e', dec_d = S754_finite s m' e').
    { destruct (degrees_exact s q Hq) as [[_ Hd] | (m' & e' & Hd & _)];
        fold dec_d in Hd; eauto. }
    replace (sign_char (S754_finite s m e))
      with (if s then "-"%char else "+"%char) by now destruct s.
    now apply format_signed_head.
Qed.

(** X19: for well-formed coordinates in range (ra other than the
    negative zero), the name is the prefix, nine characters for the right
    ascension, the sign, and eight characters for the declination; the
    sign is a minus exactly for a declination below zero, also between
    -1 and 0 where the degrees field is 00, and a plus for both zeros. *)
Theorem iau_name_sign (ra dec : F64.float) (prefix : string) :
  F64.valid ra = true -> F64.valid dec = true -> ra <> S754_zero true ->
  in_range ra dec = true ->
  exists hms dms,
    radec_to_iau_name ra dec prefix
    = Ok (prefix ++ string_of_list_ascii (hms ++ sign_char dec :: dms))%string
    /\ length hms = 9%nat /\ length dms = 8%nat.
Proof.
  intros Hvra Hvdec Hnz Hin.
  rewrite (radec_to_iau_name_in_range _ _ _ Hin).
  unfold in_range in Hin.
  apply andb_true_iff in Hin as [Hin Hd2].
  apply andb_true_iff in Hin as [Hin Hd1].
  apply andb_true_iff in Hin as [Hr1 Hr2].
  destruct (ra_in_range ra Hvra Hnz Hr1 Hr2) as [Hn Hv].
  pose proof (dec_in_range dec Hvdec Hd1 Hd2) as Hdec.
  pose proof (fits_length _ _ (hms_shape ra Hn Hv)) as Hl1.
  pose proof (fits_length _ _ (dms_shape dec Hdec)) as Hl2.
  destruct (dms_head dec Hdec) as [tl Htl].
  exists (hms_of ra), tl. rewrite Htl in Hl2 |- *.
  split; [reflexivity|]. split; [exact Hl1|].
  simpl in Hl2. now injection Hl2.
Qed.

Lemma iau_name_sign_witness :
  exists hms dms,
    radec_to_iau_name f180 (F64.of_frac (-1) 2) "ZTFJ"
    = Ok ("ZTFJ" ++ string_of_list_ascii
                      (hms ++ sign_char (F64.of_frac (-1) 2) :: dms))%string
    /\ length hms = 9%nat /\ length dms = 8%nat.
Proof.
  apply (iau_name_sign f180 (F64.of_frac (-1) 2) "ZTFJ").
  - vm_compute. reflexivity.
  - vm_compute. reflexivity.
  - vm_compute. discriminate.
  - vm_compute. reflexivity.
Defined.

(** A declination of half a degree south keeps its minus sign. *)
Example iau_half_degree_south :
  radec_to_iau_name f180 (F64.of_frac (-1) 2) "ZTFJ"
  = Ok "ZTFJ120000.00-003000.0".
Proof. vm_compute. reflexivity. Qed.

(** ** When the program ids cannot be derived *)

Lemma update_selector_outcome streams : forall acc,
  selector_outcome streams (update_selector streams acc).
Proof.
  unfold selector_outcome, survey_streams.
  induction streams as [|s rest IH]; intros acc; simpl; [constructor|].
  destruct (contains "ztf" (lower (stream_name s))) eqn:Hz; [|apply IH].
  unfold selector_of.
  destruct (stream_altdata s) as [[l|]|] eqn:Ha.
  - specialize (IH (acc ∪ list_to_set l)).
    destruct (update_selector rest (acc ∪ list_to_set l)).
    + constructor; [congruence | exact IH].
    + destruct IH as [-> IH]. split; [reflexivity | now apply Exists_cons_tl].
  - specialize (IH (acc ∪ list_to_set [])).
    destruct (update_selector rest (acc ∪ list_to_set [])).
    + constructor; [congruence | exact IH].
    + destruct IH as [-> IH]. split; [reflexivity | now apply Exists_cons_tl].
  - split; [reflexivity | now apply Exists_cons_hd].
Qed.

(** X20: over streams whose altdata is null or a dictionary whose
    selector, when it has one, is a list of integers (the streams of this
    model; a selector that is null or no list is outside it), deriving the
    program ids fails only with the [AttributeError] of a stream whose
    name contains "ztf" and whose altdata is null; when every such stream
    has an altdata it succeeds.  Streams of other names are never
    inspected. *)
Theorem program_id_selector_outcome (streams : list stream) :
  selector_outcome streams (program_id_selector streams).
Proof. apply update_selector_outcome. Qed.

(** ** New sources *)

Lemma post_try_body_new_sources E req obj_id lcs user :
  emits_only (new_source_call E req)
    (post_try_body E obj_id (pop_default (json_body req) "group_ids" PNone)
                   lcs user).
Proof.
  unfold post_try_body. emits_auto; try exact I.
  simpl. split; [|reflexivity].
  match goal with
  | Hs : select_sources _ _ = Ok ?l, Hl : Nat.ltb 0 (length ?l) = false |- _ =>
      destruct l; [exact Hs | discriminate Hl]
  end.
Qed.

(** X21: [ArchiveHandler.post] posts a source only under an object
    id that it looked up and found no source for, and with the group_ids
    of the request; an object that exists is never posted again. *)
Theorem ArchiveHandler_post_new_sources (E : env) (req : request) :
  emits_only (new_source_call E req) (ArchiveHandler_post E req).
Proof.
  unfold ArchiveHandler_post, release_token.
  repeat first
    [ apply post_try_body_new_sources
    | apply emits_bind_lift; intros ? ?
    | emits_step ];
    exact I.
Qed.
